(** * dnsping: the latency-measurement and ranking engine of [scanner.py]

    A shallow embedding of [src/dnsping/scanner.py]: the probes, the attempts
    and the record of one server, the workers and the live reporter on the
    event loop, the validation and the loading of the server addresses, the
    final table with its summary and the choice of the servers to
    configure, the arguments handed to the elevated process, and the
    configuration that [main] builds; followed by the properties proved of
    them.

    Conventions of the embedding.
    - A Python [float] is a binary64 value: Rocq's primitive [float], with
      [float("inf")] as [infinity], [==] as [PrimFloat.eqb], [<] as
      [PrimFloat.ltb].  Arithmetic is the IEEE arithmetic of the kernel.
    - A Python [int] that only counts upwards from zero is a [nat]; the
      configured [ping_count], which the user may set to any integer, is a [Z].
    - A [str] is a [string] of characters below 256.
    - [Set[TestMethod]] is a [gset TestMethod]; the iteration order of a
      Python set is not fixed by the language, so [next(iter(s))] is a
      parameter of the worker.
    - [Dict[str, DNSResult]] is an association list in insertion order, which
      is the order in which [dict.values()] enumerates.
    - [datetime.now()] is a reading of a clock, an integer handed in by the
      caller.
    - What the outside world did during a call (the answer of a probe, the
      lines of a file, an exception) is an argument of the function that
      makes the call; a function that may raise returns the exception in
      place of its result. *)

From Stdlib Require Import ZArith Lia List String Ascii Floats Permutation Sorted.
From stdpp Require Import base gmap sets strings pretty.
Import ListNotations.

#[local] Open Scope Z_scope.
#[local] Open Scope string_scope.
#[local] Open Scope list_scope.

(** ** Python numbers *)

Module PyFloat.

(** [float(n)] for a non-negative [int] below [2^63], the conversion Python
    applies when an [int] meets a [float] in [*] or [/]. *)
Definition of_nat (n : nat) : float :=
  PrimFloat.of_uint63 (Uint63.of_Z (Z.of_nat n)).

(** Python's [x != y] on floats. *)
Definition neqb (x y : float) : bool := negb (PrimFloat.eqb x y).

(** Python's [x > y] on floats. *)
Definition gtb (x y : float) : bool := PrimFloat.ltb y x.

(** Neither operand of a comparison is a NaN. *)
Definition not_nan (x : float) : bool := PrimFloat.eqb x x.

End PyFloat.

(** ** Python strings

    A [str] is a [string]; the operations are the ones the echo probe applies
    to the output of the ping utility, and [float] as Python defines it on
    every [str]. *)

Module PyStr.

(** [s.startswith(p)]. *)
Fixpoint startswith (p s : string) : bool :=
  match p, s with
  | EmptyString, _ => true
  | String a p', String b s' => Ascii.eqb a b && startswith p' s'
  | String _ _, EmptyString => false
  end.

(** The suffix of [s] after its first [n] characters. *)
Fixpoint drop (n : nat) (s : string) : string :=
  match n, s with
  | O, _ => s
  | S n', String _ s' => drop n' s'
  | S _, EmptyString => EmptyString
  end.

(** [p in s]: [p] occurs in [s] as a substring. *)
Fixpoint contains (p s : string) : bool :=
  startswith p s
  || match s with
     | EmptyString => false
     | String _ s' => contains p s'
     end.

(** [s.split(sep)] for a non-empty separator, scanning left to right;
    [cur] holds the characters of the current piece in reverse.  [fuel]
    bounds the number of scanning steps by the length of the text. *)
Fixpoint split_aux (fuel : nat) (sep s : string) (cur : list ascii) : list string :=
  match fuel with
  | O => [string_of_list_ascii (rev cur)]
  | S fuel' =>
      match s with
      | EmptyString => [string_of_list_ascii (rev cur)]
      | String c s' =>
          if startswith sep s
          then string_of_list_ascii (rev cur)
                 :: split_aux fuel' sep (drop (String.length sep) s) []
          else split_aux fuel' sep s' (c :: cur)
      end
  end.

Definition split (sep s : string) : list string :=
  split_aux (S (String.length s)) sep s [].

(** [s.replace(old, new)] for a non-empty [old]. *)
Definition replace (old new s : string) : string :=
  String.concat new (split old s).

(** [c.isspace()] for the characters below 256. *)
Definition isspace (c : ascii) : bool :=
  let n := nat_of_ascii c in
  ((9 <=? n) && (n <=? 13) || (28 <=? n) && (n <=? 32)
   || (n =? 133) || (n =? 160))%nat.

Fixpoint lstrip (s : string) : string :=
  match s with
  | String c s' => if isspace c then lstrip s' else s
  | EmptyString => EmptyString
  end.

Definition rev_string (s : string) : string :=
  string_of_list_ascii (rev (list_ascii_of_string s)).

Definition rstrip (s : string) : string := rev_string (lstrip (rev_string s)).

(** [s.strip()]. *)
Definition strip (s : string) : string := rstrip (lstrip s).

(** [l[i]] for [i >= 0]; [None] stands for [IndexError]. *)
Definition index {A : Type} (l : list A) (i : nat) : option A := nth_error l i.

(** [l[-1]]. *)
Definition last_item {A : Type} (l : list A) : option A := nth_error (rev l) 0.

Definition is_digit (c : ascii) : bool :=
  let n := nat_of_ascii c in ((48 <=? n) && (n <=? 57))%nat.

Definition digit_value (c : ascii) : Z := Z.of_nat (nat_of_ascii c) - 48.

(** The number a string of decimal digits denotes; [None] when some
    character is not a digit. *)
Fixpoint digits_value (acc : Z) (s : string) : option Z :=
  match s with
  | EmptyString => Some acc
  | String c s' =>
      if is_digit c then digits_value (10 * acc + digit_value c) s' else None
  end.

(** *** [float(s)]

    The conversion of a [str] to a [float]: white space around the
    number is dropped, digit separators are checked and removed, and what
    is left is a sign followed by a decimal number, [inf], [infinity] or
    [nan].  [None] stands for [ValueError]. *)

(** The white space that [float] drops: the six characters of C's
    [isspace] and the two white-space characters above 127, which [float]
    rewrites to a space before it looks at the text.  The separators 28
    to 31, which [str.strip] removes, are not dropped. *)
Definition float_isspace (c : ascii) : bool :=
  let n := nat_of_ascii c in
  ((9 <=? n) && (n <=? 13) || (n =? 32) || (n =? 133) || (n =? 160))%nat.

Fixpoint float_lstrip (s : string) : string :=
  match s with
  | String c s' => if float_isspace c then float_lstrip s' else s
  | EmptyString => EmptyString
  end.

Definition float_strip (s : string) : string :=
  rev_string (float_lstrip (rev_string (float_lstrip s))).

(** Digit separators: an underscore is accepted between two digits only,
    and the number is read without it.  [prev] is the character before
    the current one. *)
Fixpoint drop_underscores (prev : option ascii) (s : string) : option string :=
  match s with
  | EmptyString => Some EmptyString
  | String c rest =>
      if Ascii.eqb c "_" then
        match prev, rest with
        | Some p, String d _ =>
            if is_digit p && is_digit d then drop_underscores (Some c) rest
            else None
        | _, _ => None
        end
      else
        match drop_underscores (Some c) rest with
        | Some rest' => Some (String c rest')
        | None => None
        end
  end.

(** The letters A to Z in lower case; [inf], [infinity] and [nan] are
    recognised in any mix of cases. *)
Definition ascii_lower (c : ascii) : ascii :=
  let n := nat_of_ascii c in
  if ((65 <=? n) && (n <=? 90))%nat then ascii_of_nat (n + 32) else c.

Fixpoint lower_ascii (s : string) : string :=
  match s with
  | EmptyString => EmptyString
  | String c s' => String (ascii_lower c) (lower_ascii s')
  end.

(** The leading decimal digits of [s] and what follows them. *)
Fixpoint span_digits (s : string) : string * string :=
  match s with
  | EmptyString => (EmptyString, EmptyString)
  | String c rest =>
      if is_digit c
      then let '(digits, after) := span_digits rest in (String c digits, after)
      else (EmptyString, s)
  end.

(** An optional sign and what follows it. *)
Definition split_sign (s : string) : bool * string :=
  match s with
  | String "-" r => (true, r)
  | String "+" r => (false, r)
  | _ => (false, s)
  end.

(** What follows the [e] of an exponent: an optional sign and at least one
    digit, up to the end of the text. *)
Definition parse_exponent (s : string) : option Z :=
  let '(neg, digits) := split_sign s in
  if (String.length digits =? 0)%nat then None
  else match digits_value 0 digits with
       | Some x => Some (if neg then - x else x)
       | None => None
       end.

(** A decimal number without its sign, as the integer [n] and the power of
    ten [e] of the value [n * 10^e]: digits with an optional point among
    them ([12], [15.456], [.5], [3.]), at least one digit in all, and an
    optional exponent ([1e3], [2.5E-3]). *)
Definition parse_decimal (body : string) : option (Z * Z) :=
  let '(ip, after_ip) := span_digits body in
  let '(fp, after_fp) :=
    match after_ip with
    | String "." r => span_digits r
    | _ => (EmptyString, after_ip)
    end in
  if (String.length ip + String.length fp =? 0)%nat then None
  else
    match digits_value 0 (ip ++ fp) with
    | None => None
    | Some n =>
        let scale := - Z.of_nat (String.length fp) in
        match after_fp with
        | EmptyString => Some (n, scale)
        | String c r =>
            if Ascii.eqb c "e" || Ascii.eqb c "E" then
              match parse_exponent r with
              | Some x => Some (n, x + scale)
              | None => None
              end
            else None
        end
    end.

(** The binary64 value nearest to [n * 10^e], ties to even; the sign is
    [neg].  The number is the quotient of two integers, rounded once by
    the division of [SpecFloat].  A number of [b + 1] bits is at least
    [10^(b / 4)] and below [10^(b / 3 + 1)]: when that puts the value
    above every binary64 number, or below half of the least positive one,
    the result is the infinity or the zero it rounds to, and the power of
    ten is not computed. *)
Definition decimal_to_float (neg : bool) (n : Z) (e : Z) : float :=
  match n with
  | Zpos p =>
      let b := Z.log2 n in
      if (309 <? e + b / 4)%Z then
        if neg then neg_infinity else infinity
      else if (e + b / 3 + 1 <=? -324)%Z then
        if neg then (-0)%float else 0%float
      else
        SF2Prim (SFdiv prec emax
                   (S754_finite neg (Z.to_pos (n * 10 ^ Z.max e 0)) 0)
                   (S754_finite false (Z.to_pos (10 ^ Z.max (- e) 0)) 0))
  | _ => if neg then (-0)%float else 0%float
  end.

(** [float(s)]. *)
Definition py_float (s : string) : option float :=
  match drop_underscores None s with
  | None => None
  | Some plain =>
      let '(neg, body) := split_sign (float_strip plain) in
      let word := lower_ascii body in
      if String.eqb word "inf" || String.eqb word "infinity" then
        Some (if neg then neg_infinity else infinity)
      else if String.eqb word "nan" then Some nan
      else
        match parse_decimal body with
        | Some (n, e) => Some (decimal_to_float neg n e)
        | None => None
        end
  end.

End PyStr.

(** ** [TestMethod] *)

Inductive TestMethod : Set := DNS_QUERY | SOCKET_CONNECT | PING.

#[global] Instance TestMethod_eq_dec : EqDecision TestMethod.
Proof. solve_decision. Defined.

#[global] Instance TestMethod_countable : Countable TestMethod.
Proof.
  refine (inj_countable'
            (fun m => match m with
                      | DNS_QUERY => 1%nat | SOCKET_CONNECT => 2%nat | PING => 3%nat
                      end)
            (fun n => match n with
                      | 1%nat => DNS_QUERY | 2%nat => SOCKET_CONNECT | _ => PING
                      end) _).
  by intros [].
Defined.

(** The two values attached to each member of the enumeration. *)
Definition display_name (m : TestMethod) : string :=
  match m with
  | DNS_QUERY => "DNS"
  | SOCKET_CONNECT => "Socket"
  | PING => "Ping"
  end.

Definition priority (m : TestMethod) : Z :=
  match m with
  | DNS_QUERY => 1
  | SOCKET_CONNECT => 2
  | PING => 3
  end.

(** ** [DNSResult] *)

Record DNSResult : Type := mkDNSResult {
  server : string;
  provider : string;
  latency : float;
  avg_latency : float;
  status : string;
  last_updated : Z;
  ping_count : nat;
  successful_methods : gset TestMethod
}.

(** [DNSResult(server=..., provider=...)]: every other field at its default. *)
Definition new_DNSResult (srv prov : string) (now : Z) : DNSResult :=
  {| server := srv;
     provider := prov;
     latency := infinity;
     avg_latency := infinity;
     status := "Pending";
     last_updated := now;
     ping_count := 0;
     successful_methods := ∅ |}.

(** [DNSResult.update_latency]. *)
Definition update_latency (self : DNSResult) (new_latency : float)
    (method : TestMethod) (now : Z) : DNSResult :=
  if PyFloat.neqb new_latency infinity && PyFloat.gtb new_latency 0%float then
    let count := S (ping_count self) in
    let avg :=
      if PrimFloat.eqb (avg_latency self) infinity then new_latency
      else
        let weight := Nat.min count 10 in
        (((avg_latency self * PyFloat.of_nat (weight - 1)) + new_latency)
           / PyFloat.of_nat weight)%float in
    {| server := server self;
       provider := provider self;
       latency := new_latency;
       avg_latency := avg;
       status := status self;
       last_updated := now;
       ping_count := count;
       successful_methods := successful_methods self ∪ {[ method ]} |}
  else self.


(** ** Python lists: [list.sort] and [sorted]

    A stable insertion sort on the comparison [lt], the only comparison
    [list.sort] uses.  On elements that [lt] orders as a strict weak order
    every stable sort returns this list, so it is the list [list.sort]
    returns; floats are so ordered as long as none is a NaN. *)

Section PySort.
Context {A : Type} (lt : A -> A -> bool).

Fixpoint insert_sorted (x : A) (l : list A) : list A :=
  match l with
  | [] => [x]
  | h :: t => if lt h x then h :: insert_sorted x t else x :: h :: t
  end.

Fixpoint py_sort (l : list A) : list A :=
  match l with
  | [] => []
  | x :: t => insert_sorted x (py_sort t)
  end.
End PySort.

(** [sorted(l, key=key)] for a float-valued key. *)
Definition py_sorted_by {A : Type} (key : A -> float) (l : list A) : list A :=
  py_sort (fun a b => PrimFloat.ltb (key a) (key b)) l.

(** ** [ScanConfig] *)

Record ScanConfig : Type := mkScanConfig {
  max_servers : Z;
  cfg_ping_count : Z;
  timeout : float;
  max_workers : Z;
  update_interval : float;
  enable_ping : bool;
  enable_socket : bool;
  enable_dns_query : bool
}.

(** ** The three probe methods

    Each probe is a function of its configuration and of what the outside
    world answered during the call. *)

(** What happened during one resolution query: whether anything inside the
    [try] block raised, whether the pool handed out a resolver, and the two
    readings of [time.perf_counter()] in seconds. *)
Record dns_world : Type := mkDnsWorld {
  dns_raised : bool;
  dns_resolver : bool;
  dns_start_time : float;
  dns_end_time : float
}.

(** [DNSLatencyScanner._measure_dns_query_latency]. *)
Definition _measure_dns_query_latency (config : ScanConfig) (HAS_DNSPYTHON : bool)
    (w : dns_world) : option float :=
  if negb (enable_dns_query config) || negb HAS_DNSPYTHON then None
  else if dns_raised w then None
  else if negb (dns_resolver w) then None
  else
    let latency := ((dns_end_time w - dns_start_time w) * 1000)%float in
    if PrimFloat.ltb latency 5000 then Some latency else None.

(** What happened during one connection attempt. *)
Record socket_world : Type := mkSocketWorld {
  sock_raised : bool;
  sock_start_time : float;
  sock_end_time : float
}.

(** [DNSLatencyScanner._measure_socket_latency]. *)
Definition _measure_socket_latency (config : ScanConfig) (w : socket_world)
    : option float :=
  if negb (enable_socket config) then None
  else if sock_raised w then None
  else
    let latency := ((sock_end_time w - sock_start_time w) * 1000)%float in
    if PrimFloat.ltb latency 5000 then Some latency else None.

(** What the ping subprocess did: whether spawning, waiting or decoding
    raised, its return code and its decoded standard output. *)
Record ping_world : Type := mkPingWorld {
  ping_raised : bool;
  returncode : Z;
  output : string
}.

(** The loops [for line in output.split("\n"): if <marker> in line: try:
    return float(...) except ...: continue]: the first line that holds the
    marker and parses. *)
Fixpoint first_parsed (marker : string) (parse : string -> option float)
    (lines : list string) : option float :=
  match lines with
  | [] => None
  | line :: rest =>
      if PyStr.contains marker line then
        match parse line with
        | Some v => Some v
        | None => first_parsed marker parse rest
        end
      else first_parsed marker parse rest
  end.

Definition newline : string := String "010"%char EmptyString.

(** [float(line.split("=")[-1].replace("ms", "").strip())]. *)
Definition parse_windows_average (line : string) : option float :=
  match PyStr.last_item (PyStr.split "=" line) with
  | Some part => PyStr.py_float (PyStr.strip (PyStr.replace "ms" "" part))
  | None => None
  end.

(** [float(line.split("time=")[1].split("ms")[0])]. *)
Definition parse_windows_time (line : string) : option float :=
  match PyStr.index (PyStr.split "time=" line) 1 with
  | Some after =>
      match PyStr.index (PyStr.split "ms" after) 0 with
      | Some time_part => PyStr.py_float time_part
      | None => None
      end
  | None => None
  end.

(** [float(line.split("/")[4])]. *)
Definition parse_posix_avg (line : string) : option float :=
  match PyStr.index (PyStr.split "/" line) 4 with
  | Some field => PyStr.py_float field
  | None => None
  end.

(** [DNSLatencyScanner._measure_ping_latency]; [nt] is [os.name == "nt"]. *)
Definition _measure_ping_latency (config : ScanConfig) (nt : bool)
    (w : ping_world) : option float :=
  if negb (enable_ping config) then None
  else if ping_raised w then None
  else if negb (returncode w =? 0)%Z then None
  else
    let lines := PyStr.split newline (output w) in
    if nt then
      if PyStr.contains "Average =" (output w) then
        first_parsed "Average =" parse_windows_average lines
      else if PyStr.contains "time=" (output w) then
        first_parsed "time=" parse_windows_time lines
      else None
    else
      if PyStr.contains "avg" (output w) then
        first_parsed "avg" parse_posix_avg lines
      else None.

(** ** [DNSLatencyScanner._measure_server_latency] *)

(** The results [asyncio.gather] hands back, paired with the method of each
    task, in the order the tasks were created. *)
Definition gathered (config : ScanConfig) (HAS_DNSPYTHON : bool)
    (dns sock ping : option float) : list (option float * TestMethod) :=
  (if enable_dns_query config && HAS_DNSPYTHON then [(dns, DNS_QUERY)] else [])
  ++ (if enable_socket config then [(sock, SOCKET_CONNECT)] else [])
  ++ (if enable_ping config then [(ping, PING)] else []).

(** The loop over [zip(results, methods)]: a result is kept when it is a
    number other than [float("inf")]. *)
Definition collect (rs : list (option float * TestMethod))
    : list float * gset TestMethod :=
  fold_left
    (fun '(measurements, methods) '(result, method) =>
       match result with
       | Some v =>
           if PyFloat.neqb v infinity
           then (measurements ++ [v], methods ∪ {[ method ]})
           else (measurements, methods)
       | None => (measurements, methods)
       end)
    rs ([], ∅).

(** The attempt latency of a non-empty list of measurements. *)
Definition median (measurements : list float) : float :=
  let sorted := py_sort PrimFloat.ltb measurements in
  let median_idx := (length sorted / 2)%nat in
  nth median_idx sorted infinity.

Definition _measure_server_latency (config : ScanConfig) (HAS_DNSPYTHON : bool)
    (dns sock ping : option float) : float * gset TestMethod :=
  let tasks := gathered config HAS_DNSPYTHON dns sock ping in
  match tasks with
  | [] => (infinity, ∅)
  | _ =>
      let '(measurements, successful) := collect tasks in
      match measurements with
      | [] => (infinity, ∅)
      | _ => (median measurements, successful)
      end
  end.

(** ** [DNSLatencyScanner._scan_server_multiple]: the attempts of one worker *)

(** What one pass of the attempt loop met: the pair that
    [_measure_server_latency] returned, or [None] when the call raised, and
    the reading of the clock [update_latency] would store. *)
Record attempt : Type := mkAttempt {
  measured : option (float * gset TestMethod);
  at_time : Z
}.

(** The local variables of the worker. *)
Record worker_state : Type := mkWorkerState {
  result : DNSResult;
  successful_tests : nat;
  total_latency : float;
  all_methods : gset TestMethod
}.

Section Worker.

(** [next(iter(methods))]: the element a set yields first.  Python leaves
    the order open; on the empty set the call is never made. *)
Variable next_iter : gset TestMethod -> TestMethod.

(** The body of [for attempt in range(ping_count)], apart from the pause. *)
Definition attempt_step (st : worker_state) (a : attempt) : worker_state :=
  match measured a with
  | None => st
  | Some (lat, methods) =>
      if PyFloat.neqb lat infinity && negb (bool_decide (methods = ∅)) then
        {| result := update_latency (result st) lat (next_iter methods) (at_time a);
           successful_tests := S (successful_tests st);
           total_latency := (total_latency st + lat)%float;
           all_methods := all_methods st ∪ methods |}
      else st
  end.

(** [range(ping_count)]: the attempts that are made, those of index below
    the configured count, none when the count is not positive. *)
Definition attempts_made (config : ScanConfig) (world : nat -> attempt)
    : list attempt :=
  map world (seq 0 (Z.to_nat (cfg_ping_count config))).

Definition initial_worker_state (srv prov : string) (created : Z) : worker_state :=
  {| result := new_DNSResult srv prov created;
     successful_tests := 0;
     total_latency := 0%float;
     all_methods := ∅ |}.

Definition run_attempts (config : ScanConfig) (srv prov : string) (created : Z)
    (world : nat -> attempt) : worker_state :=
  fold_left attempt_step (attempts_made config world)
            (initial_worker_state srv prov created).

(** ["/".join(sorted(m.display_name for m in all_methods))]. *)
Definition method_names (methods : gset TestMethod) : string :=
  String.concat "/" (py_sort String.ltb (map display_name (elements methods))).

(** The statements after the loop, up to the two assignments to [result]. *)
Definition finish (config : ScanConfig) (st : worker_state) : DNSResult :=
  let r := result st in
  if (0 <? successful_tests st)%nat then
    {| server := server r;
       provider := provider r;
       latency := latency r;
       avg_latency := (total_latency st / PyFloat.of_nat (successful_tests st))%float;
       status := "OK (" ++ method_names (all_methods st) ++ ") - "
                   ++ pretty (successful_tests st) ++ "/"
                   ++ pretty (cfg_ping_count config);
       last_updated := last_updated r;
       ping_count := ping_count r;
       successful_methods := successful_methods r |}
  else
    {| server := server r;
       provider := provider r;
       latency := latency r;
       avg_latency := avg_latency r;
       status := "Failed - 0/" ++ pretty (cfg_ping_count config);
       last_updated := last_updated r;
       ping_count := ping_count r;
       successful_methods := successful_methods r |}.

(** The record the worker stores under [server], and whether it counts the
    server as successful. *)
Definition _scan_server_multiple (config : ScanConfig) (srv prov : string)
    (created : Z) (world : nat -> attempt) : DNSResult * bool :=
  let st := run_attempts config srv prov created world in
  (finish config st, (0 <? successful_tests st)%nat).

End Worker.

(** One attempt made of the three probes: what [_measure_server_latency]
    returns when its tasks are the probes above. *)
Record probe_world : Type := mkProbeWorld {
  pw_dns : dns_world;
  pw_socket : socket_world;
  pw_ping : ping_world
}.

Definition measure_with_probes (config : ScanConfig) (HAS_DNSPYTHON nt : bool)
    (w : probe_world) : float * gset TestMethod :=
  _measure_server_latency config HAS_DNSPYTHON
    (_measure_dns_query_latency config HAS_DNSPYTHON (pw_dns w))
    (_measure_socket_latency config (pw_socket w))
    (_measure_ping_latency config nt (pw_ping w)).

(** ** The results dictionary and the live display *)

Section Dict.
Context {V : Type}.

(** [d[k] = v]: an existing key keeps its place, a new key goes last. *)
Fixpoint dict_set (k : string) (v : V) (d : list (string * V)) : list (string * V) :=
  match d with
  | [] => [(k, v)]
  | (k', v') :: t =>
      if String.eqb k k' then (k, v) :: t else (k', v') :: dict_set k v t
  end.

Definition dict_keys (d : list (string * V)) : list string := map fst d.

(** [d.values()]. *)
Definition dict_values (d : list (string * V)) : list V := map snd d.

Fixpoint dict_get (k : string) (d : list (string * V)) : option V :=
  match d with
  | [] => None
  | (k', v) :: t => if String.eqb k k' then Some v else dict_get k t
  end.
End Dict.

(** The key of [sorted] in [_display_live_results]:
    [x.avg_latency if x.avg_latency != float("inf") else 999999]. *)
Definition live_sort_key (x : DNSResult) : float :=
  if PyFloat.neqb (avg_latency x) infinity then avg_latency x else 999999%float.

Definition sorted_results (results : list (string * DNSResult)) : list DNSResult :=
  py_sorted_by live_sort_key (dict_values results).

(** The rows of the live table: [sorted_results[:15]]. *)
Definition live_rows (results : list (string * DNSResult)) : list DNSResult :=
  firstn 15 (sorted_results results).

(** ** The scheduler: workers and the live reporter on one event loop

    [asyncio] runs one task at a time; the running task keeps the processor
    until it reaches an [await] that suspends.  The model below splits each
    task into the statements that touch the shared state and marks where a
    task is suspended: at [async with semaphore] when no slot is free, at
    the awaits of the attempt loop ([asyncio.gather] over the probes and the
    pause between two attempts, which always hand the processor back), at
    [async with self._lock] when the lock is taken, and in the reporter's
    [asyncio.sleep].  An [asyncio.Lock] or [Semaphore] that is free is
    acquired without suspending. *)

Module Sched.

Inductive task : Set := Reporter | Worker (i : nat).

#[global] Instance task_eq_dec : EqDecision task.
Proof. solve_decision. Defined.

(** Where a worker stands in [_scan_server_multiple]. *)
Inductive wpc : Set :=
| W_wait_slot   (* at [async with semaphore] *)
| W_probing (awaits : nat)
                (* inside the attempt loop, [awaits] suspensions from its end *)
| W_count       (* before [self._stats["successful"] += 1] or ["failed"] *)
| W_wait_lock   (* at [async with self._lock] *)
| W_store       (* before [self.results[server] = result] *)
| W_scanned     (* before [self._stats["scanned"] += 1] *)
| W_unlock      (* leaving the two [async with] blocks *)
| W_done.

(** Where the reporter stands in [_display_live_results]. *)
Inductive rpc : Set :=
| R_idle        (* top of the loop, or asleep *)
| R_wait_lock   (* at [async with self._lock] *)
| R_read        (* reading [_stats] and [results] *)
| R_unlock.     (* leaving the [async with] block *)

(** What a worker will store: its server, the record and the verdict that
    [_scan_server_multiple] computed from its attempts; and the number of
    times the attempt loop suspends it. *)
Record job : Type := mkJob {
  job_server : string;
  job_result : DNSResult;
  job_ok : bool;
  job_awaits : nat
}.

(** The suspensions of an attempt loop none of whose attempts raises:
    [await asyncio.gather] over the tasks, once in every attempt when some
    probe is enabled (with no task [_measure_server_latency] returns before it
    awaits), and [await asyncio.sleep(0.02)] after every attempt but the
    last. *)
Definition loop_awaits (config : ScanConfig) (HAS_DNSPYTHON : bool) : nat :=
  let attempts := Z.to_nat (cfg_ping_count config) in
  ((match gathered config HAS_DNSPYTHON None None None with
    | [] => 0
    | _ => attempts
    end) + (attempts - 1))%nat.

(** What the reporter reads while it holds the lock. *)
Record snapshot : Type := mkSnapshot {
  seen_scanned : nat;
  seen_successful : nat;
  seen_failed : nat;
  seen_results : list (string * DNSResult)
}.

Record state : Type := mkState {
  scanned : nat;
  successful : nat;
  failed : nat;
  results : list (string * DNSResult);
  lock : option task;
  slots : nat;
  current : option task;
  reporter : rpc;
  workers : list wpc;
  observed : list snapshot
}.

Definition init (max_workers : nat) (jobs : list job) : state :=
  {| scanned := 0; successful := 0; failed := 0; results := [];
     lock := None; slots := max_workers; current := None;
     reporter := R_idle; workers := map (fun _ => W_wait_slot) jobs;
     observed := [] |}.

(** The event loop hands the processor to a task, or the running task
    executes its next statement.  [suspends] tells whether the reporter,
    at the top of its loop, finds that the update interval has not passed
    and sleeps, which depends on the clock; where a worker suspends is
    fixed by the state and by its job. *)
Inductive event : Set := Pick (t : task) | Step (suspends : bool).

Definition set_worker (i : nat) (pc : wpc) (s : state) : state :=
  {| scanned := scanned s; successful := successful s; failed := failed s;
     results := results s; lock := lock s; slots := slots s;
     current := current s; reporter := reporter s;
     workers := <[ i := pc ]> (workers s); observed := observed s |}.

Definition set_reporter (pc : rpc) (s : state) : state :=
  {| scanned := scanned s; successful := successful s; failed := failed s;
     results := results s; lock := lock s; slots := slots s;
     current := current s; reporter := pc;
     workers := workers s; observed := observed s |}.

Definition suspend (s : state) : state :=
  {| scanned := scanned s; successful := successful s; failed := failed s;
     results := results s; lock := lock s; slots := slots s;
     current := None; reporter := reporter s;
     workers := workers s; observed := observed s |}.

Definition set_lock (l : option task) (s : state) : state :=
  {| scanned := scanned s; successful := successful s; failed := failed s;
     results := results s; lock := l; slots := slots s;
     current := current s; reporter := reporter s;
     workers := workers s; observed := observed s |}.

Definition set_slots (n : nat) (s : state) : state :=
  {| scanned := scanned s; successful := successful s; failed := failed s;
     results := results s; lock := lock s; slots := n;
     current := current s; reporter := reporter s;
     workers := workers s; observed := observed s |}.

(** The next statement of worker [i], standing at [pc] with job [j]. *)
Definition worker_step (i : nat) (j : job) (pc : wpc) (s : state)
    : option state :=
  match pc with
  | W_wait_slot =>
      match slots s with
      | O => Some (suspend s)
      | S n => Some (set_worker i (W_probing (job_awaits j)) (set_slots n s))
      end
  | W_probing (S awaits) => Some (suspend (set_worker i (W_probing awaits) s))
  | W_probing O => Some (set_worker i W_count s)
  | W_count =>
      Some (set_worker i W_wait_lock
              {| scanned := scanned s;
                 successful := if job_ok j then S (successful s) else successful s;
                 failed := if job_ok j then failed s else S (failed s);
                 results := results s; lock := lock s; slots := slots s;
                 current := current s; reporter := reporter s;
                 workers := workers s; observed := observed s |})
  | W_wait_lock =>
      match lock s with
      | None => Some (set_worker i W_store (set_lock (Some (Worker i)) s))
      | Some _ => Some (suspend s)
      end
  | W_store =>
      Some (set_worker i W_scanned
              {| scanned := scanned s; successful := successful s;
                 failed := failed s;
                 results := dict_set (job_server j) (job_result j) (results s);
                 lock := lock s; slots := slots s;
                 current := current s; reporter := reporter s;
                 workers := workers s; observed := observed s |})
  | W_scanned =>
      Some (set_worker i W_unlock
              {| scanned := S (scanned s); successful := successful s;
                 failed := failed s; results := results s;
                 lock := lock s; slots := slots s;
                 current := current s; reporter := reporter s;
                 workers := workers s; observed := observed s |})
  | W_unlock =>
      Some (suspend (set_worker i W_done
                       (set_slots (S (slots s)) (set_lock None s))))
  | W_done => None
  end.

(** The next statement of the reporter. *)
Definition reporter_step (pc : rpc) (suspends : bool) (s : state) : option state :=
  match pc with
  | R_idle =>
      if suspends then Some (suspend s) else Some (set_reporter R_wait_lock s)
  | R_wait_lock =>
      match lock s with
      | None => Some (set_reporter R_read (set_lock (Some Reporter) s))
      | Some _ => Some (suspend s)
      end
  | R_read =>
      Some (set_reporter R_unlock
              {| scanned := scanned s; successful := successful s;
                 failed := failed s; results := results s;
                 lock := lock s; slots := slots s;
                 current := current s; reporter := reporter s;
                 workers := workers s;
                 observed := mkSnapshot (scanned s) (successful s) (failed s)
                                        (results s) :: observed s |})
  | R_unlock => Some (set_reporter R_idle (set_lock None s))
  end.

(** A task can be given the processor when it exists and has not finished. *)
Definition alive (s : state) (t : task) : bool :=
  match t with
  | Reporter => true
  | Worker i =>
      match workers s !! i with
      | Some W_done | None => false
      | Some _ => true
      end
  end.

Definition step (jobs : list job) (s : state) (e : event) : option state :=
  match e, current s with
  | Pick t, None =>
      if alive s t then
        Some {| scanned := scanned s; successful := successful s;
                failed := failed s; results := results s; lock := lock s;
                slots := slots s; current := Some t; reporter := reporter s;
                workers := workers s; observed := observed s |}
      else None
  | Pick _, Some _ => None
  | Step _, None => None
  | Step b, Some Reporter => reporter_step (reporter s) b s
  | Step _, Some (Worker i) =>
      match jobs !! i, workers s !! i with
      | Some j, Some pc => worker_step i j pc s
      | _, _ => None
      end
  end.

Fixpoint run (jobs : list job) (s : state) (es : list event) : option state :=
  match es with
  | [] => Some s
  | e :: es' =>
      match step jobs s e with
      | Some s' => run jobs s' es'
      | None => None
      end
  end.

(** The states of a scan of [jobs] with [max_workers] slots. *)
Definition reachable (max_workers : nat) (jobs : list job) (s : state) : Prop :=
  exists es, run jobs (init max_workers jobs) es = Some s.

(** Worker [i] is given the processor and executes [n] statements. *)
Definition worker_runs (i n : nat) : list event :=
  Pick (Worker i) :: repeat (Step false) n.

(** A worker whose attempt loop suspends once: it takes a slot and is
    suspended in its attempt; when it is resumed it leaves the loop,
    counts, stores its record under the lock and ends. *)
Definition worker_starts (i : nat) : list event := worker_runs i 2.
Definition worker_finishes (i : nat) : list event := worker_runs i 6.

(** The reporter wakes up, reads under the lock and goes back to sleep. *)
Definition one_report : list event :=
  [Pick Reporter; Step false; Step false; Step false; Step false; Step true].

End Sched.

(** ** [IP_REGEX] and [is_valid_ip]

    The fragment of Python's [re] syntax that [IP_REGEX] is written in, and a
    backtracking matcher for it: alternatives are tried left to right, [?] is
    greedy, and the continuation [k] receives what is left of the subject. *)

Module Re.

Inductive regex : Set :=
| Lit (c : ascii)                (* a literal character, as in [\.] *)
| Class (lo hi : ascii)          (* a range, as in [[0-5]] *)
| Class2 (c1 c2 : ascii)         (* a set of two characters, as in [[01]] *)
| Seq (r1 r2 : regex)
| Alt (r1 r2 : regex)            (* [r1|r2] *)
| Opt (r : regex)                (* [r?] *)
| Bol                            (* [^] *)
| Eol.                           (* [$] *)

(** The position in the subject: whether it is the start of the subject,
    and the characters from it onwards. *)
Definition pos : Type := (bool * string)%type.

Definition in_range (lo hi c : ascii) : bool :=
  ((nat_of_ascii lo <=? nat_of_ascii c) && (nat_of_ascii c <=? nat_of_ascii hi))%nat.

(** [$] without [re.MULTILINE]: the end of the subject, or just before a
    newline that ends it. *)
Definition at_end (rest : string) : bool :=
  match rest with
  | EmptyString => true
  | String c EmptyString => Ascii.eqb c "010"%char
  | _ => false
  end.

Fixpoint matches (r : regex) (p : pos) (k : pos -> bool) : bool :=
  match r with
  | Lit c =>
      match snd p with
      | String c' rest => Ascii.eqb c c' && k (false, rest)
      | EmptyString => false
      end
  | Class lo hi =>
      match snd p with
      | String c' rest => in_range lo hi c' && k (false, rest)
      | EmptyString => false
      end
  | Class2 c1 c2 =>
      match snd p with
      | String c' rest => (Ascii.eqb c1 c' || Ascii.eqb c2 c') && k (false, rest)
      | EmptyString => false
      end
  | Seq r1 r2 => matches r1 p (fun p' => matches r2 p' k)
  | Alt r1 r2 => matches r1 p k || matches r2 p k
  | Opt r' => matches r' p k || k p
  | Bol => fst p && k p
  | Eol => at_end (snd p) && k p
  end.

(** [bool(pattern.match(subject))]: a match that starts at the beginning of
    the subject and may end anywhere. *)
Definition py_match (pattern : regex) (subject : string) : bool :=
  matches pattern (true, subject) (fun _ => true).

(** [r{3}]. *)
Definition times3 (r : regex) : regex := Seq r (Seq r r).

(** The strings that a pattern without anchors matches from their first to
    their last character. *)
Fixpoint lang (r : regex) (s : string) : Prop :=
  match r with
  | Lit c => s = String c EmptyString
  | Class lo hi => exists c, s = String c EmptyString /\ in_range lo hi c = true
  | Class2 c1 c2 => s = String c1 EmptyString \/ s = String c2 EmptyString
  | Seq r1 r2 => exists s1 s2, s = (s1 ++ s2)%string /\ lang r1 s1 /\ lang r2 s2
  | Alt r1 r2 => lang r1 s \/ lang r2 s
  | Opt r' => s = EmptyString \/ lang r' s
  | Bol | Eol => False
  end.

Fixpoint anchor_free (r : regex) : bool :=
  match r with
  | Lit _ | Class _ _ | Class2 _ _ => true
  | Seq r1 r2 | Alt r1 r2 => anchor_free r1 && anchor_free r2
  | Opt r' => anchor_free r'
  | Bol | Eol => false
  end.

(** A continuation that does not look at the start-of-subject flag. *)
Definition flag_blind (k : pos -> bool) : Prop :=
  forall b s, k (b, s) = k (false, s).

End Re.

(** [(?:25[0-5]|2[0-4][0-9]|[01]?[0-9][0-9]?)]. *)
Definition OCTET : Re.regex :=
  Re.Alt (Re.Seq (Re.Lit "2") (Re.Seq (Re.Lit "5") (Re.Class "0" "5")))
    (Re.Alt (Re.Seq (Re.Lit "2") (Re.Seq (Re.Class "0" "4") (Re.Class "0" "9")))
       (Re.Seq (Re.Opt (Re.Class2 "0" "1"))
          (Re.Seq (Re.Class "0" "9") (Re.Opt (Re.Class "0" "9"))))).

(** [^(?:OCTET\.){3}OCTET$]. *)
Definition IP_REGEX : Re.regex :=
  Re.Seq Re.Bol
    (Re.Seq (Re.times3 (Re.Seq OCTET (Re.Lit ".")))
       (Re.Seq OCTET Re.Eol)).

(** [DNSLatencyScanner.is_valid_ip]. *)
Definition is_valid_ip (ip : string) : bool := Re.py_match IP_REGEX ip.

(** The dotted-quad grammar in the words of the specification: a group is one
    to three decimal digits that denote a number of at most 255. *)
Definition all_digits (s : string) : bool :=
  forallb PyStr.is_digit (list_ascii_of_string s).

Definition octet (s : string) : Prop :=
  (1 <= String.length s <= 3)%nat
  /\ all_digits s = true
  /\ exists n, PyStr.digits_value 0 s = Some n /\ (0 <= n <= 255)%Z.

(** The characters a dotted quad is made of. *)
Definition quad_char (c : ascii) : bool := PyStr.is_digit c || Ascii.eqb c ".".

Definition dotted_quad (s : string) : Prop :=
  exists a b c d,
    octet a /\ octet b /\ octet c /\ octet d
    /\ s = (a ++ "." ++ b ++ "." ++ c ++ "." ++ d)%string.

(** ** Definitions used to state the properties *)

#[local] Open Scope float_scope.

(** The order of two finite binary64 numbers of the same sign, as
    [SpecFloat.SFcompare] decides it: exponent first, then mantissa. *)
Definition cmp_mag (e1 : Z) (m1 : positive) (e2 : Z) (m2 : positive) : comparison :=
  match Z.compare e1 e2 with
  | Lt => Lt
  | Gt => Gt
  | Eq => Pos.compare m1 m2
  end.

(** Ascending order of floats. *)
Definition float_le (x y : float) : Prop := PrimFloat.leb x y = true.

(** A latency that [update_latency] accepts: [new_latency != float("inf") and
    new_latency > 0]. *)
Definition accepted (l : float) : bool :=
  PyFloat.neqb l infinity && PyFloat.gtb l 0.

(** The invariant of the data model on one record: the average is the
    [+inf] sentinel exactly when no attempt has succeeded. *)
Definition sentinel_invariant (r : DNSResult) : bool :=
  Bool.eqb (avg_latency r =? infinity) (ping_count r =? 0)%nat.

(** The records a sequence of calls of [update_latency] goes through. *)
Fixpoint records_after (r : DNSResult) (ups : list (float * TestMethod * Z))
    : list DNSResult :=
  match ups with
  | [] => []
  | (l, m, now) :: rest =>
      let r' := update_latency r l m now in
      r' :: records_after r' rest
  end.

(** The weighted running average in the words of the specification: [count]
    successes so far and their [average]; the next success counts as number
    [count + 1], has weight [w = min(count + 1, 10)], and is the first one
    when [count] is zero. *)
Fixpoint weighted_averages (count : nat) (average : float) (ls : list float)
    : list float :=
  match ls with
  | [] => []
  | l :: rest =>
      let w := Nat.min (S count) 10 in
      let average' :=
        if (count =? 0)%nat then l
        else ((average * PyFloat.of_nat (w - 1)) + l) / PyFloat.of_nat w in
      average' :: weighted_averages (S count) average' rest
  end.

(** Three latencies that [update_latency] accepts, with two it ignores
    between them. *)
Definition three_of_five : list (float * TestMethod * Z) :=
  [(10, DNS_QUERY, 1%Z); (0, PING, 2%Z); (20, DNS_QUERY, 3%Z);
   (infinity, PING, 4%Z); (30, DNS_QUERY, 5%Z)].

(** The largest binary64 number. *)
Definition max_float : float := 0x1.fffffffffffffp+1023.

(** The values one attempt collects, in the words of the specification: the
    results of the enabled methods that are a number other than [+inf]. *)
Definition collected_values (rs : list (option float * TestMethod)) : list float :=
  flat_map (fun '(result, _) =>
              match result with
              | Some v => if PyFloat.neqb v infinity then [v] else []
              | None => []
              end) rs.

(** The methods whose result was collected. *)
Definition collected_methods (rs : list (option float * TestMethod)) : gset TestMethod :=
  list_to_set
    (flat_map (fun '(result, method) =>
                 match result with
                 | Some v => if PyFloat.neqb v infinity then [method] else []
                 | None => []
                 end) rs).

Definition all_enabled : ScanConfig := mkScanConfig 50 4 1 32 0.5 true true true.

(** The output of a ping of Linux whose summary reports a round trip of
    6000 ms. *)
Definition posix_ping_6000 : ping_world :=
  mkPingWorld false 0
    ("1 packets transmitted, 1 received, 0% packet loss, time 0ms" ++ newline
     ++ "rtt min/avg/max/mdev = 6000.000/6000.000/6000.000/0.000 ms" ++ newline)%string.

(** The successful attempts in the words of the specification: those that
    returned a finite latency (with the methods that produced it). *)
Definition succeeded (a : attempt) : option (float * gset TestMethod) :=
  match measured a with
  | Some (lat, methods) =>
      if PyFloat.neqb lat infinity && negb (bool_decide (methods = ∅))
      then Some (lat, methods) else None
  | None => None
  end.

Fixpoint successes (attempts : list attempt) : list (float * gset TestMethod) :=
  match attempts with
  | [] => []
  | a :: rest =>
      match succeeded a with
      | Some won => won :: successes rest
      | None => successes rest
      end
  end.

(** The sum of the latencies, added in the order of the attempts to [0.0]. *)
Definition latency_sum (ls : list float) : float :=
  fold_left (fun acc l => acc + l) ls 0.

(** The attempts of one run in the words of the specification: attempt 1 to
    attempt [P], in this order; [world] numbers them from 0. *)
Fixpoint attempts_1_to (P : nat) (world : nat -> attempt) : list attempt :=
  match P with
  | O => []
  | S n => attempts_1_to n world ++ [world n]
  end.

(** The display names of a set of methods in alphabetical order. *)
Definition alphabetical_names (methods : gset TestMethod) : list string :=
  map display_name
      (List.filter (fun m => bool_decide (m ∈ methods)) [DNS_QUERY; PING; SOCKET_CONNECT]).

(** One order in which a set may yield its elements. *)
Definition first_element (s : gset TestMethod) : TestMethod :=
  default PING (head (elements s)).

(** The attempts of the test [test_scan_server_multiple_partial_success]. *)
Definition partial_success (i : nat) : attempt :=
  match i with
  | 0%nat => mkAttempt (Some (15, {[ DNS_QUERY ]})) 1
  | 1%nat => mkAttempt (Some (infinity, ∅)) 2
  | _ => mkAttempt (Some (20, {[ DNS_QUERY ]})) 3
  end.

Definition three_pings : ScanConfig := mkScanConfig 50 3 1 32 0.5 true true true.
Definition one_ping : ScanConfig := mkScanConfig 50 1 1 32 0.5 true true true.
Definition ping_only : ScanConfig := mkScanConfig 50 1 1 32 0.5 true false false.

(** A Windows ping of a server on the local network: the round trip takes
    less than a millisecond and the summary reports [Average = 0ms]. *)
Definition windows_ping_0ms : ping_world :=
  mkPingWorld false 0
    ("Reply from 192.168.1.1: bytes=32 time<1ms TTL=64" ++ newline
     ++ "    Minimum = 0ms, Maximum = 0ms, Average = 0ms" ++ newline)%string.

Definition lan_probe_world : probe_world :=
  mkProbeWorld (mkDnsWorld true false 0 0) (mkSocketWorld true 0 0) windows_ping_0ms.

(** An attempt in which the resolution query took 15 ms and the connection
    20 ms, and the echo probe failed. *)
Definition dns_and_socket : attempt :=
  mkAttempt (Some (_measure_server_latency all_enabled true (Some 15) (Some 20) None)) 1.

Definition lan_attempt : attempt :=
  mkAttempt (Some (measure_with_probes ping_only false true lan_probe_world)) 1.

Definition failed_record : DNSResult :=
  {| server := "10.0.0.1"; provider := "Down"; latency := infinity;
     avg_latency := infinity; status := "Failed - 0/4"; last_updated := 0;
     ping_count := 0; successful_methods := ∅ |}.

(** Ascending order of the sort key. *)
Definition key_le (a b : DNSResult) : Prop :=
  float_le (live_sort_key a) (live_sort_key b).

(** A ping of Linux whose summary reports a round trip of 1000000 ms, and
    one that got no reply. *)
Definition posix_ping_1000000 : ping_world :=
  mkPingWorld false 0
    ("1 packets transmitted, 1 received, 0% packet loss, time 0ms" ++ newline
     ++ "rtt min/avg/max/mdev = 1000000.000/1000000.000/1000000.000/0.000 ms"
     ++ newline)%string.

Definition posix_ping_no_reply : ping_world :=
  mkPingWorld false 1
    ("1 packets transmitted, 0 received, 100% packet loss, time 0ms" ++ newline)%string.

(** The one attempt of a scan with the echo probe only, for each of the two. *)
Definition slow_attempt : attempt :=
  mkAttempt (Some (measure_with_probes ping_only false false
                     (mkProbeWorld (mkDnsWorld true false 0 0) (mkSocketWorld true 0 0)
                                   posix_ping_1000000))) 1.

Definition no_reply_attempt : attempt :=
  mkAttempt (Some (measure_with_probes ping_only false false
                     (mkProbeWorld (mkDnsWorld true false 0 0) (mkSocketWorld true 0 0)
                                   posix_ping_no_reply))) 1.

(** The three shapes of a decimal group. *)
Definition group_shape (s : string) : Prop :=
  (exists c1, s = String c1 "" /\ PyStr.is_digit c1 = true)
  \/ (exists c1 c2, s = String c1 (String c2 "")
                    /\ PyStr.is_digit c1 = true /\ PyStr.is_digit c2 = true)
  \/ (exists c1 c2 c3, s = String c1 (String c2 (String c3 ""))
                       /\ PyStr.is_digit c1 = true /\ PyStr.is_digit c2 = true
                       /\ PyStr.is_digit c3 = true
                       /\ (100 * PyStr.digit_value c1 + 10 * PyStr.digit_value c2
                           + PyStr.digit_value c3 <= 255)%Z).

(** ** What holds of the shared state between two statements *)

Module SchedInv.
Import Sched.
#[local] Open Scope nat_scope.

(** The jobs of the workers whose position satisfies [P]. *)
Fixpoint select (P : job -> wpc -> bool) (jobs : list job) (ws : list wpc) : list job :=
  match jobs, ws with
  | j :: jobs', pc :: ws' =>
      if P j pc then j :: select P jobs' ws' else select P jobs' ws'
  | _, _ => []
  end.

(** The worker has executed its [+= 1] on "successful" or "failed". *)
Definition counted (pc : wpc) : bool :=
  match pc with
  | W_wait_lock | W_store | W_scanned | W_unlock | W_done => true
  | _ => false
  end.

(** The worker has executed [self.results[server] = result]. *)
Definition stored (pc : wpc) : bool :=
  match pc with
  | W_scanned | W_unlock | W_done => true
  | _ => false
  end.

(** The worker has executed its [+= 1] on "scanned". *)
Definition tallied (pc : wpc) : bool :=
  match pc with
  | W_unlock | W_done => true
  | _ => false
  end.

(** The worker is inside [async with self._lock]. *)
Definition holding (pc : wpc) : bool :=
  match pc with
  | W_store | W_scanned | W_unlock => true
  | _ => false
  end.

(** Positions between which a worker is never suspended. *)
Definition running (pc : wpc) : bool :=
  match pc with
  | W_count | W_wait_lock | W_store | W_scanned | W_unlock => true
  | _ => false
  end.

(** The reporter is inside [async with self._lock]. *)
Definition reading (pc : rpc) : bool :=
  match pc with
  | R_read | R_unlock => true
  | _ => false
  end.

Definition reporting (pc : rpc) : bool :=
  match pc with
  | R_idle => false
  | _ => true
  end.

(** The task that is inside [async with self._lock], if any. *)
Definition holder (s : state) : option task :=
  match current s with
  | Some (Worker i) =>
      match workers s !! i with
      | Some pc => if holding pc then Some (Worker i) else None
      | None => None
      end
  | Some Reporter => if reading (reporter s) then Some Reporter else None
  | None => None
  end.

(** What a reader may rely on. *)
Definition consistent (jobs : list job) (snap : snapshot) : Prop :=
  seen_successful snap + seen_failed snap = seen_scanned snap
  /\ length (seen_results snap) <= seen_scanned snap
  /\ (NoDup (map job_server jobs) -> length (seen_results snap) = seen_scanned snap).

Record invariant (jobs : list job) (s : state) : Prop := mkInvariant {
  inv_workers : length (workers s) = length jobs;
  inv_successful :
    successful s
    = length (select (fun j pc => counted pc && job_ok j) jobs (workers s));
  inv_failed :
    failed s
    = length (select (fun j pc => counted pc && negb (job_ok j)) jobs (workers s));
  inv_scanned :
    scanned s = length (select (fun _ pc => tallied pc) jobs (workers s));
  inv_running :
    forall i pc, workers s !! i = Some pc -> running pc = true ->
                 current s = Some (Worker i);
  inv_reporter : reporting (reporter s) = true -> current s = Some Reporter;
  inv_lock : lock s = holder s;
  inv_keys :
    forall k, In k (dict_keys (results s))
              <-> In k (map job_server (select (fun _ pc => stored pc) jobs (workers s)));
  inv_nodup : NoDup (dict_keys (results s));
  inv_observed : Forall (consistent jobs) (observed s)
}.
End SchedInv.

(** Two workers, the reporter, and two servers listed twice; one attempt
    for each server with every probe enabled, so that each worker is
    suspended once, in [asyncio.gather]. *)
Definition example_record (server : string) : DNSResult :=
  new_DNSResult server "Google" 0.

Definition two_jobs : list Sched.job :=
  [Sched.mkJob "8.8.8.8" (example_record "8.8.8.8") true
     (Sched.loop_awaits one_ping true);
   Sched.mkJob "1.1.1.1" (example_record "1.1.1.1") false
     (Sched.loop_awaits one_ping true)].

Definition same_server_twice : list Sched.job :=
  [Sched.mkJob "8.8.8.8" (example_record "8.8.8.8") true
     (Sched.loop_awaits one_ping true);
   Sched.mkJob "8.8.8.8" (example_record "8.8.8.8") true
     (Sched.loop_awaits one_ping true)].

(** Both workers start their attempt; each is resumed and runs to its end,
    followed by a report. *)
Definition scans_and_reports : list Sched.event :=
  Sched.worker_starts 0 ++ Sched.worker_starts 1
  ++ Sched.worker_finishes 0 ++ Sched.one_report
  ++ Sched.worker_finishes 1 ++ Sched.one_report.

(** Both workers start their attempt and run to their end, and the reporter
    reads once. *)
Definition scans_then_report : list Sched.event :=
  Sched.worker_starts 0 ++ Sched.worker_starts 1
  ++ Sched.worker_finishes 0 ++ Sched.worker_finishes 1 ++ Sched.one_report.

(** Worker 0 has passed its [self._stats["successful"] += 1] and stands at
    [async with self._lock]. *)
Definition counted_not_stored : list Sched.event :=
  Sched.worker_starts 0 ++ Sched.worker_runs 0 2.

(** The counters and the number of records of each report. *)
Definition report_summary (snap : Sched.snapshot) : nat * nat * nat :=
  (Sched.seen_scanned snap,
   (Sched.seen_successful snap + Sched.seen_failed snap)%nat,
   length (Sched.seen_results snap)).

(** The state after [scans_and_reports], and the report read last. *)
Definition after_scans : Sched.state :=
  default (Sched.init 2 two_jobs)
    (Sched.run two_jobs (Sched.init 2 two_jobs) scans_and_reports).

Definition last_report : Sched.snapshot :=
  default (Sched.mkSnapshot 0 0 0 []) (head (Sched.observed after_scans)).

Module SchedSlots.
Import Sched.

(** The worker is inside [async with semaphore]. *)
Definition inside (pc : wpc) : bool :=
  match pc with
  | W_wait_slot | W_done => false
  | _ => true
  end.

(** The workers that hold a slot of the semaphore. *)
Definition holders (jobs : list job) (s : state) : list job :=
  SchedInv.select (fun _ pc => inside pc) jobs (workers s).

(** Every worker has left [_scan_server_multiple]. *)
Definition all_done (s : state) : Prop :=
  Forall (fun pc => pc = W_done) (workers s).
End SchedSlots.

(** Worker 0 of [two_jobs] stands at [async with self._lock]. *)
Definition mid_scan : Sched.state :=
  default (Sched.init 2 two_jobs)
    (Sched.run two_jobs (Sched.init 2 two_jobs) counted_not_stored).

(** Worker 0 of [two_jobs] stands before its [+= 1] on "successful". *)
Definition not_yet_counted : list Sched.event :=
  Sched.worker_starts 0 ++ Sched.worker_runs 0 1.

Definition before_count : Sched.state :=
  default (Sched.init 2 two_jobs)
    (Sched.run two_jobs (Sched.init 2 two_jobs) not_yet_counted).

(** Both workers of [two_jobs] have started their attempt, have been
    resumed and have run to their end. *)
Definition both_scans : list Sched.event :=
  Sched.worker_starts 0 ++ Sched.worker_starts 1
  ++ Sched.worker_finishes 0 ++ Sched.worker_finishes 1.

Definition end_of_scan : Sched.state :=
  default (Sched.init 2 two_jobs)
    (Sched.run two_jobs (Sched.init 2 two_jobs) both_scans).

(** ** Loading the list of servers

    [load_dns_servers] reads the file through [_async_file_reader], which
    hands over the lines of [f.readlines()], each stripped.  The choice of
    the file (the given path, or the copy shipped with the package) is made
    before the [try] block and is the [dns_file_path] of the model. *)

Inductive exception_class : Set :=
| FileNotFoundError
| ConfigurationError
| OtherException.

(** An exception, and its text [str(exc)]. *)
Record exception : Type := mkException {
  exc_class : exception_class;
  exc_text : string
}.

(** What opening and reading the file did: the lines, each with its line
    end, or the exception raised. *)
Inductive read_outcome : Type :=
| ReadLines (lines : list string)
| ReadRaised (exc : exception).

(** [_async_file_reader]: the stripped lines, or a [ConfigurationError]. *)
Definition _async_file_reader (file_path : string) (w : read_outcome)
    : exception + list string :=
  match w with
  | ReadLines lines => inr (map PyStr.strip lines)
  | ReadRaised exc =>
      inl (mkException ConfigurationError
             ("Error reading file " ++ file_path ++ ": " ++ exc_text exc))
  end.

(** The body of the [async for] loop, over the lines still to come;
    [servers] and [providers] are the list and the dictionary as they stand,
    [break] ends the recursion. *)
Fixpoint load_lines (max_servers : Z) (lines : list string) (servers : list string)
    (providers : list (string * string)) (current_provider : string)
    : list string * list (string * string) :=
  match lines with
  | [] => (servers, providers)
  | line :: rest =>
      if String.eqb line "" || PyStr.startswith "//" line then
        load_lines max_servers rest servers providers current_provider
      else if PyStr.startswith "#" line then
        load_lines max_servers rest servers providers
          (PyStr.strip (PyStr.drop 1 line))
      else if is_valid_ip line then
        let servers' := servers ++ [line] in
        let providers' := dict_set line current_provider providers in
        if (Z.of_nat (length servers') >=? max_servers)%Z
        then (servers', providers')
        else load_lines max_servers rest servers' providers' current_provider
      else
        load_lines max_servers rest servers providers current_provider
  end.

(** [load_dns_servers]: the servers and the dictionary [self.providers]
    after the call, or the exception it raises. *)
Definition load_dns_servers (config : ScanConfig) (dns_file_path : string)
    (providers : list (string * string)) (w : read_outcome)
    : exception + (list string * list (string * string)) :=
  match _async_file_reader dns_file_path w with
  | inr lines =>
      inr (load_lines (max_servers config) lines [] providers "Unknown Provider")
  | inl exc =>
      match exc_class exc with
      | FileNotFoundError =>
          inl (mkException ConfigurationError
                 ("DNS servers file not found: " ++ dns_file_path))
      | _ =>
          inl (mkException ConfigurationError
                 ("Failed to load DNS servers: " ++ exc_text exc))
      end
  end.

(** [get_provider_name]: [self.providers.get(server, "Unknown Provider")]. *)
Definition get_provider_name (providers : list (string * string)) (server : string)
    : string :=
  match dict_get server providers with
  | Some provider => provider
  | None => "Unknown Provider"
  end.

(** The provider the loop holds after the stripped lines [before], when it
    held [current] at their start: the text of the last [#] line. *)
Definition provider_after (current : string) (before : list string) : string :=
  fold_left (fun cur line =>
               if PyStr.startswith "#" line
               then PyStr.strip (PyStr.drop 1 line)
               else cur)
            before current.

(** The provider named by the last [#] line among the lines [before] of the
    file; "Unknown Provider" when there is none. *)
Definition header_in_force (before : list string) : string :=
  provider_after "Unknown Provider" (map PyStr.strip before).

(** The number of servers the loop collects before it breaks. *)
Definition server_cap (config : ScanConfig) : nat :=
  Z.to_nat (Z.max 1 (max_servers config)).

(** The lines of a file that name servers. *)
Definition address_lines (lines : list string) : list string :=
  List.filter is_valid_ip (map PyStr.strip lines).

(** A small server file. *)
Definition example_file : list string :=
  [("// public resolvers" ++ newline)%string;
   ("# Google" ++ newline)%string;
   ("8.8.8.8" ++ newline)%string;
   (" 8.8.4.4 " ++ newline)%string;
   newline;
   ("#Cloudflare  " ++ newline)%string;
   ("1.1.1.1" ++ newline)%string;
   ("1.1.1.256" ++ newline)%string;
   "1.0.0.1"].

Definition default_config : ScanConfig :=
  mkScanConfig 50 4 1 32 0.5 true true true.

(** What [load_dns_servers] returns for [example_file], and the dictionary
    it leaves. *)
Definition example_servers : list string :=
  ["8.8.8.8"; "8.8.4.4"; "1.1.1.1"; "1.0.0.1"].

Definition example_providers : list (string * string) :=
  [("8.8.8.8", "Google"); ("8.8.4.4", "Google");
   ("1.1.1.1", "Cloudflare"); ("1.0.0.1", "Cloudflare")].

(** ** The arguments handed to the elevated process

    [PrivilegeManager._validate_arguments] filters the command line before
    it is passed to [sudo] or to [ShellExecuteW]. *)

(** [c.lower()] for the characters below 256: the letters A to Z and the
    capital letters of Latin-1. *)
Definition lower_char (c : ascii) : ascii :=
  let n := nat_of_ascii c in
  if ((65 <=? n) && (n <=? 90) || (192 <=? n) && (n <=? 214)
      || (216 <=? n) && (n <=? 222))%nat
  then ascii_of_nat (n + 32)
  else c.

(** [s.lower()]. *)
Fixpoint lower (s : string) : string :=
  match s with
  | EmptyString => EmptyString
  | String c s' => String (lower_char c) (lower s')
  end.

(** [s.endswith(suffix)]. *)
Definition endswith (suffix s : string) : bool :=
  PyStr.startswith (PyStr.rev_string suffix) (PyStr.rev_string s).

(** The patterns that make [_validate_arguments] drop an argument. *)
Definition DANGEROUS : list string :=
  ["&"; "|"; ";"; "`"; "$"; ">"; "<"; "*"; "?"; "["; "]"].

(** The options whose value is a number. *)
Definition NUMERIC_OPTIONS : list string :=
  ["-t"; "--timeout"; "-p"; "--pings"; "-m"; "--max-servers"; "-w"; "--workers"].

(** [any(dangerous in arg.lower() for dangerous in [...])]. *)
Definition is_dangerous (arg : string) : bool :=
  existsb (fun dangerous => PyStr.contains dangerous (lower arg)) DANGEROUS.

(** [x in l] for a list of strings. *)
Definition str_in (x : string) (l : list string) : bool := existsb (String.eqb x) l.

Section ValidateArguments.

(** Whether [float(arg)] returns; [false] stands for [ValueError]. *)
Variable float_accepts : string -> bool.

(** The [for] loop of [_validate_arguments] over the arguments still to
    come; [prev] is [args[i - 1]], absent when [i = 0]. *)
Fixpoint validate_loop (args : list string) (prev : option string)
    (skip_next : bool) (safe_args : list string) : list string :=
  match args with
  | [] => safe_args
  | arg :: rest =>
      if skip_next then validate_loop rest (Some arg) false safe_args
      else if is_dangerous arg then validate_loop rest (Some arg) skip_next safe_args
      else if PyStr.startswith "-" arg || endswith ".py" arg || endswith ".txt" arg
      then validate_loop rest (Some arg) skip_next (safe_args ++ [arg])
      else if match prev with
              | Some before => str_in before NUMERIC_OPTIONS
              | None => false
              end
      then
        if float_accepts arg
        then validate_loop rest (Some arg) skip_next (safe_args ++ [arg])
        else validate_loop rest (Some arg) skip_next safe_args
      else validate_loop rest (Some arg) skip_next safe_args
  end.

Definition _validate_arguments (args : list string) : list string :=
  validate_loop args None false [].

(** [_create_elevated_command_unix], with [sys.executable] as a parameter. *)
Definition _create_elevated_command_unix (executable : string)
    (original_args : list string) : list string :=
  let safe_args := _validate_arguments original_args in
  let safe_args :=
    if negb (str_in "--elevated" safe_args)
    then safe_args ++ ["--elevated"]
    else safe_args in
  ["sudo"; executable] ++ safe_args.

(** Whether the loop keeps [arg], which follows [prev]. *)
Definition kept (prev : option string) (arg : string) : bool :=
  negb (is_dangerous arg)
  && (PyStr.startswith "-" arg || endswith ".py" arg || endswith ".txt" arg
      || match prev with
         | Some before => str_in before NUMERIC_OPTIONS
         | None => false
         end && float_accepts arg).

(** The arguments kept, each judged with the argument before it. *)
Fixpoint kept_arguments (prev : option string) (args : list string) : list string :=
  match args with
  | [] => []
  | arg :: rest =>
      if kept prev arg
      then arg :: kept_arguments (Some arg) rest
      else kept_arguments (Some arg) rest
  end.

End ValidateArguments.

(** A character that [_validate_arguments] looks for. *)
Definition dangerous_char (c : ascii) : bool :=
  str_in (String c EmptyString) DANGEROUS.

(** ** The final table

    [_display_final_results] sorts the records, prints the first
    [max_servers] rows and a summary. *)

(** [LatencyLevel], as the values its members compare as with a float. *)
Module LatencyLevel.
Definition EXCELLENT : float := 20.
Definition GOOD : float := 50.
Definition FAIR : float := 100.
Definition POOR : float := 200.
End LatencyLevel.

(** The key of [sorted] in [_display_final_results]:
    [(x.avg_latency if x.avg_latency != float("inf") else 999999.0,
      -len(x.successful_methods))]. *)
Definition final_sort_key (x : DNSResult) : float * Z :=
  (if PyFloat.neqb (avg_latency x) infinity then avg_latency x else 999999,
   (- Z.of_nat (size (successful_methods x)))%Z).

(** [a < b] for two such tuples: the first components decide unless they
    are equal. *)
Definition tuple_lt (a b : float * Z) : bool :=
  if (fst a =? fst b) then (snd a <? snd b)%Z else (fst a <? fst b).

Definition final_sorted_results (results : list (string * DNSResult)) : list DNSResult :=
  py_sort (fun a b => tuple_lt (final_sort_key a) (final_sort_key b))
          (dict_values results).

(** [l[:n]] for an [int] [n]: a negative [n] counts from the end. *)
Definition slice_to {A : Type} (n : Z) (l : list A) : list A :=
  if (0 <=? n)%Z then firstn (Z.to_nat n) l
  else firstn (length l - Z.to_nat (- n)) l.

(** The rows of the final table: [sorted_results[: self.config.max_servers]]. *)
Definition final_rows (config : ScanConfig) (results : list (string * DNSResult))
    : list DNSResult :=
  slice_to (max_servers config) (final_sorted_results results).

(** The number of rows that a table of [n] records shows when the limit is
    [m]: the first [m] of them, none for [m = 0], and all but the last [-m]
    for a negative [m]. *)
Definition rows_shown (m : Z) (n : nat) : nat :=
  if (0 <=? m)%Z then Nat.min (Z.to_nat m) n else n - Z.to_nat (- m).

(** A table limited to two rows, and one limited to none. *)
Definition two_rows : ScanConfig := mkScanConfig 2 4 1 32 0.5 true true true.
Definition no_rows : ScanConfig := mkScanConfig 0 4 1 32 0.5 true true true.

(** [sum(1 for r in l if p(r))]. *)
Definition count_if {A : Type} (p : A -> bool) (l : list A) : nat :=
  length (List.filter p l).

(** [successful_count] after the loop over the rows. *)
Definition successful_count (config : ScanConfig) (results : list (string * DNSResult))
    : nat :=
  count_if (fun r => PyFloat.neqb (avg_latency r) infinity) (final_rows config results).

(** The four performance categories of the summary. *)
Definition excellent (results : list (string * DNSResult)) : nat :=
  count_if (fun r => avg_latency r <? LatencyLevel.EXCELLENT)
           (final_sorted_results results).

Definition good (results : list (string * DNSResult)) : nat :=
  count_if (fun r => (LatencyLevel.EXCELLENT <=? avg_latency r)
                     && (avg_latency r <? LatencyLevel.GOOD))
           (final_sorted_results results).

Definition fair (results : list (string * DNSResult)) : nat :=
  count_if (fun r => (LatencyLevel.GOOD <=? avg_latency r)
                     && (avg_latency r <? LatencyLevel.FAIR))
           (final_sorted_results results).

Definition poor (results : list (string * DNSResult)) : nat :=
  count_if (fun r => (LatencyLevel.FAIR <=? avg_latency r)
                     && (avg_latency r <? infinity))
           (final_sorted_results results).

(** [best_result = sorted_results[0]]. *)
Definition best_result (results : list (string * DNSResult)) : option DNSResult :=
  nth_error (final_sorted_results results) 0.

(** Ascending order of the tuples. *)
Definition tuple_le (a b : float * Z) : Prop :=
  (fst a <? fst b) = true \/ ((fst a =? fst b) = true /\ (snd a <= snd b)%Z).

Definition final_key_le (a b : DNSResult) : Prop :=
  tuple_le (final_sort_key a) (final_sort_key b).

(** Three records: two with the same average, one failed. *)
Definition record_of (srv : string) (avg : float) (methods : gset TestMethod) : DNSResult :=
  {| server := srv; provider := "Example"; latency := avg; avg_latency := avg;
     status := "OK"; last_updated := 0; ping_count := 1; successful_methods := methods |}.

Definition one_method : DNSResult := record_of "9.9.9.9" 15 {[ PING ]}.
Definition two_methods : DNSResult := record_of "8.8.8.8" 15 {[ DNS_QUERY; PING ]}.
Definition no_answer : DNSResult := record_of "10.0.0.1" infinity ∅.

Definition example_results : list (string * DNSResult) :=
  [("10.0.0.1", no_answer); ("9.9.9.9", one_method); ("8.8.8.8", two_methods)].

(** The successful attempts that [update_latency] counts: those with a
    latency above zero. *)
Definition counted_successes (won : list (float * gset TestMethod))
    : list (float * gset TestMethod) :=
  List.filter (fun w => PyFloat.gtb (fst w) 0) won.

(** The record of a server none of whose attempts succeeded. *)
Definition failed_result (config : ScanConfig) (srv prov : string) (created : Z)
    : DNSResult :=
  {| server := srv; provider := prov; latency := infinity; avg_latency := infinity;
     status := "Failed - 0/" ++ pretty (cfg_ping_count config);
     last_updated := created; ping_count := 0; successful_methods := ∅ |}.

(** A configuration that asks for no attempt. *)
Definition no_attempts : ScanConfig := mkScanConfig 50 0 1 32 0.5 true true true.

(** ** Choosing the servers to configure *)

(** [[r for r in sorted_results if r.avg_latency != float("inf")]]. *)
Definition valid_results (sorted_results : list DNSResult) : list DNSResult :=
  List.filter (fun r => PyFloat.neqb (avg_latency r) infinity) sorted_results.

(** [_handle_dns_selection] once [int(choice)] has returned [rank]: the
    record handed to [_configure_system_dns], or [None] for "Invalid
    selection". *)
Definition selected_result (rank : Z) (sorted_results : list DNSResult)
    : option DNSResult :=
  let valid := valid_results sorted_results in
  if ((1 <=? rank) && (rank <=? Z.of_nat (length valid)))%Z
  then nth_error valid (Z.to_nat (rank - 1))
  else None.

(** The test of the loop that looks for a secondary server. *)
Definition secondary_candidate (selected result : DNSResult) : bool :=
  negb (String.eqb (server result) (server selected))
  && String.eqb (provider result) (provider selected)
  && PyFloat.neqb (avg_latency result) infinity.

(** [secondary_dns] in [_configure_system_dns]. *)
Definition secondary_dns (selected : DNSResult) (all_results : list DNSResult)
    : option string :=
  match List.find (secondary_candidate selected) all_results with
  | Some result => Some (server result)
  | None => None
  end.

(** Every average other than [+inf] is below the value that stands for
    [+inf] in the sort key. *)
Definition below_sentinel (x : DNSResult) : Prop :=
  avg_latency x = infinity \/ (avg_latency x <? 999999) = true.

(** Four records of two providers. *)
Definition provider_record (srv prov : string) (avg : float) : DNSResult :=
  {| server := srv; provider := prov; latency := avg; avg_latency := avg;
     status := "OK"; last_updated := 0; ping_count := 1;
     successful_methods := {[ PING ]} |}.

Definition provider_results : list (string * DNSResult) :=
  [("8.8.4.4", provider_record "8.8.4.4" "Google" 30);
   ("1.1.1.1", provider_record "1.1.1.1" "Cloudflare" 12);
   ("10.0.0.1", provider_record "10.0.0.1" "Google" infinity);
   ("8.8.8.8", provider_record "8.8.8.8" "Google" 18)].

(** ** [main]: from the command line to the configuration *)

(** The attributes of [args] after [parser.parse_args()]. *)
Record cli_args : Type := mkCliArgs {
  arg_pings : Z;
  arg_max_servers : Z;
  arg_timeout : float;
  arg_workers : Z;
  arg_update_interval : float;
  arg_no_dns : bool;
  arg_no_socket : bool;
  arg_no_ping : bool
}.

(** [args.workers] after "Determine optimal worker count"; [cpu_count] is
    what [os.cpu_count()] returned, [None] or an [int]. *)
Definition worker_count (args : cli_args) (cpu_count : option Z) : Z :=
  if (arg_workers args <=? 0)%Z then
    let cpus := match cpu_count with
                | Some n => if (n =? 0)%Z then 1%Z else n
                | None => 1%Z
                end in
    Z.min 32 (Z.max 8 (cpus * 4))
  else arg_workers args.

(** The configuration [main] hands to the scanner; [None] stands for
    [sys.exit(1)] after "At least one test method must be enabled". *)
Definition main_config (args : cli_args) (HAS_DNSPYTHON : bool) (cpu_count : option Z)
    : option ScanConfig :=
  let config :=
    {| max_servers := arg_max_servers args;
       cfg_ping_count := arg_pings args;
       timeout := arg_timeout args;
       max_workers := worker_count args cpu_count;
       update_interval := arg_update_interval args;
       enable_ping := negb (arg_no_ping args);
       enable_socket := negb (arg_no_socket args);
       enable_dns_query := negb (arg_no_dns args) && HAS_DNSPYTHON |} in
  if negb (enable_dns_query config || enable_socket config || enable_ping config)
  then None
  else Some config.

(** The command line [-w 0 --no-dns] and the defaults of the parser. *)
Definition example_cli : cli_args :=
  mkCliArgs 4 50 1 0 0.5 true false false.

(** What the echo probe reads from a ping of Linux. *)
Definition posix_ping_12 : ping_world :=
  mkPingWorld false 0
    ("64 bytes from 8.8.8.8: icmp_seq=1 ttl=117 time=12.3 ms" ++ newline
     ++ "rtt min/avg/max/mdev = 12.500/12.500/12.500/0.000 ms" ++ newline)%string.

(** ** Colours, icons and bars *)

(** The members of [Color] that stand for a latency. *)
Inductive Color : Set := GREEN | YELLOW | ORANGE | RED.

(** [_get_latency_color]. *)
Definition _get_latency_color (latency : float) : Color :=
  if latency <? LatencyLevel.EXCELLENT then GREEN
  else if latency <? LatencyLevel.GOOD then YELLOW
  else if latency <? LatencyLevel.FAIR then ORANGE
  else RED.

(** The icons of [_get_status_icon], by the fallback text of each. *)
Inductive status_icon : Set :=
| ICON_FAIL | ICON_EXC | ICON_GOOD | ICON_FAIR | ICON_POOR.

(** [_get_status_icon]; which of the emoji and its fallback text is shown
    is the choice of [safe_emoji]. *)
Definition _get_status_icon (latency : float) : status_icon :=
  if latency =? infinity then ICON_FAIL
  else if latency <? LatencyLevel.EXCELLENT then ICON_EXC
  else if latency <? LatencyLevel.GOOD then ICON_GOOD
  else if latency <? LatencyLevel.FAIR then ICON_FAIR
  else ICON_POOR.

(** [int(x)] for a float: the integer part, [None] for the [ValueError] on
    a NaN and the [OverflowError] on an infinity. *)
Definition py_int (x : float) : option Z :=
  match Prim2SF x with
  | S754_zero _ => Some 0%Z
  | S754_finite s m e =>
      let magnitude :=
        if (0 <=? e)%Z then (Zpos m * 2 ^ e)%Z else (Zpos m / 2 ^ (- e))%Z in
      Some (if s then (- magnitude)%Z else magnitude)
  | _ => None
  end.

(** What [_create_latency_bar] returns: the icon of a failure, or a bar of
    [filled] full cells and [blank] empty ones in a colour; [BarRaises]
    stands for [ZeroDivisionError], [ValueError] and [OverflowError]. *)
Inductive latency_bar : Set :=
| BarFail
| Bar (color : Color) (filled blank : nat)
| BarRaises.

(** [_create_latency_bar]; [s * n] is the empty string for a negative [n]. *)
Definition _create_latency_bar (latency max_latency : float) (width : nat)
    : latency_bar :=
  if latency =? infinity then BarFail
  else if max_latency =? 0 then BarRaises
  else
    match py_int ((latency / max_latency) * PyFloat.of_nat width) with
    | None => BarRaises
    | Some cells =>
        let filled := Z.min cells (Z.of_nat width) in
        let filled := Z.max 1 filled in
        Bar (_get_latency_color latency)
            (Z.to_nat filled) (Z.to_nat (Z.of_nat width - filled))
    end.

(** The colours from the best to the worst. *)
Definition color_rank (c : Color) : nat :=
  match c with
  | GREEN => 0
  | YELLOW => 1
  | ORANGE => 2
  | RED => 3
  end.

(** The colour that belongs to an icon. *)
Definition icon_color (i : status_icon) : Color :=
  match i with
  | ICON_EXC => GREEN
  | ICON_GOOD => YELLOW
  | ICON_FAIR => ORANGE
  | ICON_POOR | ICON_FAIL => RED
  end.

Module SchedProgress.
Import Sched.
#[local] Open Scope nat_scope.

(** The report [later] shows at least the progress of the report [earlier]. *)
Definition no_less (later earlier : snapshot) : Prop :=
  seen_scanned earlier <= seen_scanned later
  /\ seen_successful earlier <= seen_successful later
  /\ seen_failed earlier <= seen_failed later
  /\ length (seen_results earlier) <= length (seen_results later).

(** What the reporter would read in the state [s]. *)
Definition reading_of (s : state) : snapshot :=
  mkSnapshot (scanned s) (successful s) (failed s) (results s).
End SchedProgress.

(** The reports of [scans_and_reports], the last one first. *)
Definition two_reports : list Sched.snapshot := Sched.observed after_scans.

Definition first_report : Sched.snapshot :=
  default (Sched.mkSnapshot 0 0 0 []) (nth_error two_reports 1).

(** * Properties *)

(** ** Comparisons of binary64 numbers *)

Module PyFloatFacts.

Lemma cmp_mag_opp e1 m1 e2 m2 : cmp_mag e2 m2 e1 m1 = CompOpp (cmp_mag e1 m1 e2 m2).
Proof.
  unfold cmp_mag. rewrite (Z.compare_antisym e1 e2), (Pos.compare_antisym m1 m2).
  destruct (e1 ?= e2)%Z; simpl; auto.
Qed.

Lemma cmp_mag_le_trans e1 m1 e2 m2 e3 m3 :
  cmp_mag e1 m1 e2 m2 <> Gt -> cmp_mag e2 m2 e3 m3 <> Gt -> cmp_mag e1 m1 e3 m3 <> Gt.
Proof.
  unfold cmp_mag.
  destruct (Z.compare_spec e1 e2), (Z.compare_spec e2 e3), (Z.compare_spec e1 e3);
    try lia; try congruence.
  destruct (Pos.compare_spec m1 m2), (Pos.compare_spec m2 m3), (Pos.compare_spec m1 m3);
    try lia; congruence.
Qed.

Lemma SFcompare_finite s1 m1 e1 s2 m2 e2 :
  SFcompare (S754_finite s1 m1 e1) (S754_finite s2 m2 e2)
  = Some (match s1, s2 with
          | true, false => Lt
          | false, true => Gt
          | false, false => cmp_mag e1 m1 e2 m2
          | true, true => CompOpp (cmp_mag e1 m1 e2 m2)
          end).
Proof.
  unfold cmp_mag; simpl. destruct s1, s2; auto; destruct (e1 ?= e2)%Z; auto.
Qed.

Lemma SFcompare_antisym x y : SFcompare y x = option_map CompOpp (SFcompare x y).
Proof.
  destruct x as [sx|sx| |sx mx ex], y as [sy|sy| |sy my ey];
    try (destruct sx); try (destruct sy); try reflexivity;
    rewrite !SFcompare_finite; simpl; rewrite cmp_mag_opp;
    destruct (cmp_mag _ _ _ _); reflexivity.
Qed.

Lemma SFleb_trans x y z : SFleb x y = true -> SFleb y z = true -> SFleb x z = true.
Proof.
  unfold SFleb.
  destruct x as [sx|sx| |sx mx ex], y as [sy|sy| |sy my ey], z as [sz|sz| |sz mz ez];
    try (destruct sx); try (destruct sy); try (destruct sz);
    try (simpl; congruence);
    rewrite ?SFcompare_finite; simpl; try congruence.
  all: intros H1 H2.
  all: pose proof (cmp_mag_le_trans ex mx ey my ez mz) as T.
  all: pose proof (cmp_mag_le_trans ez mz ey my ex mx) as T'.
  all: rewrite (cmp_mag_opp ey my ez mz), (cmp_mag_opp ex mx ey my), (cmp_mag_opp ex mx ez mz) in T'.
  all: destruct (cmp_mag ex mx ey my), (cmp_mag ey my ez mz), (cmp_mag ex mx ez mz);
    simpl in *; try congruence; try (exfalso; apply T; congruence); try (exfalso; apply T'; congruence).
Qed.

#[local] Open Scope float_scope.

Lemma eqb_infinity_iff (x : float) : (x =? infinity) = true <-> x = infinity.
Proof.
  split.
  - rewrite FloatAxioms.eqb_spec. change (Prim2SF infinity) with (S754_infinity false).
    intros H. apply Prim2SF_inj. change (Prim2SF infinity) with (S754_infinity false).
    destruct (Prim2SF x) as [s|s| |s m e]; try destruct s; simpl in H; try discriminate; auto.
  - intros ->. reflexivity.
Qed.

Lemma ltb_leb_false (x y : float) : (x <? y) = true -> (y <=? x) = false.
Proof.
  rewrite FloatAxioms.ltb_spec, FloatAxioms.leb_spec. unfold SFltb, SFleb.
  rewrite (SFcompare_antisym (Prim2SF x) (Prim2SF y)).
  destruct (SFcompare (Prim2SF x) (Prim2SF y)) as [[]|]; simpl; congruence.
Qed.

Lemma leb_ltb_false (x y : float) : (x <=? y) = true -> (y <? x) = false.
Proof.
  rewrite FloatAxioms.ltb_spec, FloatAxioms.leb_spec. unfold SFltb, SFleb.
  rewrite (SFcompare_antisym (Prim2SF x) (Prim2SF y)).
  destruct (SFcompare (Prim2SF x) (Prim2SF y)) as [[]|]; simpl; congruence.
Qed.

Lemma ltb_asym (x y : float) : (x <? y) = true -> (y <? x) = false.
Proof.
  rewrite !FloatAxioms.ltb_spec. unfold SFltb.
  rewrite (SFcompare_antisym (Prim2SF x) (Prim2SF y)).
  destruct (SFcompare (Prim2SF x) (Prim2SF y)) as [[]|]; simpl; congruence.
Qed.

Lemma not_nan_compare (x y : float) :
  PyFloat.not_nan x = true -> PyFloat.not_nan y = true ->
  exists c, SFcompare (Prim2SF x) (Prim2SF y) = Some c.
Proof.
  unfold PyFloat.not_nan. rewrite !FloatAxioms.eqb_spec. unfold SFeqb.
  destruct (Prim2SF x) as [s|s| |s m e], (Prim2SF y) as [s'|s'| |s' m' e'];
    simpl; try discriminate; eauto.
Qed.

Lemma ltb_false_leb (x y : float) :
  PyFloat.not_nan x = true -> PyFloat.not_nan y = true ->
  (x <? y) = false -> (y <=? x) = true.
Proof.
  intros Hx Hy. destruct (not_nan_compare x y Hx Hy) as [c Hc].
  rewrite FloatAxioms.ltb_spec, FloatAxioms.leb_spec. unfold SFltb, SFleb.
  rewrite (SFcompare_antisym (Prim2SF x) (Prim2SF y)), Hc.
  destruct c; simpl; congruence.
Qed.

Lemma leb_trans (x y z : float) :
  (x <=? y) = true -> (y <=? z) = true -> (x <=? z) = true.
Proof. rewrite !FloatAxioms.leb_spec. apply SFleb_trans. Qed.

Lemma leb_refl (x : float) : PyFloat.not_nan x = true -> (x <=? x) = true.
Proof.
  intros Hx. apply ltb_false_leb; auto.
  destruct (x <? x) eqn:E; auto. pose proof (ltb_asym _ _ E). congruence.
Qed.

Lemma ltb_leb (x y : float) : (x <? y) = true -> (x <=? y) = true.
Proof.
  rewrite FloatAxioms.ltb_spec, FloatAxioms.leb_spec. unfold SFltb, SFleb.
  destruct (SFcompare (Prim2SF x) (Prim2SF y)) as [[]|]; simpl; congruence.
Qed.

Lemma leb_not_nan (x y : float) :
  (x <=? y) = true -> PyFloat.not_nan x = true /\ PyFloat.not_nan y = true.
Proof.
  unfold PyFloat.not_nan. rewrite FloatAxioms.leb_spec, !FloatAxioms.eqb_spec. unfold SFleb, SFeqb.
  destruct (Prim2SF x) as [s|s| |s m e], (Prim2SF y) as [s'|s'| |s' m' e'];
    simpl; try discriminate; intros _; split; auto;
    try (destruct s; reflexivity); try (destruct s'; reflexivity).
  all: try (destruct s; rewrite Z.compare_refl, Pos.compare_cont_refl; reflexivity).
  all: try (destruct s'; rewrite Z.compare_refl, Pos.compare_cont_refl; reflexivity).
Qed.

(** A latency that passes the guard of [update_latency] is a positive
    finite number. *)
Lemma positive_not_infinity_finite (x : float) :
  PyFloat.neqb x infinity = true -> PyFloat.gtb x 0 = true -> is_finite x = true.
Proof.
  unfold PyFloat.neqb, PyFloat.gtb, is_finite, is_nan, is_infinity.
  rewrite FloatAxioms.ltb_spec, !FloatAxioms.eqb_spec, FloatAxioms.abs_spec.
  change (Prim2SF infinity) with (S754_infinity false).
  change (Prim2SF 0) with (S754_zero false).
  destruct (Prim2SF x) as [s|s| |s m e]; try destruct s; simpl; try discriminate; auto.
  intros _ _. unfold SFeqb; simpl. rewrite Z.compare_refl, Pos.compare_cont_refl. reflexivity.
Qed.
End PyFloatFacts.

Import PyFloatFacts.

(** ** [list.sort] *)

Section PySortFacts.
Context {A : Type} (lt : A -> A -> bool).

Lemma insert_sorted_perm (x : A) (l : list A) :
  Permutation (x :: l) (insert_sorted lt x l).
Proof.
  induction l as [|h t IH]; simpl; [reflexivity|].
  destruct (lt h x); [|reflexivity].
  rewrite perm_swap. by constructor.
Qed.

Lemma py_sort_perm (l : list A) : Permutation l (py_sort lt l).
Proof.
  induction l as [|x t IH]; simpl; [constructor|].
  rewrite <- insert_sorted_perm. by constructor.
Qed.

Lemma py_sort_length (l : list A) : length (py_sort lt l) = length l.
Proof. symmetry. apply Permutation_length, py_sort_perm. Qed.

(** Sortedness, for an order [le] that [lt] decides on the elements that
    satisfy [ok]. *)
Context (le : A -> A -> Prop) (ok : A -> Prop).
Hypothesis le_trans : forall a b c, le a b -> le b c -> le a c.
Hypothesis lt_le : forall a b, lt a b = true -> le a b.
Hypothesis not_lt_le : forall a b, ok a -> ok b -> lt a b = false -> le b a.

Lemma insert_sorted_sorted (x : A) (l : list A) :
  ok x -> Forall ok l -> StronglySorted le l ->
  StronglySorted le (insert_sorted lt x l).
Proof.
  intros Hx Hl Hs. induction Hs as [|h t Hs IH Hh]; simpl.
  - repeat constructor.
  - inversion Hl as [|? ? Hokh Hokt]; subst.
    destruct (lt h x) eqn:E.
    + constructor; [by apply IH|].
      eapply Permutation_Forall; [apply insert_sorted_perm|].
      constructor; [by apply lt_le | done].
    + assert (le x h) by (by apply not_lt_le).
      constructor; [by constructor|].
      constructor; [done|].
      eapply Forall_impl; [exact Hh|]. intros; by eapply le_trans.
Qed.

Lemma py_sort_sorted (l : list A) :
  Forall ok l -> StronglySorted le (py_sort lt l).
Proof.
  induction 1 as [|x t Hx Ht IH]; simpl; [constructor|].
  apply insert_sorted_sorted; auto.
  eapply Permutation_Forall; [apply py_sort_perm | done].
Qed.
End PySortFacts.


Lemma float_sort_sorted (l : list float) :
  Forall (fun x => PyFloat.not_nan x = true) l ->
  StronglySorted float_le (py_sort PrimFloat.ltb l).
Proof.
  apply py_sort_sorted.
  - intros a b c; apply leb_trans.
  - intros a b; apply ltb_leb.
  - intros a b Ha Hb Hab. by apply ltb_false_leb.
Qed.

(** ** [DNSResult.update_latency] *)


Lemma update_latency_rejected self l m now :
  accepted l = false -> update_latency self l m now = self.
Proof. unfold update_latency, accepted. by intros ->. Qed.

Lemma update_latency_accepted self l m now :
  accepted l = true ->
  ping_count (update_latency self l m now) = S (ping_count self)
  /\ latency (update_latency self l m now) = l
  /\ last_updated (update_latency self l m now) = now
  /\ successful_methods (update_latency self l m now) = successful_methods self ∪ {[ m ]}
  /\ avg_latency (update_latency self l m now)
     = if avg_latency self =? infinity then l
       else ((avg_latency self * PyFloat.of_nat (Nat.min (S (ping_count self)) 10 - 1)) + l)
            / PyFloat.of_nat (Nat.min (S (ping_count self)) 10).
Proof. unfold update_latency, accepted. intros ->. simpl. done. Qed.

Lemma accepted_finite l : accepted l = true -> is_finite l = true /\ (0 <? l) = true.
Proof.
  unfold accepted. intros [H1 H2]%andb_prop. split; [|exact H2].
  by apply positive_not_infinity_finite.
Qed.

Lemma finite_positive_accepted l : is_finite l = true -> (0 <? l) = true -> accepted l = true.
Proof.
  unfold accepted, PyFloat.neqb, PyFloat.gtb. intros Hf ->. rewrite andb_true_r.
  destruct (l =? infinity) eqn:E; [|done].
  apply eqb_infinity_iff in E. subst. vm_compute in Hf. discriminate.
Qed.

(** C10.  [update_latency] leaves the record as it is when the new latency
    is +inf or is not above zero; whenever it changes the record, the latency
    is finite and positive; and a finite positive latency always changes the
    record. *)
Theorem update_latency_frame (self : DNSResult) (l : float) (m : TestMethod) (now : Z) :
  ((l = infinity \/ (l <=? 0) = true) -> update_latency self l m now = self)
  /\ (update_latency self l m now <> self -> is_finite l = true /\ (0 <? l) = true)
  /\ (is_finite l = true /\ (0 <? l) = true -> update_latency self l m now <> self).
Proof.
  split; [|split].
  - intros H. apply update_latency_rejected. unfold accepted, PyFloat.gtb.
    destruct H as [-> | H]; [reflexivity|].
    rewrite (leb_ltb_false _ _ H). apply andb_false_r.
  - intros H. destruct (accepted l) eqn:E.
    + by apply accepted_finite.
    + exfalso. apply H. by apply update_latency_rejected.
  - intros [Hf Hp] Heq.
    pose proof (update_latency_accepted self l m now (finite_positive_accepted l Hf Hp)) as [Hc _].
    rewrite Heq in Hc. lia.
Qed.

Lemma update_latency_frame_witness :
  update_latency (new_DNSResult "8.8.8.8" "Google" 0) 0 PING 7
  = new_DNSResult "8.8.8.8" "Google" 0.
Proof.
  apply (proj1 (update_latency_frame (new_DNSResult "8.8.8.8" "Google" 0) 0 PING 7)).
  right. reflexivity.
Defined.

Lemma sentinel_invariant_iff r :
  sentinel_invariant r = true <-> (avg_latency r = infinity <-> ping_count r = 0%nat).
Proof.
  unfold sentinel_invariant. rewrite <- eqb_infinity_iff, <- Nat.eqb_eq.
  destruct (avg_latency r =? infinity), (ping_count r =? 0)%nat; simpl; intuition congruence.
Qed.

(** ** The running average of [update_latency] *)

Lemma last_cons {A : Type} (a d : A) (l : list A) : List.last (a :: l) d = List.last l a.
Proof.
  revert a d. induction l as [|b l IH]; intros a d; [reflexivity|].
  change (List.last (a :: b :: l) d) with (List.last (b :: l) d).
  rewrite (IH b d), (IH b a). reflexivity.
Qed.

(** The latencies that [update_latency] does not accept do not count: the
    record after a sequence of calls is the record after the accepted ones. *)
Lemma records_after_taken (r : DNSResult) (ups : list (float * TestMethod * Z)) :
  List.last (records_after r ups) r
  = List.last (records_after r (List.filter (fun u => accepted (fst (fst u))) ups)) r.
Proof.
  revert r. induction ups as [|[[l m] now] rest IH]; intros r; [reflexivity|].
  cbn [records_after List.filter fst]. destruct (accepted l) eqn:Hl.
  - cbn [records_after]. rewrite !last_cons. apply IH.
  - rewrite (update_latency_rejected r l m now Hl), last_cons. apply IH.
Qed.

(** From a record that keeps the sentinel, accepted latencies give the
    averages of the rule for as long as the rule's average is not +inf. *)
Lemma records_after_rule (r : DNSResult) (ups : list (float * TestMethod * Z)) :
  sentinel_invariant r = true ->
  Forall (fun u => accepted (fst (fst u)) = true) ups ->
  Forall (fun a => PyFloat.neqb a infinity = true)
         (weighted_averages (ping_count r) (avg_latency r)
                            (map (fun u => fst (fst u)) ups)) ->
  map avg_latency (records_after r ups)
  = weighted_averages (ping_count r) (avg_latency r) (map (fun u => fst (fst u)) ups)
  /\ map ping_count (records_after r ups)
     = map (fun k => (ping_count r + S k)%nat) (seq 0 (length ups)).
Proof.
  revert r. induction ups as [|[[l m] now] rest IH]; intros r Hr Hacc Hfin; [done|].
  cbn [records_after map fst weighted_averages length seq] in *.
  inversion Hacc as [|? ? Hl Hrest]; subst. cbn [fst] in Hl.
  destruct (update_latency_accepted r l m now Hl) as (Hc & _ & _ & _ & Ha).
  assert (Hrule : avg_latency (update_latency r l m now)
                  = if (ping_count r =? 0)%nat then l
                    else (avg_latency r * PyFloat.of_nat (Nat.min (S (ping_count r)) 10 - 1) + l)
                         / PyFloat.of_nat (Nat.min (S (ping_count r)) 10)).
  { rewrite Ha. unfold sentinel_invariant in Hr.
    destruct (avg_latency r =? infinity), (ping_count r =? 0)%nat; simpl in Hr; done. }
  rewrite <- Hrule in Hfin |- *.
  inversion Hfin as [|? ? Hhead Htail]; subst.
  assert (Hr' : sentinel_invariant (update_latency r l m now) = true).
  { unfold sentinel_invariant. rewrite Hc. unfold PyFloat.neqb in Hhead.
    apply negb_true_iff in Hhead. rewrite Hhead. reflexivity. }
  rewrite <- Hc in Htail |- *.
  destruct (IH _ Hr' Hrest Htail) as [IH1 IH2].
  rewrite IH1, IH2. split; [reflexivity|].
  f_equal; [rewrite Hc; f_equal; lia|].
  rewrite <- seq_shift, map_map. apply map_ext. intros; rewrite Hc; lia.
Qed.

(** C4, as amended.  Of a sequence of latencies fed to a fresh record, those
    that [update_latency] accepts (not +inf and above zero) give the averages
    of the weighted running mean, the first latency and then
    (average * (w - 1) + latency) / w with w = min(count, 10), and count as
    1, 2, 3, ..., provided that the averages of the rule stay below +inf;
    the other latencies change nothing, so that the record after the whole
    sequence is the record after the accepted ones. *)
Theorem update_latency_weighted_average (srv prov : string) (created : Z)
    (ups : list (float * TestMethod * Z)) :
  let fresh := new_DNSResult srv prov created in
  let taken := List.filter (fun u => accepted (fst (fst u))) ups in
  let fed := map (fun u => fst (fst u)) taken in
  Forall (fun a => PyFloat.neqb a infinity = true) (weighted_averages 0 infinity fed) ->
  map avg_latency (records_after fresh taken) = weighted_averages 0 infinity fed
  /\ map ping_count (records_after fresh taken) = seq 1 (length taken)
  /\ List.last (records_after fresh ups) fresh = List.last (records_after fresh taken) fresh.
Proof.
  intros fresh taken fed Hfin.
  assert (Hacc : Forall (fun u => accepted (fst (fst u)) = true) taken).
  { apply List.Forall_forall. intros u Hu. by apply filter_In in Hu as [_ Hu]. }
  destruct (records_after_rule fresh taken eq_refl Hacc Hfin) as [Havg Hcount].
  split; [exact Havg|]. split; [|apply records_after_taken].
  rewrite Hcount. cbn [fresh new_DNSResult ping_count]. rewrite <- seq_shift.
  apply map_ext. intros; lia.
Qed.

Lemma update_latency_weighted_average_witness :
  map avg_latency
      (records_after (new_DNSResult "8.8.8.8" "Google" 0)
                     [(10, DNS_QUERY, 1%Z); (20, DNS_QUERY, 3%Z); (30, DNS_QUERY, 5%Z)])
  = [10; 15; 20]
  /\ weighted_averages 0 infinity [10; 20; 30] = [10; 15; 20]
  /\ avg_latency (List.last (records_after (new_DNSResult "8.8.8.8" "Google" 0) three_of_five)
                       (new_DNSResult "8.8.8.8" "Google" 0)) = 20.
Proof.
  assert (Hfin : Forall (fun a => PyFloat.neqb a infinity = true)
                        (weighted_averages 0 infinity [10; 20; 30]))
    by (vm_compute; repeat constructor).
  destruct (update_latency_weighted_average "8.8.8.8" "Google" 0 three_of_five Hfin)
    as (Havg & _ & Hlast).
  split; [exact (eq_trans Havg ltac:(vm_compute; reflexivity))|].
  split; [vm_compute; reflexivity|].
  rewrite Hlast. vm_compute. reflexivity.
Defined.

(** C4, as stated, fails on two kinds of sequences.  A successful attempt
    with latency 0.0, which the worker feeds to [update_latency], is not
    averaged: after 0.0 and 20.0 the average is 20.0, where the rule gives
    10.0.  And when the average overflows to +inf, the next latency is taken
    for a first success: after three times the largest number the average is
    that number, where the rule gives +inf. *)
Lemma zero_latency_is_not_averaged :
  map avg_latency
      (records_after (new_DNSResult "192.168.1.1" "Router" 0)
                     [(0, PING, 1%Z); (20, PING, 2%Z)])
  = [infinity; 20]
  /\ weighted_averages 0 infinity [0; 20] = [0; 10]
  /\ map avg_latency
         (records_after (new_DNSResult "192.168.1.1" "Router" 0)
                        [(max_float, PING, 1%Z); (max_float, PING, 2%Z);
                         (max_float, PING, 3%Z)])
     = [max_float; infinity; max_float]
  /\ weighted_averages 0 infinity [max_float; max_float; max_float]
     = [max_float; infinity; infinity].
Proof. vm_compute. repeat split; reflexivity. Qed.

(** ** One attempt: the median and the ceiling *)


Lemma collected_methods_cons result m rs :
  collected_methods ((result, m) :: rs)
  = match result with
    | Some v => if PyFloat.neqb v infinity then {[ m ]} ∪ collected_methods rs
                else collected_methods rs
    | None => collected_methods rs
    end.
Proof.
  unfold collected_methods. destruct result as [v|]; [|reflexivity].
  simpl flat_map. destruct (PyFloat.neqb v infinity); reflexivity.
Qed.

Lemma collect_spec_from rs ms methods :
  fold_left
    (fun '(measurements, methods) '(result, method) =>
       match result with
       | Some v =>
           if PyFloat.neqb v infinity
           then (measurements ++ [v], methods ∪ {[ method ]})
           else (measurements, methods)
       | None => (measurements, methods)
       end)
    rs (ms, methods)
  = (ms ++ collected_values rs, methods ∪ collected_methods rs).
Proof.
  revert ms methods. induction rs as [|[result m] rs IH]; intros ms methods.
  - change (collected_methods []) with (∅ : gset TestMethod). simpl fold_left.
    simpl collected_values. rewrite app_nil_r. f_equal. set_solver.
  - rewrite collected_methods_cons. simpl fold_left. simpl collected_values.
    destruct result as [v|]; [destruct (PyFloat.neqb v infinity)|]; rewrite IH.
    + rewrite <- app_assoc. f_equal. set_solver.
    + done.
    + done.
Qed.

Lemma collect_spec rs : collect rs = (collected_values rs, collected_methods rs).
Proof.
  unfold collect. rewrite collect_spec_from. simpl app. f_equal. set_solver.
Qed.

Lemma measure_server_latency_spec config has dns sock ping :
  _measure_server_latency config has dns sock ping
  = match collected_values (gathered config has dns sock ping) with
    | [] => (infinity, ∅)
    | ms => (median ms, collected_methods (gathered config has dns sock ping))
    end.
Proof.
  unfold _measure_server_latency.
  destruct (gathered config has dns sock ping) as [|t ts] eqn:E; [done|].
  rewrite collect_spec. cbv beta iota zeta.
  destruct (collected_values (t :: ts)); reflexivity.
Qed.

Lemma StronglySorted_nth {A} (le : A -> A -> Prop) (l : list A) (d : A) (i j : nat) :
  StronglySorted le l -> (i < j < length l)%nat -> le (nth i l d) (nth j l d).
Proof.
  intros Hs. revert i j. induction Hs as [|h t Hs IH Hh]; intros i j Hij; simpl in *; [lia|].
  destruct i as [|i], j as [|j]; try lia.
  - rewrite List.Forall_forall in Hh. apply Hh. apply nth_In. lia.
  - apply IH. lia.
Qed.

(** C1, as amended.  When an attempt collects at least one value and none
    of them is a NaN, its latency is the element at index n / 2 of the
    collected values sorted in ascending order; for an even n that is the
    upper of the two middle elements. *)
Theorem attempt_latency_is_upper_median (config : ScanConfig) (HAS_DNSPYTHON : bool)
    (dns sock ping : option float) :
  let ms := collected_values (gathered config HAS_DNSPYTHON dns sock ping) in
  let sorted := py_sort PrimFloat.ltb ms in
  let n := length ms in
  ms <> [] ->
  Forall (fun v => PyFloat.not_nan v = true) ms ->
  fst (_measure_server_latency config HAS_DNSPYTHON dns sock ping)
  = nth (n / 2) sorted infinity
  /\ Permutation ms sorted
  /\ StronglySorted float_le sorted
  /\ (Nat.even n = true ->
      float_le (nth (n / 2 - 1) sorted infinity)
               (fst (_measure_server_latency config HAS_DNSPYTHON dns sock ping))).
Proof.
  intros ms sorted n Hne Hnan.
  assert (Hfst : fst (_measure_server_latency config HAS_DNSPYTHON dns sock ping)
                 = nth (n / 2) sorted infinity).
  { rewrite measure_server_latency_spec. fold ms.
    destruct ms as [|v vs] eqn:E; [done|]. simpl fst. unfold median.
    subst sorted n. by rewrite py_sort_length. }
  assert (Hs : StronglySorted float_le sorted) by (by apply float_sort_sorted).
  split; [exact Hfst|]. split; [apply py_sort_perm|]. split; [exact Hs|].
  intros Hev. rewrite Hfst.
  assert (n <> 0)%nat by (subst n; destruct ms; simpl; [done|lia]).
  assert (2 <= n)%nat.
  { destruct n as [|[|n']]; try lia. discriminate. }
  apply StronglySorted_nth; [exact Hs|].
  subst sorted. rewrite py_sort_length. fold n.
  pose proof (Nat.div_lt n 2). pose proof (Nat.div_str_pos n 2). lia.
Qed.

Lemma attempt_latency_is_upper_median_witness :
  fst (_measure_server_latency all_enabled true (Some 30) (Some 10) (Some 20))
  = nth (3 / 2) (py_sort PrimFloat.ltb [30; 10; 20]) infinity
  /\ fst (_measure_server_latency all_enabled true (Some 30) (Some 10) (Some 20)) = 20.
Proof.
  split; [|vm_compute; reflexivity].
  apply (attempt_latency_is_upper_median all_enabled true (Some 30) (Some 10) (Some 20)).
  - discriminate.
  - repeat constructor.
Defined.

(** C1, as stated, fails on two values: of 10 and 20 the attempt reports 20,
    and the lower of the two middle elements is 10. *)
Lemma median_of_two_not_lower_middle :
  fst (_measure_server_latency all_enabled true (Some 10) (Some 20) None) = 20
  /\ length (collected_values (gathered all_enabled true (Some 10) (Some 20) None)) = 2%nat
  /\ nth (2 / 2 - 1) (py_sort PrimFloat.ltb [10; 20]) infinity = 10
  /\ (20 =? 10) = false.
Proof. vm_compute. repeat split; reflexivity. Qed.

(** X31.  The sanity ceiling of the two probes that read the clock: the
    resolution-query probe and the connection probe return only values
    below 5000 ms, and return nothing when the time they measured is
    5000 ms or more, for every configuration. *)
Theorem sanity_ceiling_wall_clock_probes (config : ScanConfig) (HAS_DNSPYTHON : bool)
    (dw : dns_world) (sw : socket_world) :
  (forall l, _measure_dns_query_latency config HAS_DNSPYTHON dw = Some l ->
             (l <? 5000) = true)
  /\ ((5000 <=? (dns_end_time dw - dns_start_time dw) * 1000) = true ->
      _measure_dns_query_latency config HAS_DNSPYTHON dw = None)
  /\ (forall l, _measure_socket_latency config sw = Some l -> (l <? 5000) = true)
  /\ ((5000 <=? (sock_end_time sw - sock_start_time sw) * 1000) = true ->
      _measure_socket_latency config sw = None).
Proof.
  unfold _measure_dns_query_latency, _measure_socket_latency.
  repeat split.
  - intros l. destruct (_ || _); [done|]. destruct (dns_raised dw); [done|].
    destruct (negb (dns_resolver dw)); [done|].
    destruct (_ <? 5000) eqn:E; [|done]. intros [= <-]. exact E.
  - intros H%leb_ltb_false. rewrite H.
    destruct (_ || _), (dns_raised dw), (negb (dns_resolver dw)); reflexivity.
  - intros l. destruct (negb _); [done|]. destruct (sock_raised sw); [done|].
    destruct (_ <? 5000) eqn:E; [|done]. intros [= <-]. exact E.
  - intros H%leb_ltb_false. rewrite H.
    destruct (negb _), (sock_raised sw); reflexivity.
Qed.

Lemma sanity_ceiling_wall_clock_probes_witness :
  _measure_dns_query_latency all_enabled true (mkDnsWorld false true 0 6) = None
  /\ _measure_socket_latency all_enabled (mkSocketWorld false 0 6) = None.
Proof.
  pose proof (sanity_ceiling_wall_clock_probes all_enabled true
                (mkDnsWorld false true 0 6) (mkSocketWorld false 0 6)) as (_ & Hd & _ & Hs).
  split; [apply Hd | apply Hs]; reflexivity.
Defined.

(** C2, the failing input.  The echo probe has no sanity ceiling: it
    returns the 6000 ms that it reads from the output of the ping utility,
    a value that the other two probes discard. *)
Theorem ping_probe_has_no_ceiling :
  _measure_ping_latency all_enabled false posix_ping_6000 = Some 6000
  /\ (5000 <=? 6000) = true.
Proof. vm_compute. split; reflexivity. Qed.

(** ** The worker: the mean and the status *)


Lemma gset_TestMethod_cases (s : gset TestMethod) :
  s = list_to_set (List.filter (fun m => bool_decide (m ∈ s)) [DNS_QUERY; PING; SOCKET_CONNECT]).
Proof.
  apply set_eq. intros m. rewrite elem_of_list_to_set, list_elem_of_In, filter_In.
  rewrite bool_decide_eq_true. split; [|tauto]. intros H. split; [|done].
  destruct m; simpl; tauto.
Qed.

Lemma method_names_alphabetical (s : gset TestMethod) :
  method_names s = String.concat "/" (alphabetical_names s).
Proof.
  unfold method_names, alphabetical_names.
  rewrite (gset_TestMethod_cases s) at 1.
  simpl List.filter.
  destruct (bool_decide (DNS_QUERY ∈ s)), (bool_decide (PING ∈ s)),
    (bool_decide (SOCKET_CONNECT ∈ s)); vm_compute; reflexivity.
Qed.

Lemma successes_length (attempts : list attempt) :
  (length (successes attempts) <= length attempts)%nat.
Proof.
  induction attempts as [|a rest IH]; simpl; [lia|].
  destruct (succeeded a); simpl; lia.
Qed.

(** [range(ping_count)] yields the attempts 1 to [ping_count]. *)
Lemma attempts_made_1_to (config : ScanConfig) (world : nat -> attempt) :
  attempts_made config world
  = attempts_1_to (Z.to_nat (cfg_ping_count config)) world.
Proof.
  unfold attempts_made. induction (Z.to_nat (cfg_ping_count config)) as [|n IH];
    [reflexivity|].
  rewrite seq_S, map_app, IH. reflexivity.
Qed.

Lemma attempts_1_to_length (P : nat) (world : nat -> attempt) :
  length (attempts_1_to P world) = P.
Proof. induction P as [|n IH]; simpl; [reflexivity|]. rewrite length_app, IH. simpl. lia. Qed.

Section WorkerFacts.
Variable next_iter : gset TestMethod -> TestMethod.

Lemma attempt_step_failed st a :
  succeeded a = None -> attempt_step next_iter st a = st.
Proof.
  unfold succeeded, attempt_step. destruct (measured a) as [[lat methods]|]; [|done].
  by destruct (_ && _).
Qed.

Lemma attempt_step_succeeded st a lat methods :
  succeeded a = Some (lat, methods) ->
  attempt_step next_iter st a
  = {| result := update_latency (result st) lat (next_iter methods) (at_time a);
       successful_tests := S (successful_tests st);
       total_latency := total_latency st + lat;
       all_methods := all_methods st ∪ methods |}.
Proof.
  unfold succeeded, attempt_step. destruct (measured a) as [[lat' methods']|]; [|done].
  destruct (_ && _); [|done]. by intros [= -> ->].
Qed.

(** The accumulators of the loop count, add up and unite the successful
    attempts. *)
Lemma fold_attempts attempts st :
  successful_tests (fold_left (attempt_step next_iter) attempts st)
  = (successful_tests st + length (successes attempts))%nat
  /\ total_latency (fold_left (attempt_step next_iter) attempts st)
     = fold_left (fun acc l => acc + l) (map fst (successes attempts)) (total_latency st)
  /\ all_methods (fold_left (attempt_step next_iter) attempts st)
     = all_methods st ∪ ⋃ (map snd (successes attempts)).
Proof.
  revert st. induction attempts as [|a rest IH]; intros st.
  - simpl. split; [lia|]. split; [reflexivity|]. by rewrite (right_id_L ∅ (∪)).
  - simpl fold_left. simpl successes.
    destruct (succeeded a) as [[lat methods]|] eqn:E.
    + rewrite (attempt_step_succeeded st a lat methods E).
      destruct (IH {| result := update_latency (result st) lat (next_iter methods) (at_time a);
                      successful_tests := S (successful_tests st);
                      total_latency := total_latency st + lat;
                      all_methods := all_methods st ∪ methods |}) as (H1 & H2 & H3).
      simpl in H1, H2, H3 |- *. rewrite H1, H2, H3. split; [lia|]. split; [reflexivity|].
      by rewrite (assoc_L (∪)).
    + rewrite (attempt_step_failed st a E). apply IH.
Qed.

(** The fields of the stored record that the statements after the loop
    leave as the loop set them. *)
Lemma finish_keeps config st :
  ping_count (finish config st) = ping_count (result st)
  /\ successful_methods (finish config st) = successful_methods (result st)
  /\ latency (finish config st) = latency (result st).
Proof. unfold finish. by destruct (0 <? successful_tests st)%nat. Qed.

(** C3.  After the worker has made its attempts, which are the attempts 1
    to P for the configured count P (none when P is not positive), the
    successful ones are at most P; when there is one, the stored average
    is the sum of the latencies of the successful attempts, added in their
    order, divided by their number k, and the status is
    "OK (<methods>) - k/P" with the display names of all the methods that
    succeeded in some attempt, sorted and joined by "/", and the server
    counts as successful; with no successful attempt the status is
    "Failed - 0/P" and the server counts as failed. *)
Theorem final_record_mean_and_status (config : ScanConfig) (srv prov : string)
    (created : Z) (world : nat -> attempt) :
  let r := fst (_scan_server_multiple next_iter config srv prov created world) in
  let ok := snd (_scan_server_multiple next_iter config srv prov created world) in
  let P := cfg_ping_count config in
  let won := successes (attempts_1_to (Z.to_nat P) world) in
  (length won <= Z.to_nat P)%nat
  /\ ((0 < length won)%nat ->
        avg_latency r = latency_sum (map fst won) / PyFloat.of_nat (length won)
        /\ status r
           = ("OK (" ++ String.concat "/" (alphabetical_names (⋃ (map snd won)))
                ++ ") - " ++ pretty (length won) ++ "/" ++ pretty P)%string
        /\ ok = true)
  /\ (length won = 0%nat ->
        status r = ("Failed - 0/" ++ pretty P)%string /\ ok = false).
Proof.
  intros r ok P won. subst r ok.
  unfold _scan_server_multiple, run_attempts. cbn [fst snd].
  rewrite attempts_made_1_to. fold P.
  destruct (fold_attempts (attempts_1_to (Z.to_nat P) world)
              (initial_worker_state srv prov created)) as (H1 & H2 & H3).
  fold won in H1, H2, H3. simpl in H1, H2, H3.
  unfold finish. rewrite H1, H2, H3, method_names_alphabetical.
  split; [|split; intros Hk].
  - subst won. etransitivity; [apply successes_length|].
    by rewrite attempts_1_to_length.
  - destruct (0 <? length won)%nat eqn:E; [|apply Nat.ltb_ge in E; lia].
    simpl. split; [reflexivity|]. split; [|reflexivity]. by rewrite (left_id_L ∅ (∪)).
  - rewrite Hk. split; reflexivity.
Qed.

End WorkerFacts.

Lemma final_record_mean_and_status_witness :
  avg_latency (fst (_scan_server_multiple first_element three_pings "8.8.8.8" "Google" 0
                      partial_success)) = 17.5
  /\ status (fst (_scan_server_multiple first_element three_pings "8.8.8.8" "Google" 0
                    partial_success)) = "OK (DNS) - 2/3".
Proof.
  destruct (final_record_mean_and_status first_element three_pings "8.8.8.8" "Google" 0
              partial_success) as (_ & H & _).
  destruct H as (Ha & Hs & _); [vm_compute; lia|].
  rewrite Ha, Hs. split; vm_compute; reflexivity.
Defined.

(** What the worker stores, in terms of the successful attempts. *)
Lemma scan_record_summary (next_iter : gset TestMethod -> TestMethod)
    (config : ScanConfig) (srv prov : string) (created : Z) (world : nat -> attempt) :
  let st := run_attempts next_iter config srv prov created world in
  let won := successes (attempts_made config world) in
  successful_tests st = length won
  /\ total_latency st = latency_sum (map fst won)
  /\ all_methods st = ⋃ (map snd won).
Proof.
  intros st won. subst st. unfold run_attempts.
  destruct (fold_attempts next_iter (attempts_made config world)
              (initial_worker_state srv prov created)) as (H1 & H2 & H3).
  fold won in H1, H2, H3. simpl in H1, H2, H3.
  rewrite H1, H2, H3. split; [done|]. split; [done|]. by rewrite (left_id_L ∅ (∪)).
Qed.

(** C7, the failing input.  One attempt in which the resolution query and
    the connection probe both succeed: the stored set of methods has one
    element, the one that [next(iter(methods))] picked, while the attempt's
    set, and the status text, have two. *)
Theorem record_methods_one_per_attempt (next_iter : gset TestMethod -> TestMethod) :
  measured dns_and_socket = Some (20, {[ DNS_QUERY; SOCKET_CONNECT ]})
  /\ successful_methods
       (fst (_scan_server_multiple next_iter one_ping "8.8.8.8" "Google" 0
               (fun _ => dns_and_socket)))
     = {[ next_iter {[ DNS_QUERY; SOCKET_CONNECT ]} ]}
  /\ size (successful_methods
             (fst (_scan_server_multiple next_iter one_ping "8.8.8.8" "Google" 0
                     (fun _ => dns_and_socket)))) = 1%nat
  /\ size (all_methods (run_attempts next_iter one_ping "8.8.8.8" "Google" 0
                          (fun _ => dns_and_socket))) = 2%nat
  /\ status (fst (_scan_server_multiple next_iter one_ping "8.8.8.8" "Google" 0
                    (fun _ => dns_and_socket)))
     = "OK (DNS/Socket) - 1/1".
Proof.
  assert (Hm : measured dns_and_socket = Some (20, {[ DNS_QUERY; SOCKET_CONNECT ]})).
  { unfold dns_and_socket. simpl measured. rewrite measure_server_latency_spec.
    vm_compute. reflexivity. }
  assert (Hs : succeeded dns_and_socket = Some (20, {[ DNS_QUERY; SOCKET_CONNECT ]})).
  { unfold succeeded. rewrite Hm. reflexivity. }
  assert (Hw : successes (attempts_made one_ping (fun _ => dns_and_socket))
               = [(20, {[ DNS_QUERY; SOCKET_CONNECT ]})]).
  { unfold attempts_made. simpl map. simpl successes. by rewrite Hs. }
  destruct (scan_record_summary next_iter one_ping "8.8.8.8" "Google" 0
              (fun _ => dns_and_socket)) as (Hk & Ht & Ha).
  rewrite Hw in Hk, Ht, Ha. simpl in Hk, Ht, Ha.
  assert (Hr : successful_methods
       (fst (_scan_server_multiple next_iter one_ping "8.8.8.8" "Google" 0
               (fun _ => dns_and_socket)))
     = {[ next_iter {[ DNS_QUERY; SOCKET_CONNECT ]} ]}).
  { unfold _scan_server_multiple. simpl fst.
    destruct (finish_keeps one_ping
                (run_attempts next_iter one_ping "8.8.8.8" "Google" 0 (fun _ => dns_and_socket)))
      as (_ & -> & _).
    unfold run_attempts, attempts_made. simpl map. simpl fold_left.
    rewrite (attempt_step_succeeded next_iter _ _ _ _ Hs).
    unfold initial_worker_state. cbn [result].
    destruct (update_latency_accepted
                (new_DNSResult "8.8.8.8" "Google" 0) 20
                (next_iter {[DNS_QUERY; SOCKET_CONNECT]}) (at_time dns_and_socket) eq_refl)
      as (_ & _ & _ & -> & _).
    simpl. by rewrite (left_id_L ∅ (∪)). }
  split; [exact Hm|]. split; [exact Hr|]. split; [rewrite Hr; apply size_singleton|].
  split.
  - rewrite Ha. vm_compute. reflexivity.
  - unfold _scan_server_multiple, finish. simpl fst. rewrite Hk, Ha.
    rewrite method_names_alphabetical. vm_compute. reflexivity.
Qed.

(** ** A latency of zero *)


(** C6, the failing input.  A Windows ping that prints "Average = 0ms":
    the attempt counts as a success with latency 0.0, [update_latency]
    ignores it, and the stored record has a finite average, 0.0, with no
    successful attempt counted. *)
Theorem zero_latency_breaks_sentinel (next_iter : gset TestMethod -> TestMethod) :
  _measure_ping_latency ping_only true windows_ping_0ms = Some 0
  /\ measured lan_attempt = Some (0, {[ PING ]})
  /\ avg_latency (fst (_scan_server_multiple next_iter ping_only "192.168.1.1" "Router" 0
                         (fun _ => lan_attempt))) = 0
  /\ ping_count (fst (_scan_server_multiple next_iter ping_only "192.168.1.1" "Router" 0
                        (fun _ => lan_attempt))) = 0%nat
  /\ status (fst (_scan_server_multiple next_iter ping_only "192.168.1.1" "Router" 0
                    (fun _ => lan_attempt))) = "OK (Ping) - 1/1"
  /\ sentinel_invariant (fst (_scan_server_multiple next_iter ping_only "192.168.1.1"
                                "Router" 0 (fun _ => lan_attempt))) = false.
Proof.
  assert (Hm : measured lan_attempt = Some (0, {[ PING ]})).
  { unfold lan_attempt, measure_with_probes. simpl measured.
    rewrite measure_server_latency_spec. vm_compute. reflexivity. }
  assert (Hs : succeeded lan_attempt = Some (0, {[ PING ]})).
  { unfold succeeded. rewrite Hm. reflexivity. }
  assert (Hr : fst (_scan_server_multiple next_iter ping_only "192.168.1.1" "Router" 0
                      (fun _ => lan_attempt))
               = {| server := "192.168.1.1"; provider := "Router"; latency := infinity;
                    avg_latency := 0; status := "OK (Ping) - 1/1"; last_updated := 0;
                    ping_count := 0; successful_methods := ∅ |}).
  { unfold _scan_server_multiple, run_attempts, attempts_made. simpl map. simpl fold_left.
    rewrite (attempt_step_succeeded next_iter _ _ _ _ Hs).
    unfold initial_worker_state. cbn [result successful_tests total_latency all_methods fst].
    rewrite (update_latency_rejected _ 0 _ _ eq_refl).
    unfold finish. cbn [result successful_tests total_latency all_methods].
    rewrite method_names_alphabetical. rewrite (left_id_L ∅ (∪)).
    vm_compute. reflexivity. }
  split; [vm_compute; reflexivity|]. split; [exact Hm|].
  rewrite Hr. repeat split.
Qed.

(** ** The live display *)


Lemma live_sort_key_not_nan (x : DNSResult) :
  PyFloat.not_nan (avg_latency x) = true -> PyFloat.not_nan (live_sort_key x) = true.
Proof.
  unfold live_sort_key. by destruct (PyFloat.neqb (avg_latency x) infinity).
Qed.

Lemma live_sort_key_infinite (x : DNSResult) :
  avg_latency x = infinity -> live_sort_key x = 999999.
Proof. unfold live_sort_key. by intros ->. Qed.

Lemma live_sort_key_finite (x : DNSResult) :
  avg_latency x <> infinity -> live_sort_key x = avg_latency x.
Proof.
  unfold live_sort_key, PyFloat.neqb. intros H.
  destruct (avg_latency x =? infinity) eqn:E; [|done].
  by apply eqb_infinity_iff in E.
Qed.

Lemma sorted_results_sorted (results : list (string * DNSResult)) :
  Forall (fun x => PyFloat.not_nan (avg_latency x) = true) (dict_values results) ->
  StronglySorted key_le (sorted_results results).
Proof.
  intros Hnan. unfold sorted_results, py_sorted_by.
  apply (py_sort_sorted _ key_le (fun x => PyFloat.not_nan (avg_latency x) = true)).
  - intros a b c. apply leb_trans.
  - intros a b. apply ltb_leb.
  - intros a b Ha Hb. apply ltb_false_leb; by apply live_sort_key_not_nan.
  - done.
Qed.

Lemma StronglySorted_nth_error {A} (le : A -> A -> Prop) (l : list A) (i j : nat) (a b : A) :
  StronglySorted le l -> (i < j)%nat ->
  nth_error l i = Some a -> nth_error l j = Some b -> le a b.
Proof.
  intros Hs Hij Ha Hb.
  assert (j < length l)%nat by (apply nth_error_Some; congruence).
  rewrite <- (nth_error_nth l i a Ha), <- (nth_error_nth l j a Hb).
  apply StronglySorted_nth; [done | lia].
Qed.

(** X30.  When no average is a NaN, the live table shows the first 15 of the
    records sorted by the key (the average, or 999999 for +inf).  The rows
    followed by the records left out are the records of [results], each
    once; of two of them, the earlier one has the smaller average when both
    are finite, and a failed record comes before no record whose average is
    below 999999. *)
Theorem live_table_order (results : list (string * DNSResult)) :
  Forall (fun x => PyFloat.not_nan (avg_latency x) = true) (dict_values results) ->
  let rows := live_rows results in
  exists left_out,
    Permutation (dict_values results) (rows ++ left_out)
    /\ length rows = Nat.min 15 (length results)
    /\ forall (i j : nat) (a b : DNSResult),
         (i < j)%nat ->
         nth_error (rows ++ left_out) i = Some a ->
         nth_error (rows ++ left_out) j = Some b ->
         (avg_latency a <> infinity -> avg_latency b <> infinity ->
          float_le (avg_latency a) (avg_latency b))
         /\ (avg_latency a = infinity -> (avg_latency b <? 999999) = false).
Proof.
  intros Hnan rows. exists (skipn 15 (sorted_results results)).
  unfold rows, live_rows. rewrite firstn_skipn.
  pose proof (py_sort_perm (fun a b => live_sort_key a <? live_sort_key b)
                (dict_values results)) as Hperm.
  split; [exact Hperm|]. split.
  - rewrite length_firstn. unfold sorted_results, py_sorted_by.
    rewrite <- (Permutation_length Hperm). unfold dict_values. by rewrite length_map.
  - pose proof (sorted_results_sorted results Hnan) as Hs.
    intros i j a b Hij Ha Hb.
    pose proof (StronglySorted_nth_error key_le _ i j a b Hs Hij Ha Hb) as Hle.
    unfold key_le in Hle. split.
    + intros Hfa Hfb.
      by rewrite (live_sort_key_finite a Hfa), (live_sort_key_finite b Hfb) in Hle.
    + intros Hia. rewrite (live_sort_key_infinite a Hia) in Hle.
      destruct (avg_latency b <? 999999) eqn:E; [|done].
      assert (avg_latency b <> infinity) as Hfb by (intros Hb'; rewrite Hb' in E; discriminate).
      rewrite (live_sort_key_finite b Hfb) in Hle.
      apply ltb_leb_false in E. unfold float_le in Hle. congruence.
Qed.

Lemma live_table_order_witness :
  map avg_latency
      (live_rows [("10.0.0.1", failed_record);
                  ("8.8.8.8", update_latency (new_DNSResult "8.8.8.8" "Google" 0) 15 PING 1)])
  = [15; infinity]
  /\ length (live_rows [("10.0.0.1", failed_record);
                        ("8.8.8.8", update_latency (new_DNSResult "8.8.8.8" "Google" 0)
                                      15 PING 1)]) = 2%nat.
Proof.
  split; [vm_compute; reflexivity|].
  destruct (live_table_order
              [("10.0.0.1", failed_record);
               ("8.8.8.8", update_latency (new_DNSResult "8.8.8.8" "Google" 0) 15 PING 1)])
    as (left_out & _ & Hlen & _); [repeat constructor|].
  exact Hlen.
Defined.

Section SlowServer.
Variable next_iter : gset TestMethod -> TestMethod.

(** A scan that stores a successful attempt stores its latency as the
    average when it is the only attempt. *)
Lemma single_attempt_average (srv prov : string) (a : attempt) (lat : float)
    (methods : gset TestMethod) :
  succeeded a = Some (lat, methods) ->
  avg_latency (fst (_scan_server_multiple next_iter ping_only srv prov 0 (fun _ => a)))
  = (0 + lat) / 1.
Proof.
  intros Hs. unfold _scan_server_multiple, run_attempts, attempts_made.
  simpl map. simpl fold_left. rewrite (attempt_step_succeeded next_iter _ _ _ _ Hs).
  unfold finish, initial_worker_state.
  cbn [result successful_tests total_latency all_methods fst Nat.ltb Nat.leb avg_latency].
  reflexivity.
Qed.

Lemma single_attempt_failed (srv prov : string) (a : attempt) :
  succeeded a = None ->
  avg_latency (fst (_scan_server_multiple next_iter ping_only srv prov 0 (fun _ => a)))
  = infinity.
Proof.
  intros Hs. unfold _scan_server_multiple, run_attempts, attempts_made.
  simpl map. simpl fold_left. rewrite (attempt_step_failed next_iter _ _ Hs).
  reflexivity.
Qed.

(** C9, the failing input.  The echo probe reads a round trip of
    1000000 ms from the ping utility and returns it, and the worker stores
    it as the average of that server; another server does not answer and
    keeps the average +inf.  Sorted for the live display, the failed
    server comes first and the server with the finite average after it. *)
Theorem failed_server_listed_before_slow :
  let slow := fst (_scan_server_multiple next_iter ping_only "10.0.0.2" "Slow" 0
                     (fun _ => slow_attempt)) in
  let down := fst (_scan_server_multiple next_iter ping_only "10.0.0.1" "Down" 0
                     (fun _ => no_reply_attempt)) in
  _measure_ping_latency ping_only false posix_ping_1000000 = Some 1000000
  /\ _measure_ping_latency ping_only false posix_ping_no_reply = None
  /\ avg_latency slow = 1000000
  /\ is_finite (avg_latency slow) = true
  /\ avg_latency down = infinity
  /\ sorted_results (dict_set "10.0.0.1" down (dict_set "10.0.0.2" slow []))
     = [down; slow].
Proof.
  intros slow down.
  assert (Hms : succeeded slow_attempt = Some (1000000, {[ PING ]})).
  { unfold succeeded, slow_attempt, measure_with_probes. simpl measured.
    rewrite measure_server_latency_spec. vm_compute. reflexivity. }
  assert (Hmd : succeeded no_reply_attempt = None).
  { unfold succeeded, no_reply_attempt, measure_with_probes. simpl measured.
    rewrite measure_server_latency_spec. vm_compute. reflexivity. }
  assert (Hslow : avg_latency slow = 1000000).
  { unfold slow. rewrite (single_attempt_average _ _ _ _ _ Hms). vm_compute. reflexivity. }
  assert (Hdown : avg_latency down = infinity).
  { unfold down. by rewrite (single_attempt_failed _ _ _ Hmd). }
  split; [vm_compute; reflexivity|]. split; [vm_compute; reflexivity|].
  split; [exact Hslow|]. split; [rewrite Hslow; vm_compute; reflexivity|].
  split; [exact Hdown|].
  unfold sorted_results, py_sorted_by. cbn [dict_set String.eqb Ascii.eqb Bool.eqb].
  cbn [dict_values map snd py_sort insert_sorted].
  unfold live_sort_key. rewrite Hslow, Hdown. vm_compute. reflexivity.
Qed.

End SlowServer.

(** ** The matcher and the language of a pattern *)

Section IpRegexFacts.
#[local] Open Scope nat_scope.

Lemma string_app_cons (x : ascii) (a b : string) :
  (String x a ++ b)%string = String x (a ++ b)%string.
Proof. reflexivity. Qed.

Lemma string_app_nil_l (b : string) : ("" ++ b)%string = b.
Proof. reflexivity. Qed.

Lemma string_app_assoc (a b c : string) : ((a ++ b) ++ c = a ++ (b ++ c))%string.
Proof.
  induction a as [|x a IH]; [reflexivity|].
  rewrite !string_app_cons. f_equal. exact IH.
Qed.

Lemma string_app_nil_r (a : string) : (a ++ "")%string = a.
Proof.
  induction a as [|x a IH]; [reflexivity|].
  rewrite string_app_cons. f_equal. exact IH.
Qed.

Lemma matches_flag_blind (r : Re.regex) :
  Re.anchor_free r = true ->
  forall k, Re.flag_blind k -> forall b s, Re.matches r (b, s) k = Re.matches r (false, s) k.
Proof.
  induction r as [c|lo hi|c1 c2|r1 IH1 r2 IH2|r1 IH1 r2 IH2|r IH| |];
    simpl; intros Hf k Hk b s; try done.
  - apply andb_prop in Hf as [Hf1 Hf2].
    apply IH1; [done|]. intros b' s'. by apply IH2.
  - apply andb_prop in Hf as [Hf1 Hf2].
    by rewrite (IH1 Hf1 k Hk b s), (IH2 Hf2 k Hk b s).
  - by rewrite (IH Hf k Hk b s), (Hk b s).
Qed.

Lemma matches_lang (r : Re.regex) :
  Re.anchor_free r = true ->
  forall k, Re.flag_blind k -> forall b s,
    Re.matches r (b, s) k = true
    <-> exists s1 s2, s = (s1 ++ s2)%string /\ Re.lang r s1 /\ k (false, s2) = true.
Proof.
  induction r as [c|lo hi|c1 c2|r1 IH1 r2 IH2|r1 IH1 r2 IH2|r IH| |];
    simpl; intros Hf k Hk b s; try done.
  - destruct s as [|c' rest]; simpl.
    + split; [done|]. intros (s1 & s2 & Hs & -> & _). discriminate.
    + rewrite andb_true_iff. split.
      * intros [Hc Hr]. apply Ascii.eqb_eq in Hc as ->.
        by exists (String c' ""), rest.
      * intros (s1 & s2 & Hs & -> & Hr). rewrite string_app_cons, string_app_nil_l in Hs. injection Hs as -> ->.
        split; [apply Ascii.eqb_refl | done].
  - destruct s as [|c' rest]; simpl.
    + split; [done|]. intros (s1 & s2 & Hs & (c & -> & _) & _). discriminate.
    + rewrite andb_true_iff. split.
      * intros [Hc Hr]. exists (String c' ""), rest. eauto.
      * intros (s1 & s2 & Hs & (c & -> & Hc) & Hr). rewrite string_app_cons, string_app_nil_l in Hs. injection Hs as -> ->.
        done.
  - destruct s as [|c' rest]; simpl.
    + split; [done|]. intros (s1 & s2 & Hs & [-> | ->] & _); discriminate.
    + rewrite andb_true_iff, orb_true_iff, !Ascii.eqb_eq. split.
      * intros [[-> | ->] Hr]; exists (String c' ""), rest; eauto.
      * intros (s1 & s2 & Hs & [-> | ->] & Hr); rewrite string_app_cons, string_app_nil_l in Hs; injection Hs as -> ->; eauto.
  - apply andb_prop in Hf as [Hf1 Hf2].
    rewrite (IH1 Hf1 (fun p' => Re.matches r2 p' k)); last first.
    { intros b' s'. by apply matches_flag_blind. }
    split.
    + intros (s1 & s2 & -> & H1 & H2). apply (IH2 Hf2 k Hk) in H2 as (s3 & s4 & -> & H3 & H4).
      exists (s1 ++ s3)%string, s4. rewrite string_app_assoc. eauto 10.
    + intros (s12 & s4 & -> & (s1 & s3 & -> & H1 & H3) & H4).
      exists s1, (s3 ++ s4)%string. rewrite string_app_assoc. split; [done|]. split; [done|].
      apply (IH2 Hf2 k Hk). eauto.
  - apply andb_prop in Hf as [Hf1 Hf2].
    rewrite orb_true_iff, (IH1 Hf1 k Hk), (IH2 Hf2 k Hk). split.
    + intros [(s1 & s2 & ? & ? & ?) | (s1 & s2 & ? & ? & ?)]; exists s1, s2; eauto.
    + intros (s1 & s2 & ? & [?|?] & ?); [left|right]; exists s1, s2; eauto.
  - rewrite orb_true_iff, (IH Hf k Hk), (Hk b s). split.
    + intros [(s1 & s2 & ? & ? & ?) | ?]; [exists s1, s2; eauto | exists ""%string, s; eauto].
    + intros (s1 & s2 & Hs & [-> | ?] & ?); [right; by subst | left; exists s1, s2; eauto].
Qed.

(** ** Characters and decimal groups *)

Lemma ascii_of_code (c : ascii) (n : nat) : nat_of_ascii c = n -> c = ascii_of_nat n.
Proof. intros <-. symmetry. apply ascii_nat_embedding. Qed.

Lemma is_digit_code (c : ascii) :
  PyStr.is_digit c = true <-> (48 <= nat_of_ascii c <= 57)%nat.
Proof. unfold PyStr.is_digit. rewrite andb_true_iff, !Nat.leb_le. done. Qed.

Lemma in_range_code (lo hi c : ascii) :
  Re.in_range lo hi c = true <-> (nat_of_ascii lo <= nat_of_ascii c <= nat_of_ascii hi)%nat.
Proof. unfold Re.in_range. rewrite andb_true_iff, !Nat.leb_le. done. Qed.

Lemma digits_value_cons (acc : Z) (c : ascii) (s : string) :
  PyStr.is_digit c = true ->
  PyStr.digits_value acc (String c s)
  = PyStr.digits_value (10 * acc + PyStr.digit_value c) s.
Proof. simpl. by intros ->. Qed.

Lemma octet_shape (s : string) : octet s <-> group_shape s.
Proof.
  unfold octet, group_shape, all_digits. split.
  - intros (Hlen & Hd & n & Hn & Hr).
    destruct s as [|c1 [|c2 [|c3 [|c4 s]]]]; simpl in Hlen; try lia.
    + left. exists c1. simpl in Hd. rewrite andb_true_r in Hd. done.
    + right; left. exists c1, c2. simpl in Hd.
      apply andb_prop in Hd as [H1 H2]. rewrite andb_true_r in H2. done.
    + right; right. exists c1, c2, c3. simpl in Hd.
      apply andb_prop in Hd as [H1 H2]. apply andb_prop in H2 as [H2 H3].
      rewrite andb_true_r in H3.
      rewrite !digits_value_cons in Hn by done. simpl in Hn. injection Hn as <-.
      repeat split; try done. lia.
  - intros [(c1 & -> & H1) | [(c1 & c2 & -> & H1 & H2) | (c1 & c2 & c3 & -> & H1 & H2 & H3 & Hv)]].
    + split; [simpl; lia|]. split; [simpl; by rewrite H1|].
      rewrite digits_value_cons by done. simpl. eexists; split; [done|].
      apply is_digit_code in H1. unfold PyStr.digit_value. lia.
    + split; [simpl; lia|]. split; [simpl; by rewrite H1, H2|].
      rewrite !digits_value_cons by done. simpl. eexists; split; [done|].
      apply is_digit_code in H1, H2. unfold PyStr.digit_value. lia.
    + split; [simpl; lia|]. split; [simpl; by rewrite H1, H2, H3|].
      rewrite !digits_value_cons by done. simpl. eexists; split; [done|].
      apply is_digit_code in H1, H2, H3. unfold PyStr.digit_value in *. lia.
Qed.

(** The code of a character that is written out. *)
Ltac const_codes :=
  repeat match goal with
    | |- context [nat_of_ascii (Ascii ?a ?b ?c ?d ?e ?f ?g ?h)] =>
        let v := eval vm_compute in (nat_of_ascii (Ascii a b c d e f g h)) in
        change (nat_of_ascii (Ascii a b c d e f g h)) with v
    | H : context [nat_of_ascii (Ascii ?a ?b ?c ?d ?e ?f ?g ?h)] |- _ =>
        let v := eval vm_compute in (nat_of_ascii (Ascii a b c d e f g h)) in
        change (nat_of_ascii (Ascii a b c d e f g h)) with v in H
    end.

Ltac char_codes :=
  repeat match goal with
    | H : Re.in_range _ _ _ = true |- _ => apply in_range_code in H
    | H : PyStr.is_digit _ = true |- _ => apply is_digit_code in H
    end;
  const_codes.

Lemma lang_octet_shape (s : string) : Re.lang OCTET s -> group_shape s.
Proof.
  unfold OCTET. simpl.
  intros [H | [H | H]].
  - destruct H as (s1 & s2 & -> & -> & s3 & s4 & -> & -> & c & -> & Hc).
    right; right. exists "2"%char, "5"%char, c.
    char_codes. rewrite !is_digit_code. unfold PyStr.digit_value. simpl.
    const_codes. repeat split; lia.
  - destruct H as (s1 & s2 & -> & -> & s3 & s4 & -> & (c2 & -> & Hc2) & c3 & -> & Hc3).
    right; right. exists "2"%char, c2, c3.
    char_codes. rewrite !is_digit_code. unfold PyStr.digit_value. const_codes.
    repeat split; lia.
  - destruct H as (s1 & s2 & -> & Hopt & s3 & s4 & -> & (c & -> & Hc) & Hopt2).
    char_codes.
    destruct Hopt as [-> | [-> | ->]], Hopt2 as [-> | (c' & -> & Hc')]; char_codes.
    + left. exists c. rewrite is_digit_code. split; [done | lia].
    + right; left. exists c, c'. rewrite !is_digit_code. repeat split; lia.
    + right; left. exists "0"%char, c. rewrite !is_digit_code. const_codes. repeat split; lia.
    + right; right. exists "0"%char, c, c'. rewrite !is_digit_code.
      unfold PyStr.digit_value. const_codes. repeat split; lia.
    + right; left. exists "1"%char, c. rewrite !is_digit_code. const_codes. repeat split; lia.
    + right; right. exists "1"%char, c, c'. rewrite !is_digit_code.
      unfold PyStr.digit_value. const_codes. repeat split; lia.
Qed.

Lemma shape_lang_octet (s : string) : group_shape s -> Re.lang OCTET s.
Proof.
  unfold OCTET. simpl.
  intros [(c1 & -> & H1) | [(c1 & c2 & -> & H1 & H2) | (c1 & c2 & c3 & -> & H1 & H2 & H3 & Hv)]].
  - right; right. exists ""%string, (String c1 ""). split; [done|]. split; [by left|].
    exists (String c1 ""), ""%string. split; [done|]. split; [|by left].
    exists c1. split; [done|]. apply in_range_code. const_codes. by apply is_digit_code.
  - right; right. exists ""%string, (String c1 (String c2 "")). split; [done|].
    split; [by left|].
    exists (String c1 ""), (String c2 ""). split; [done|]. split.
    + exists c1. split; [done|]. apply in_range_code. const_codes. by apply is_digit_code.
    + right. exists c2. split; [done|]. apply in_range_code. const_codes. by apply is_digit_code.
  - pose proof H1 as D1. pose proof H2 as D2. pose proof H3 as D3.
    apply is_digit_code in H1, H2, H3. unfold PyStr.digit_value in Hv.
    destruct (decide (nat_of_ascii c1 <= 49)%nat) as [Hlow | Hhigh].
    + right; right. exists (String c1 ""), (String c2 (String c3 "")). split; [done|].
      split.
      * right. destruct (decide (nat_of_ascii c1 = 48)) as [E | E].
        -- left. by rewrite (ascii_of_code c1 48 E).
        -- right. assert (nat_of_ascii c1 = 49) as E' by lia.
           by rewrite (ascii_of_code c1 49 E').
      * exists (String c2 ""), (String c3 ""). split; [done|]. split.
        -- exists c2. split; [done|]. apply in_range_code. const_codes. lia.
        -- right. exists c3. split; [done|]. apply in_range_code. const_codes. lia.
    + assert (nat_of_ascii c1 = 50) as E1 by lia.
      rewrite (ascii_of_code c1 50 E1).
      destruct (decide (nat_of_ascii c2 <= 52)%nat) as [Hlow2 | Hhigh2].
      * right; left. exists "2"%string, (String c2 (String c3 "")). split; [done|].
        split; [done|].
        exists (String c2 ""), (String c3 ""). split; [done|]. split.
        -- exists c2. split; [done|]. apply in_range_code. const_codes. lia.
        -- exists c3. split; [done|]. apply in_range_code. const_codes. lia.
      * assert (nat_of_ascii c2 = 53) as E2 by lia.
        rewrite (ascii_of_code c2 53 E2).
        left. exists "2"%string, (String "5" (String c3 "")). split; [done|].
        split; [done|].
        exists "5"%string, (String c3 ""). split; [done|]. split; [done|].
        exists c3. split; [done|]. apply in_range_code. const_codes. lia.
Qed.

Lemma lang_octet (s : string) : Re.lang OCTET s <-> octet s.
Proof.
  rewrite octet_shape. split; [apply lang_octet_shape | apply shape_lang_octet].
Qed.

(** ** Four groups separated by dots *)

Lemma lang_quad (o : Re.regex) (s : string) :
  Re.lang (Re.Seq (Re.times3 (Re.Seq o (Re.Lit "."))) o) s
  <-> exists a b c d,
        Re.lang o a /\ Re.lang o b /\ Re.lang o c /\ Re.lang o d
        /\ s = (a ++ "." ++ b ++ "." ++ c ++ "." ++ d)%string.
Proof.
  unfold Re.times3. simpl. split.
  - intros (s123 & d & -> & (s1 & s23 & -> & (a & p1 & -> & Ha & ->)
                             & (s2 & s3 & -> & (b & p2 & -> & Hb & ->)
                                & (c & p3 & -> & Hc & ->))) & Hd).
    exists a, b, c, d. repeat split; try done.
    rewrite !string_app_assoc. reflexivity.
  - intros (a & b & c & d & Ha & Hb & Hc & Hd & ->).
    exists (a ++ "." ++ b ++ "." ++ c ++ ".")%string, d. split.
    { rewrite !string_app_assoc. reflexivity. }
    split; [|done].
    exists (a ++ ".")%string, (b ++ "." ++ c ++ ".")%string. split.
    { rewrite !string_app_assoc. reflexivity. }
    split; [by exists a, "."%string|].
    exists (b ++ ".")%string, (c ++ ".")%string. split.
    { rewrite !string_app_assoc. reflexivity. }
    split; [by exists b, "."%string | by exists c, "."%string].
Qed.

Lemma at_end_iff (rest : string) :
  Re.at_end rest = true <-> rest = ""%string \/ rest = newline.
Proof.
  unfold Re.at_end, newline. destruct rest as [|c [|c' rest]].
  - split; [by left | done].
  - rewrite Ascii.eqb_eq. split; [intros ->; by right | intros [? | [= ->]]; done].
  - split; [done | intros [? | ?]; done].
Qed.

Lemma anchor_free_OCTET : Re.anchor_free OCTET = true.
Proof. reflexivity. Qed.

(** What [IP_REGEX.match] accepts, in terms of the language of [OCTET]. *)
Lemma is_valid_ip_lang (ip : string) :
  is_valid_ip ip = true
  <-> exists q rest,
        ip = (q ++ rest)%string
        /\ Re.lang (Re.Seq (Re.times3 (Re.Seq OCTET (Re.Lit "."))) OCTET) q
        /\ Re.at_end rest = true.
Proof.
  unfold is_valid_ip, Re.py_match, IP_REGEX.
  change (Re.matches (Re.Seq Re.Bol ?r) (true, ip) ?k) with (Re.matches r (true, ip) k).
  set (k2 := fun p : Re.pos => Re.at_end (snd p) && true).
  assert (Hk2 : Re.flag_blind k2) by (intros b s; reflexivity).
  set (T3 := Re.times3 (Re.Seq OCTET (Re.Lit "."))).
  assert (HT3 : Re.anchor_free T3 = true) by reflexivity.
  change (Re.matches (Re.Seq T3 (Re.Seq OCTET Re.Eol)) (true, ip) (fun _ => true))
    with (Re.matches T3 (true, ip) (fun p' => Re.matches OCTET p' k2)).
  rewrite (matches_lang T3 HT3 (fun p' => Re.matches OCTET p' k2)); last first.
  { intros b s. by apply matches_flag_blind. }
  split.
  - intros (s1 & s2 & -> & H1 & H2).
    apply (matches_lang OCTET anchor_free_OCTET k2 Hk2) in H2 as (s3 & s4 & -> & H3 & H4).
    exists (s1 ++ s3)%string, s4. rewrite string_app_assoc. split; [done|]. split.
    + simpl. eauto.
    + unfold k2 in H4. simpl in H4. by rewrite andb_true_r in H4.
  - intros (q & rest & -> & Hq & Hrest). simpl in Hq.
    destruct Hq as (s1 & s3 & -> & H1 & H3).
    exists s1, (s3 ++ rest)%string. rewrite string_app_assoc. split; [done|]. split; [done|].
    apply (matches_lang OCTET anchor_free_OCTET k2 Hk2).
    exists s3, rest. split; [done|]. split; [done|].
    unfold k2. simpl. by rewrite Hrest.
Qed.

(** What [is_valid_ip] accepts is a dotted quad, or one followed by a line
    feed. *)
Lemma is_valid_ip_shape (ip : string) :
  is_valid_ip ip = true ->
  dotted_quad ip \/ exists q, dotted_quad q /\ ip = (q ++ newline)%string.
Proof.
  rewrite is_valid_ip_lang. unfold dotted_quad.
  intros (q & rest & -> & Hq & Hrest).
  apply lang_quad in Hq as (a & b & c & d & Ha & Hb & Hc & Hd & ->).
  apply lang_octet in Ha, Hb, Hc, Hd.
  apply at_end_iff in Hrest as [-> | ->].
  - left. rewrite string_app_nil_r. eauto 10.
  - right. eexists. split; [|reflexivity]. eauto 10.
Qed.

(** A dotted quad is made of digits and dots. *)
Lemma octet_chars (s : string) :
  octet s -> forallb quad_char (list_ascii_of_string s) = true.
Proof.
  intros (_ & Hd & _). unfold all_digits in Hd.
  rewrite forallb_forall in *. intros c Hc. unfold quad_char. by rewrite (Hd c Hc).
Qed.

Lemma list_ascii_app (a b : string) :
  list_ascii_of_string (a ++ b)%string = (list_ascii_of_string a ++ list_ascii_of_string b)%list.
Proof.
  induction a as [|x a IH]; [reflexivity|].
  rewrite string_app_cons. simpl. by rewrite IH.
Qed.

Lemma dotted_quad_chars (s : string) :
  dotted_quad s -> forallb quad_char (list_ascii_of_string s) = true.
Proof.
  intros (a & b & c & d & Ha & Hb & Hc & Hd & ->).
  rewrite !list_ascii_app, !forallb_app.
  rewrite (octet_chars a Ha), (octet_chars b Hb), (octet_chars c Hc), (octet_chars d Hd).
  reflexivity.
Qed.

(** X1.  [is_valid_ip] accepts exactly the dotted quads, and the dotted quads
    followed by one line feed: [$] without [re.MULTILINE] also matches just
    before a line feed that ends the string. *)
Theorem is_valid_ip_accepts (ip : string) :
  is_valid_ip ip = true
  <-> dotted_quad ip \/ exists q, dotted_quad q /\ ip = (q ++ newline)%string.
Proof.
  split; [apply is_valid_ip_shape|].
  rewrite is_valid_ip_lang. unfold dotted_quad.
  intros [(a & b & c & d & Ha & Hb & Hc & Hd & ->)
         | (q & (a & b & c & d & Ha & Hb & Hc & Hd & ->) & ->)];
    apply lang_octet in Ha, Hb, Hc, Hd.
  - eexists _, ""%string. rewrite string_app_nil_r. split; [reflexivity|].
    split; [|done]. apply lang_quad. eauto 10.
  - eexists _, newline. split; [reflexivity|].
    split; [|done]. apply lang_quad. eauto 10.
Qed.

(** A dotted quad followed by a line feed is accepted, and is not a dotted
    quad; the examples of the test suite. *)
Lemma trailing_newline_is_accepted :
  is_valid_ip ("8.8.8.8" ++ newline)%string = true
  /\ ~ dotted_quad ("8.8.8.8" ++ newline)%string
  /\ is_valid_ip "255.255.255.255" = true
  /\ is_valid_ip "256.1.1.1" = false
  /\ is_valid_ip "1.2.3" = false.
Proof.
  split; [vm_compute; reflexivity|]. split; [|vm_compute; repeat split].
  intros H%dotted_quad_chars. vm_compute in H. discriminate.
Qed.

End IpRegexFacts.

(** ** The scheduler *)

Module SchedFacts.
Import Sched SchedInv.
#[local] Open Scope nat_scope.

Section Select.
Variable P : job -> wpc -> bool.

Lemma select_insert_same (jobs : list job) (ws : list wpc) i j pc pc' :
  jobs !! i = Some j -> ws !! i = Some pc -> P j pc' = P j pc ->
  select P jobs (<[ i := pc' ]> ws) = select P jobs ws.
Proof.
  revert ws i. induction jobs as [|j0 jobs IH]; intros [|pc0 ws] [|i]; simpl;
    try discriminate; try reflexivity.
  - intros [= ->] [= ->] ->. reflexivity.
  - intros Hj Hpc HP. rewrite (IH ws i Hj Hpc HP). reflexivity.
Qed.

Lemma select_insert_new (jobs : list job) (ws : list wpc) i j pc pc' :
  jobs !! i = Some j -> ws !! i = Some pc -> P j pc = false -> P j pc' = true ->
  length (select P jobs (<[ i := pc' ]> ws)) = S (length (select P jobs ws))
  /\ forall x, In x (select P jobs (<[ i := pc' ]> ws))
               <-> x = j \/ In x (select P jobs ws).
Proof.
  revert ws i. induction jobs as [|j0 jobs IH]; intros [|pc0 ws] [|i]; simpl;
    try discriminate.
  - intros [= ->] [= ->] -> ->. split; [reflexivity|].
    intros x. simpl. intuition congruence.
  - intros Hj Hpc H0 H1. destruct (IH ws i Hj Hpc H0 H1) as [IHl IHi].
    destruct (P j0 pc0); simpl; rewrite ?IHl; split; try reflexivity.
    + intros x. rewrite IHi. tauto.
    + exact IHi.
Qed.

Lemma select_other (jobs : list job) (ws : list wpc) i j pc pc' :
  jobs !! i = Some j -> ws !! i = Some pc -> P j pc = false -> P j pc' = false ->
  select P jobs (<[ i := pc' ]> ws) = select P jobs ws.
Proof. intros Hj Hpc H0 H1. apply (select_insert_same jobs ws i j pc pc' Hj Hpc). congruence. Qed.

Lemma In_select (jobs : list job) (ws : list wpc) x :
  In x (select P jobs ws) -> In x jobs.
Proof.
  revert ws. induction jobs as [|j0 jobs IH]; intros [|pc0 ws]; simpl; try tauto.
  destruct (P j0 pc0); simpl; intros H; [destruct H as [H | H]|]; eauto.
Qed.

Lemma select_NoDup (jobs : list job) (ws : list wpc) :
  NoDup (map job_server jobs) -> NoDup (map job_server (select P jobs ws)).
Proof.
  revert ws. induction jobs as [|j0 jobs IH]; intros [|pc0 ws]; simpl;
    intros H; try constructor.
  apply NoDup_cons in H as [Hn Hd].
  destruct (P j0 pc0); simpl; [|by apply IH].
  apply NoDup_cons. split; [|by apply IH].
  intros Hin. apply Hn. apply list_elem_of_In in Hin. apply list_elem_of_In.
  apply in_map_iff in Hin as (x & Hx & Hin). apply in_map_iff.
  exists x. split; [done|]. eapply In_select, Hin.
Qed.
End Select.

(** Two selections that agree on every worker's position are equal. *)
Lemma select_ext (P Q : job -> wpc -> bool) (jobs : list job) (ws : list wpc) :
  (forall i j pc, jobs !! i = Some j -> ws !! i = Some pc -> P j pc = Q j pc) ->
  select P jobs ws = select Q jobs ws.
Proof.
  revert ws. induction jobs as [|j0 jobs IH]; intros [|pc0 ws] H; simpl; try reflexivity.
  rewrite (H 0 j0 pc0 eq_refl eq_refl), (IH ws); [reflexivity|].
  intros i j pc Hj Hpc. exact (H (S i) j pc Hj Hpc).
Qed.

Lemma select_split (P : wpc -> bool) (jobs : list job) (ws : list wpc) :
  length (select (fun j pc => P pc && job_ok j) jobs ws)
  + length (select (fun j pc => P pc && negb (job_ok j)) jobs ws)
  = length (select (fun _ pc => P pc) jobs ws).
Proof.
  revert ws. induction jobs as [|j0 jobs IH]; intros [|pc0 ws]; simpl; try reflexivity.
  specialize (IH ws). destruct (P pc0), (job_ok j0); simpl; lia.
Qed.

(** ** Dictionaries *)

Lemma dict_set_keys {V : Type} (k : string) (v : V) (d : list (string * V)) :
  forall x, In x (dict_keys (dict_set k v d)) <-> x = k \/ In x (dict_keys d).
Proof.
  unfold dict_keys. induction d as [|[k' v'] d IH]; intros x; simpl.
  - intuition.
  - destruct (String.eqb_spec k k') as [-> | Hne]; simpl.
    + intuition.
    + rewrite IH. intuition.
Qed.

Lemma dict_set_NoDup {V : Type} (k : string) (v : V) (d : list (string * V)) :
  NoDup (dict_keys d) -> NoDup (dict_keys (dict_set k v d)).
Proof.
  unfold dict_keys. induction d as [|[k' v'] d IH]; simpl; intros H.
  - apply NoDup_cons. split; [apply not_elem_of_nil | constructor].
  - apply NoDup_cons in H as [Hn Hd].
    destruct (String.eqb_spec k k') as [-> | Hne]; simpl.
    + apply NoDup_cons. done.
    + apply NoDup_cons. split; [|by apply IH].
      intros Hin. apply list_elem_of_In in Hin.
      apply (dict_set_keys k v d) in Hin as [Hin | Hin]; [congruence|].
      apply Hn. by apply list_elem_of_In.
Qed.

Lemma select_insert_length (P : job -> wpc -> bool) (jobs : list job) (ws : list wpc)
    i j pc pc' :
  jobs !! i = Some j -> ws !! i = Some pc ->
  length (select P jobs (<[ i := pc' ]> ws)) + (if P j pc then 1 else 0)
  = length (select P jobs ws) + (if P j pc' then 1 else 0).
Proof.
  revert ws i. induction jobs as [|j0 jobs IH]; intros [|pc0 ws] [|i]; simpl;
    try discriminate.
  - intros [= ->] [= ->]. destruct (P j pc), (P j pc'); simpl; lia.
  - intros Hj Hpc. specialize (IH ws i Hj Hpc). destruct (P j0 pc0); simpl; lia.
Qed.

Lemma select_init (P : job -> wpc -> bool) (jobs : list job) :
  (forall j, P j W_wait_slot = false) ->
  select P jobs (map (fun _ => W_wait_slot) jobs) = [].
Proof.
  intros HP. induction jobs as [|j0 jobs IH]; simpl; [reflexivity|].
  by rewrite HP.
Qed.

Lemma lookup_init (jobs : list job) i pc :
  map (fun _ : job => W_wait_slot) jobs !! i = Some pc -> pc = W_wait_slot.
Proof.
  revert i. induction jobs as [|j0 jobs IH]; intros [|i]; simpl; try discriminate.
  - by intros [= <-].
  - apply IH.
Qed.

(** ** The invariant of the event loop *)

Lemma init_invariant (max_workers : nat) (jobs : list job) :
  invariant jobs (init max_workers jobs).
Proof.
  constructor; unfold init; cbn [workers successful failed scanned current
    reporter lock results observed].
  - apply length_map.
  - by rewrite select_init.
  - by rewrite select_init.
  - by rewrite select_init.
  - intros i pc Hpc Hrun. apply lookup_init in Hpc as ->. discriminate.
  - discriminate.
  - reflexivity.
  - intros k. by rewrite select_init.
  - constructor.
  - constructor.
Qed.

(** The running worker moves from [pc] to [pc']. *)
Lemma worker_moves (jobs : list job) (s s' : state) i j pc pc' :
  invariant jobs s ->
  jobs !! i = Some j -> workers s !! i = Some pc -> current s = Some (Worker i) ->
  workers s' = <[ i := pc' ]> (workers s) ->
  reporter s' = reporter s ->
  observed s' = observed s ->
  successful s' + (if counted pc && job_ok j then 1 else 0)
  = successful s + (if counted pc' && job_ok j then 1 else 0) ->
  failed s' + (if counted pc && negb (job_ok j) then 1 else 0)
  = failed s + (if counted pc' && negb (job_ok j) then 1 else 0) ->
  scanned s' + (if tallied pc then 1 else 0)
  = scanned s + (if tallied pc' then 1 else 0) ->
  current s' = Some (Worker i) \/ (current s' = None /\ running pc' = false) ->
  lock s' = (if holding pc' then Some (Worker i) else None) ->
  (results s' = results s /\ stored pc' = stored pc)
  \/ (results s' = dict_set (job_server j) (job_result j) (results s)
      /\ stored pc = false /\ stored pc' = true) ->
  invariant jobs s'.
Proof.
  intros [Hlen HS HF HC Hrun Hrp Hlk Hkeys Hnd Hob]
    Hj Hpc Hcur Hws Hrep Hobs Hsucc Hfail Hscan Hcurrent Hlock Hres.
  pose proof (lookup_lt_Some _ _ _ Hpc) as Hi.
  constructor.
  - by rewrite Hws, length_insert.
  - rewrite Hws.
    pose proof (select_insert_length (fun j pc => counted pc && job_ok j)
                  jobs (workers s) i j pc pc' Hj Hpc) as H.
    cbv beta in H. lia.
  - rewrite Hws.
    pose proof (select_insert_length (fun j pc => counted pc && negb (job_ok j))
                  jobs (workers s) i j pc pc' Hj Hpc) as H.
    cbv beta in H. lia.
  - rewrite Hws.
    pose proof (select_insert_length (fun _ pc => tallied pc)
                  jobs (workers s) i j pc pc' Hj Hpc) as H.
    cbv beta in H. lia.
  - intros k pck Hk Hr. rewrite Hws in Hk.
    apply list_lookup_insert_Some in Hk as [(<- & <- & _) | (Hne & Hk)].
    + destruct Hcurrent as [-> | [_ Hnr]]; [done | congruence].
    + specialize (Hrun k pck Hk Hr). congruence.
  - rewrite Hrep. intros Hr. specialize (Hrp Hr). congruence.
  - unfold holder. rewrite Hlock. destruct Hcurrent as [-> | [-> Hnr]].
    + by rewrite Hws, list_lookup_insert_eq.
    + by destruct pc'.
  - destruct Hres as [[-> Hst] | (-> & Hst & Hst')].
    + rewrite Hws.
      by rewrite (select_insert_same (fun _ pc => stored pc) jobs _ i j pc pc' Hj Hpc Hst).
    + intros k. rewrite dict_set_keys, Hws.
      destruct (select_insert_new (fun _ pc => stored pc) jobs (workers s)
                  i j pc pc' Hj Hpc Hst Hst') as [_ Hin].
      rewrite Hkeys, !in_map_iff. split.
      * intros [-> | (x & Hx & Hxin)].
        -- exists j. split; [done|]. apply Hin. by left.
        -- exists x. split; [done|]. apply Hin. by right.
      * intros (x & Hx & Hxin). apply Hin in Hxin as [-> | Hxin]; [by left|].
        right. by exists x.
  - destruct Hres as [[-> _] | (-> & _)]; [done | by apply dict_set_NoDup].
  - by rewrite Hobs.
Qed.

(** A worker that stands where it may be suspended leaves the lock free. *)
Lemma worker_lock (jobs : list job) (s : state) i pc :
  invariant jobs s -> workers s !! i = Some pc -> current s = Some (Worker i) ->
  lock s = if holding pc then Some (Worker i) else None.
Proof.
  intros Hinv Hpc Hcur. rewrite (inv_lock _ _ Hinv). unfold holder.
  by rewrite Hcur, Hpc.
Qed.

Lemma worker_step_invariant (jobs : list job) (s s' : state) i j pc :
  invariant jobs s ->
  jobs !! i = Some j -> workers s !! i = Some pc -> current s = Some (Worker i) ->
  worker_step i j pc s = Some s' ->
  invariant jobs s'.
Proof.
  intros Hinv Hj Hpc Hcur Hstep.
  pose proof (worker_lock jobs s i pc Hinv Hpc Hcur) as Hlock.
  pose proof (list_insert_id _ _ _ Hpc) as Hid.
  destruct pc as [|awaits| | | | | |]; cbn [worker_step] in Hstep;
    cbn [holding] in Hlock.
  - destruct (slots s); injection Hstep as <-.
    + apply (worker_moves jobs s _ i j W_wait_slot W_wait_slot Hinv Hj Hpc Hcur);
        cbn; rewrite ?Hid; auto.
    + apply (worker_moves jobs s _ i j W_wait_slot (W_probing (job_awaits j))
               Hinv Hj Hpc Hcur);
        cbn; auto.
  - destruct awaits as [|awaits]; injection Hstep as <-.
    + apply (worker_moves jobs s _ i j (W_probing 0) W_count Hinv Hj Hpc Hcur);
        cbn; auto.
    + apply (worker_moves jobs s _ i j (W_probing (S awaits)) (W_probing awaits)
               Hinv Hj Hpc Hcur);
        cbn; auto.
  - injection Hstep as <-.
    apply (worker_moves jobs s _ i j W_count W_wait_lock Hinv Hj Hpc Hcur);
      cbn; auto; destruct (job_ok j); cbn; lia.
  - rewrite Hlock in Hstep. injection Hstep as <-.
    apply (worker_moves jobs s _ i j W_wait_lock W_store Hinv Hj Hpc Hcur);
      cbn; auto.
  - injection Hstep as <-.
    apply (worker_moves jobs s _ i j W_store W_scanned Hinv Hj Hpc Hcur);
      cbn; auto.
  - injection Hstep as <-.
    apply (worker_moves jobs s _ i j W_scanned W_unlock Hinv Hj Hpc Hcur);
      cbn; auto; lia.
  - injection Hstep as <-.
    apply (worker_moves jobs s _ i j W_unlock W_done Hinv Hj Hpc Hcur);
      cbn; auto.
  - discriminate.
Qed.

(** While the reporter runs, every worker stands where it can be suspended. *)
Lemma workers_suspended (jobs : list job) (s : state) :
  invariant jobs s -> current s <> None ->
  (forall i, current s <> Some (Worker i)) ->
  forall i pc, workers s !! i = Some pc -> running pc = false.
Proof.
  intros Hinv _ Hcur i pc Hpc. destruct (running pc) eqn:Hrun; [|reflexivity].
  exfalso. exact (Hcur i (inv_running _ _ Hinv i pc Hpc Hrun)).
Qed.

(** What the reporter reads when no worker is between two of its statements. *)
Lemma quiescent_consistent (jobs : list job) (s : state) :
  invariant jobs s ->
  (forall i pc, workers s !! i = Some pc -> running pc = false) ->
  consistent jobs (mkSnapshot (scanned s) (successful s) (failed s) (results s)).
Proof.
  intros [Hlen HS HF HC Hrun Hrp Hlk Hkeys Hnd Hob] Hq.
  assert (Hct : select (fun _ pc => counted pc) jobs (workers s)
                = select (fun _ pc => tallied pc) jobs (workers s)).
  { apply select_ext. intros i j pc _ Hpc. specialize (Hq i pc Hpc). by destruct pc. }
  assert (Hst : select (fun _ pc => stored pc) jobs (workers s)
                = select (fun _ pc => tallied pc) jobs (workers s)).
  { apply select_ext. intros i j pc _ Hpc. specialize (Hq i pc Hpc). by destruct pc. }
  rewrite Hst in Hkeys.
  assert (Hlenr : length (results s) = length (dict_keys (results s))).
  { unfold dict_keys. by rewrite length_map. }
  unfold consistent. cbn [seen_successful seen_failed seen_scanned seen_results].
  split; [|split].
  - rewrite HS, HF, HC, <- Hct. apply (select_split counted).
  - rewrite Hlenr, HC.
    rewrite <- (length_map job_server (select _ jobs (workers s))).
    apply submseteq_length, NoDup_submseteq; [exact Hnd|].
    intros k Hk. apply list_elem_of_In, Hkeys. by apply list_elem_of_In.
  - intros Hservers. rewrite Hlenr, HC.
    rewrite <- (length_map job_server (select _ jobs (workers s))).
    apply Permutation_length, NoDup_Permutation; [exact Hnd | by apply select_NoDup |].
    intros k. rewrite !list_elem_of_In. apply Hkeys.
Qed.

Lemma reporter_step_invariant (jobs : list job) (s s' : state) b :
  invariant jobs s -> current s = Some Reporter ->
  reporter_step (reporter s) b s = Some s' ->
  invariant jobs s'.
Proof.
  intros Hinv Hcur Hstep.
  assert (Hq : forall i pc, workers s !! i = Some pc -> running pc = false).
  { apply (workers_suspended jobs s Hinv); rewrite Hcur; congruence. }
  pose proof (quiescent_consistent jobs s Hinv Hq) as Hsnap.
  assert (Hlock : lock s = if reading (reporter s) then Some Reporter else None).
  { rewrite (inv_lock _ _ Hinv). unfold holder. by rewrite Hcur. }
  destruct Hinv as [Hlen HS HF HC Hrun Hrp Hlk Hkeys Hnd Hob].
  assert (Hnone : forall (t : option task) i pc,
             workers s !! i = Some pc -> running pc = true -> t = Some (Worker i)).
  { intros t i pc Hpc Hr. rewrite (Hq i pc Hpc) in Hr. discriminate. }
  destruct (reporter s) eqn:Hpc; cbn [reporter_step] in Hstep; cbn [reading] in Hlock.
  - destruct b; injection Hstep as <-; constructor;
      cbn [workers successful failed scanned current reporter lock results
           observed suspend set_reporter set_lock]; auto.
    all: try (apply Hnone).
    all: unfold holder; cbn [current reporter suspend set_reporter].
    all: rewrite ?Hcur, ?Hpc; cbn [reporting reading]; auto; discriminate.
  - rewrite Hlock in Hstep. injection Hstep as <-. constructor;
      cbn [workers successful failed scanned current reporter lock results
           observed suspend set_reporter set_lock]; auto.
    all: try (apply Hnone).
    unfold holder; cbn [current reporter suspend set_reporter set_lock].
    by rewrite Hcur.
  - injection Hstep as <-. constructor;
      cbn [workers successful failed scanned current reporter lock results
           observed suspend set_reporter set_lock]; auto.
    all: try (apply Hnone).
    all: try discriminate.
    unfold holder; cbn [current reporter suspend set_reporter set_lock].
    by rewrite Hcur.
  - injection Hstep as <-. constructor;
      cbn [workers successful failed scanned current reporter lock results
           observed suspend set_reporter set_lock]; auto.
    all: try (apply Hnone).
    all: try discriminate.
    unfold holder; cbn [current reporter suspend set_reporter set_lock].
    by rewrite Hcur.
Qed.

Lemma pick_invariant (jobs : list job) (s : state) (t : task) :
  invariant jobs s -> current s = None ->
  invariant jobs
    {| scanned := scanned s; successful := successful s; failed := failed s;
       results := results s; lock := lock s; slots := slots s;
       current := Some t; reporter := reporter s; workers := workers s;
       observed := observed s |}.
Proof.
  intros [Hlen HS HF HC Hrun Hrp Hlk Hkeys Hnd Hob] Hcur.
  constructor;
    cbn [workers successful failed scanned current reporter lock results observed];
    auto.
  - intros i pc Hpc Hr. specialize (Hrun i pc Hpc Hr). congruence.
  - intros Hr. specialize (Hrp Hr). congruence.
  - rewrite Hlk. unfold holder.
    cbn [workers successful failed scanned current reporter lock results observed].
    rewrite Hcur. destruct t as [|i].
    + destruct (reading (reporter s)) eqn:Hrd; [|reflexivity].
      assert (reporting (reporter s) = true) as Hr by (by destruct (reporter s)).
      specialize (Hrp Hr). congruence.
    + destruct (workers s !! i) as [pc|] eqn:Hpc; [|reflexivity].
      destruct (holding pc) eqn:Hh; [|reflexivity].
      assert (running pc = true) as Hr by (by destruct pc).
      specialize (Hrun i pc Hpc Hr). congruence.
Qed.

Lemma step_invariant (jobs : list job) (s s' : state) (e : event) :
  invariant jobs s -> step jobs s e = Some s' -> invariant jobs s'.
Proof.
  intros Hinv Hstep. unfold step in Hstep.
  destruct e as [t | b], (current s) as [[|i]|] eqn:Hcur; try discriminate.
  - destruct (alive s t); [|discriminate]. injection Hstep as <-.
    by apply pick_invariant.
  - by apply (reporter_step_invariant jobs s s' b).
  - destruct (jobs !! i) as [j|] eqn:Hj; [|discriminate].
    destruct (workers s !! i) as [pc|] eqn:Hpc; [|discriminate].
    by apply (worker_step_invariant jobs s s' i j pc).
Qed.

Lemma run_invariant (jobs : list job) (es : list event) (s s' : state) :
  invariant jobs s -> run jobs s es = Some s' -> invariant jobs s'.
Proof.
  revert s. induction es as [|e es IH]; intros s Hinv; simpl.
  - by intros [= <-].
  - destruct (step jobs s e) as [s1|] eqn:Hstep; [|discriminate].
    apply IH. by apply (step_invariant jobs s s1 e).
Qed.

Lemma reachable_invariant (max_workers : nat) (jobs : list job) (s : state) :
  reachable max_workers jobs s -> invariant jobs s.
Proof.
  intros [es Hrun]. apply (run_invariant jobs es _ s (init_invariant max_workers jobs) Hrun).
Qed.

(** X2.  The two counters of the verdict change while the lock is free; the
    counter of scanned servers changes while the worker holds it. *)
Lemma counters_and_lock (max_workers : nat) (jobs : list job) (s s' : state) (e : event) :
  reachable max_workers jobs s -> step jobs s e = Some s' ->
  (successful s' <> successful s \/ failed s' <> failed s -> lock s = None)
  /\ (scanned s' <> scanned s ->
      exists i, lock s = Some (Worker i) /\ current s = Some (Worker i)).
Proof.
  intros Hreach Hstep. pose proof (reachable_invariant _ _ _ Hreach) as Hinv.
  unfold step in Hstep.
  destruct e as [t | b], (current s) as [[|i]|] eqn:Hcur; try discriminate.
  - destruct (alive s t); [|discriminate]. injection Hstep as <-.
    cbn [successful failed scanned]. split; [intros [H | H] | intros H]; done.
  - destruct (reporter s), b; cbn [reporter_step] in Hstep;
      try destruct (lock s); injection Hstep as <-;
      cbn [successful failed scanned suspend set_reporter set_lock];
      (split; [intros [H | H] | intros H]; done).
  - destruct (jobs !! i) as [j|] eqn:Hj; [|discriminate].
    destruct (workers s !! i) as [pc|] eqn:Hpc; [|discriminate].
    pose proof (worker_lock jobs s i pc Hinv Hpc Hcur) as Hlock.
    destruct pc as [|[|awaits]| | | | | |]; cbn [worker_step] in Hstep;
      cbn [holding] in Hlock;
      try destruct (slots s); try rewrite Hlock in Hstep;
      try discriminate; injection Hstep as <-;
      cbn [successful failed scanned suspend set_worker set_slots set_lock];
      (split; [intros [H | H] | intros H]; try done; eauto).
Qed.
End SchedFacts.

(** X3.  In every reachable state of the event loop, each snapshot that the live
    reporter has read under the lock shows
    successful + failed = scanned and at most as many records as scanned
    servers, and exactly as many when the server addresses are pairwise
    distinct. *)
Theorem reader_sees_counters_in_step (max_workers : nat) (jobs : list Sched.job)
    (s : Sched.state) (snap : Sched.snapshot) :
  Sched.reachable max_workers jobs s ->
  In snap (Sched.observed s) ->
  (Sched.seen_successful snap + Sched.seen_failed snap = Sched.seen_scanned snap)%nat
  /\ (length (Sched.seen_results snap) <= Sched.seen_scanned snap)%nat
  /\ (NoDup (map Sched.job_server jobs) ->
      length (Sched.seen_results snap) = Sched.seen_scanned snap).
Proof.
  intros Hreach Hin.
  pose proof (SchedInv.inv_observed _ _ (SchedFacts.reachable_invariant _ _ _ Hreach)) as Hob.
  rewrite List.Forall_forall in Hob. exact (Hob snap Hin).
Qed.

Lemma reader_sees_counters_in_step_witness :
  Sched.run two_jobs (Sched.init 2 two_jobs) scans_and_reports = Some after_scans
  /\ In last_report (Sched.observed after_scans)
  /\ report_summary last_report = (2, 2, 2)%nat.
Proof.
  assert (Hrun : Sched.run two_jobs (Sched.init 2 two_jobs) scans_and_reports
                 = Some after_scans) by (vm_compute; reflexivity).
  assert (Hin : In last_report (Sched.observed after_scans))
    by (vm_compute; left; reflexivity).
  assert (Hnd : NoDup (map Sched.job_server two_jobs)).
  { apply NoDup_cons. split; [|apply NoDup_singleton].
    intros H%list_elem_of_singleton. discriminate H. }
  destruct (reader_sees_counters_in_step 2 two_jobs after_scans last_report
              (ex_intro _ scans_and_reports Hrun) Hin) as (Hsum & _ & Hlen).
  split; [exact Hrun|]. split; [exact Hin|].
  unfold report_summary. rewrite Hsum, (Hlen Hnd). vm_compute. reflexivity.
Defined.

(** Worker 0 has added one to "successful" while the lock is free and no
    record is stored; and when a server is listed twice a report under the
    lock shows two counted servers and one record. *)
Lemma counters_ahead_of_records :
  option_map (fun s => (Sched.successful s, Sched.lock s, Sched.results s))
    (Sched.run two_jobs (Sched.init 2 two_jobs) counted_not_stored)
  = Some (1%nat, None, [])
  /\ option_map (fun s => map report_summary (Sched.observed s))
       (Sched.run same_server_twice (Sched.init 2 same_server_twice)
          scans_then_report)
     = Some [(2, 2, 1)%nat].
Proof. split; vm_compute; reflexivity. Qed.

Module SchedSlotsFacts.
Import Sched SchedInv SchedFacts SchedSlots.
#[local] Open Scope nat_scope.

Lemma holders_init (max_workers : nat) (jobs : list job) :
  holders jobs (init max_workers jobs) = [].
Proof. unfold holders, init. cbn [workers]. by apply select_init. Qed.

(** The free slots and the workers inside [async with semaphore] add up to
    the size of the semaphore after every statement. *)
Lemma step_slots (jobs : list job) (s s' : state) (e : event) (n : nat) :
  slots s + length (holders jobs s) = n ->
  step jobs s e = Some s' ->
  slots s' + length (holders jobs s') = n.
Proof.
  intros Hn Hstep. unfold step in Hstep. unfold holders in *.
  destruct e as [t | b], (current s) as [[|i]|] eqn:Hcur; try discriminate.
  - destruct (alive s t); [|discriminate]. by injection Hstep as <-.
  - destruct (reporter s), b; cbn [reporter_step] in Hstep;
      try destruct (lock s); by injection Hstep as <-.
  - destruct (jobs !! i) as [j|] eqn:Hj; [|discriminate].
    destruct (workers s !! i) as [pc|] eqn:Hpc; [|discriminate].
    assert (Hmove : forall pc',
               length (select (fun _ pc => inside pc) jobs (<[ i := pc' ]> (workers s)))
               + (if inside pc then 1 else 0)
               = length (select (fun _ pc => inside pc) jobs (workers s))
                 + (if inside pc' then 1 else 0)).
    { intros pc'. exact (select_insert_length _ jobs (workers s) i j pc pc' Hj Hpc). }
    destruct pc as [|[|awaits]| | | | | |]; cbn [worker_step] in Hstep;
      try destruct (slots s) eqn:Hslots; try destruct (lock s);
      try discriminate; injection Hstep as <-;
      cbn [slots workers suspend set_worker set_slots set_lock];
      rewrite ?Hslots in *;
      try match goal with
          | |- context [<[ i := ?pc' ]> (workers s)] =>
              specialize (Hmove pc'); cbn [inside] in Hmove
          end; lia.
Qed.

Lemma run_slots (jobs : list job) (es : list event) (s s' : state) (n : nat) :
  slots s + length (holders jobs s) = n ->
  run jobs s es = Some s' ->
  slots s' + length (holders jobs s') = n.
Proof.
  revert s. induction es as [|e es IH]; intros s Hn; simpl.
  - by intros [= <-].
  - destruct (step jobs s e) as [s1|] eqn:Hstep; [|discriminate].
    apply IH. by apply (step_slots jobs s s1 e).
Qed.

Lemma reachable_slots (max_workers : nat) (jobs : list job) (s : state) :
  reachable max_workers jobs s ->
  slots s + length (holders jobs s) = max_workers.
Proof.
  intros [es Hrun].
  apply (run_slots jobs es (init max_workers jobs) s); [|exact Hrun].
  rewrite holders_init. unfold init. cbn [slots length]. lia.
Qed.

(** ** The semaphore bounds the number of servers probed at once *)

(** X4.  In every reachable state the number of workers inside
    [async with semaphore], plus the free slots, is [max_workers]; so no
    more than [max_workers] servers are being scanned at any time. *)
Theorem semaphore_bounds_concurrency (max_workers : nat) (jobs : list job) (s : state) :
  reachable max_workers jobs s ->
  slots s + length (holders jobs s) = max_workers
  /\ length (holders jobs s) <= max_workers.
Proof.
  intros Hreach. pose proof (reachable_slots _ _ _ Hreach) as H.
  split; [exact H | lia].
Qed.

Lemma mid_scan_reachable : reachable 2 two_jobs mid_scan.
Proof. exists counted_not_stored. vm_compute. reflexivity. Qed.

Lemma counters_and_lock_witness :
  step two_jobs before_count (Step false) = Some mid_scan
  /\ successful mid_scan <> successful before_count
  /\ lock before_count = None.
Proof.
  assert (Hreach : reachable 2 two_jobs before_count).
  { exists not_yet_counted. vm_compute. reflexivity. }
  assert (Hstep : step two_jobs before_count (Step false) = Some mid_scan)
    by (vm_compute; reflexivity).
  assert (Hne : successful mid_scan <> successful before_count)
    by (vm_compute; discriminate).
  destruct (counters_and_lock 2 two_jobs before_count mid_scan (Step false) Hreach Hstep)
    as [Hfree _].
  split; [exact Hstep|]. split; [exact Hne|]. exact (Hfree (or_introl Hne)).
Defined.

Lemma semaphore_bounds_concurrency_witness :
  slots mid_scan + length (holders two_jobs mid_scan) = 2
  /\ length (holders two_jobs mid_scan) <= 2.
Proof. exact (semaphore_bounds_concurrency 2 two_jobs mid_scan mid_scan_reachable). Defined.

(** X5.  In every reachable state the lock is held by the task that is running,
    if by any: no task is suspended inside [async with self._lock], and a
    task that reaches [async with self._lock] finds the lock free. *)
Theorem lock_is_never_contended (max_workers : nat) (jobs : list job) (s : state) :
  reachable max_workers jobs s ->
  (forall t, lock s = Some t -> current s = Some t)
  /\ (forall i, current s = Some (Worker i) ->
                workers s !! i = Some W_wait_lock -> lock s = None)
  /\ (current s = Some Reporter -> reporter s = R_wait_lock -> lock s = None).
Proof.
  intros Hreach. pose proof (reachable_invariant _ _ _ Hreach) as Hinv.
  pose proof (inv_lock _ _ Hinv) as Hlock. unfold holder in Hlock.
  split; [|split].
  - intros t Ht. rewrite Ht in Hlock.
    destruct (current s) as [[|i]|]; try discriminate.
    + destruct (reading (reporter s)); congruence.
    + destruct (workers s !! i) as [pc|]; [|discriminate].
      destruct (holding pc); congruence.
  - intros i Hcur Hpc. by rewrite Hlock, Hcur, Hpc.
  - intros Hcur Hpc. by rewrite Hlock, Hcur, Hpc.
Qed.

Lemma lock_is_never_contended_witness :
  current mid_scan = Some (Worker 0)
  /\ workers mid_scan !! 0 = Some W_wait_lock
  /\ lock mid_scan = None.
Proof.
  destruct (lock_is_never_contended 2 two_jobs mid_scan mid_scan_reachable)
    as (_ & Hfree & _).
  assert (Hcur : current mid_scan = Some (Worker 0)) by (vm_compute; reflexivity).
  assert (Hpc : workers mid_scan !! 0 = Some W_wait_lock) by (vm_compute; reflexivity).
  split; [exact Hcur|]. split; [exact Hpc|]. exact (Hfree 0 Hcur Hpc).
Defined.

Lemma select_all_done (P : job -> wpc -> bool) (jobs : list job) (ws : list wpc) :
  length ws = length jobs -> Forall (fun pc => pc = W_done) ws ->
  select P jobs ws = List.filter (fun j => P j W_done) jobs.
Proof.
  revert ws. induction jobs as [|j jobs IH]; intros [|pc ws]; simpl;
    try discriminate; try reflexivity.
  intros [= Hlen] Hall. apply Forall_cons in Hall as [-> Hall].
  rewrite (IH ws Hlen Hall). reflexivity.
Qed.

Lemma filter_true {A : Type} (l : list A) : List.filter (fun _ => true) l = l.
Proof. induction l as [|x l IH]; simpl; congruence. Qed.

(** X6.  When every worker has finished, every server has been scanned and
    counted once, every slot is free again, and every server has a record. *)
Theorem finished_scan_is_complete (max_workers : nat) (jobs : list job) (s : state) :
  reachable max_workers jobs s -> all_done s ->
  scanned s = length jobs
  /\ successful s = length (List.filter job_ok jobs)
  /\ successful s + failed s = length jobs
  /\ slots s = max_workers
  /\ forall server, In server (dict_keys (results s)) <-> In server (map job_server jobs).
Proof.
  intros Hreach Hdone.
  pose proof (reachable_invariant _ _ _ Hreach) as [Hlen HS HF HC Hrun Hrp Hlk Hkeys Hnd Hob].
  pose proof (reachable_slots _ _ _ Hreach) as Hslots.
  unfold holders in Hslots. unfold all_done in Hdone.
  rewrite (select_all_done _ jobs _ Hlen Hdone) in HS.
  rewrite (select_all_done _ jobs _ Hlen Hdone) in HF.
  rewrite (select_all_done _ jobs _ Hlen Hdone) in HC.
  rewrite (select_all_done _ jobs _ Hlen Hdone) in Hslots.
  cbn [counted tallied inside andb] in *.
  assert (Hsplit : length (List.filter job_ok jobs)
                   + length (List.filter (fun j => negb (job_ok j)) jobs)
                   = length jobs).
  { clear. induction jobs as [|j jobs IH]; simpl; [reflexivity|].
    destruct (job_ok j); simpl; lia. }
  rewrite filter_true in HC.
  assert (Hnil : List.filter (fun _ : job => false) jobs = []).
  { clear. induction jobs; simpl; auto. }
  rewrite Hnil in Hslots. cbn [length] in Hslots.
  assert (HS' : successful s = length (List.filter job_ok jobs)).
  { exact HS. }
  split; [exact HC|]. split; [exact HS'|]. split; [lia|]. split; [lia|].
  intros server. rewrite Hkeys, (select_all_done _ jobs _ Hlen Hdone).
  cbn [stored]. by rewrite filter_true.
Qed.

Lemma finished_scan_is_complete_witness :
  scanned end_of_scan = 2
  /\ successful end_of_scan = 1
  /\ successful end_of_scan + failed end_of_scan = 2
  /\ slots end_of_scan = 2.
Proof.
  assert (Hreach : reachable 2 two_jobs end_of_scan).
  { exists both_scans. vm_compute. reflexivity. }
  assert (Hdone : all_done end_of_scan).
  { unfold all_done. vm_compute. repeat constructor. }
  destruct (finished_scan_is_complete 2 two_jobs end_of_scan Hreach Hdone)
    as (H1 & H2 & H3 & H4 & _).
  repeat split; assumption.
Defined.
End SchedSlotsFacts.

(** ** Stripped lines *)

Section LoadFacts.
#[local] Open Scope nat_scope.

Lemma lstrip_head (s : string) (c : ascii) (rest : string) :
  PyStr.lstrip s = String c rest -> PyStr.isspace c = false.
Proof.
  induction s as [|a s IH]; simpl; [discriminate|].
  destruct (PyStr.isspace a) eqn:Ha; [exact IH|].
  intros [= <- _]. exact Ha.
Qed.

Lemma rev_string_last (t q : string) (c : ascii) :
  PyStr.rev_string t = (q ++ String c "")%string -> exists r, t = String c r.
Proof.
  unfold PyStr.rev_string. intros H.
  apply (f_equal list_ascii_of_string) in H.
  rewrite list_ascii_of_string_of_list_ascii, list_ascii_app in H.
  cbn [list_ascii_of_string] in H.
  apply (f_equal (@rev ascii)) in H. rewrite rev_involutive, rev_app_distr in H.
  cbn [rev app] in H.
  exists (string_of_list_ascii (rev (list_ascii_of_string q))).
  rewrite <- (string_of_list_ascii_of_string t), H. reflexivity.
Qed.

(** [s.strip()] does not end with a white-space character. *)
Lemma strip_last (s q : string) (c : ascii) :
  PyStr.strip s = (q ++ String c "")%string -> PyStr.isspace c = false.
Proof.
  unfold PyStr.strip, PyStr.rstrip. intros H.
  apply rev_string_last in H as [r Hr]. exact (lstrip_head _ _ _ Hr).
Qed.

Lemma octet_head (a : string) :
  octet a -> exists c r, a = String c r /\ PyStr.is_digit c = true.
Proof.
  intros (Hlen & Hd & _). destruct a as [|c r]; simpl in Hlen; [lia|].
  exists c, r. split; [reflexivity|].
  unfold all_digits in Hd. simpl in Hd. by apply andb_true_iff in Hd as [Hc _].
Qed.

Lemma dotted_quad_head (s : string) :
  dotted_quad s -> exists c r, s = String c r /\ PyStr.is_digit c = true.
Proof.
  intros (a & b & c & d & Ha & _ & _ & _ & ->).
  destruct (octet_head a Ha) as (x & r & -> & Hx).
  exists x. eexists. split; [|exact Hx]. rewrite string_app_cons. reflexivity.
Qed.

(** What [is_valid_ip] accepts starts with a digit. *)
Lemma is_valid_ip_head (s : string) :
  is_valid_ip s = true -> exists c r, s = String c r /\ PyStr.is_digit c = true.
Proof.
  intros [Hq | (q & Hq & ->)]%is_valid_ip_shape.
  - by apply dotted_quad_head.
  - destruct (dotted_quad_head q Hq) as (x & r & -> & Hx).
    exists x. eexists. split; [|exact Hx]. rewrite string_app_cons. reflexivity.
Qed.

Lemma is_valid_ip_skipped (line : string) :
  (String.eqb line "" || PyStr.startswith "//" line || PyStr.startswith "#" line) = true ->
  is_valid_ip line = false.
Proof.
  intros H. destruct (is_valid_ip line) eqn:Hv; [|reflexivity].
  destruct (is_valid_ip_head line Hv) as (c & r & -> & Hc).
  destruct (Ascii.eqb_spec "/" c) as [<- | H1]; [vm_compute in Hc; discriminate|].
  destruct (Ascii.eqb_spec "#" c) as [<- | H2]; [vm_compute in Hc; discriminate|].
  cbn [String.eqb PyStr.startswith] in H.
  apply Ascii.eqb_neq in H1, H2. rewrite H1, H2 in H. discriminate.
Qed.

Lemma skipped_not_header (line : string) :
  (String.eqb line "" || PyStr.startswith "//" line) = true ->
  PyStr.startswith "#" line = false.
Proof.
  destruct line as [|c l]; [reflexivity|].
  cbn [String.eqb PyStr.startswith].
  destruct (Ascii.eqb_spec "/" c) as [<- | H1]; [reflexivity|].
  cbn [orb andb]. discriminate.
Qed.

(** A stripped line that [is_valid_ip] accepts is a dotted quad. *)
Lemma stripped_address_is_quad (raw : string) :
  is_valid_ip (PyStr.strip raw) = true -> dotted_quad (PyStr.strip raw).
Proof.
  intros [Hq | (q & Hq & Heq)]%is_valid_ip_shape; [exact Hq|].
  apply strip_last in Heq. vm_compute in Heq. discriminate.
Qed.

(** ** The loop of [load_dns_servers] *)

(** The loop collects the address lines in their order until it has
    [max_servers] of them, and at least one. *)
Lemma load_lines_servers (max_servers : Z) (lines servers : list string)
    (providers : list (string * string)) (current : string) :
  length servers < Z.to_nat (Z.max 1 max_servers) ->
  fst (load_lines max_servers lines servers providers current)
  = servers ++ firstn (Z.to_nat (Z.max 1 max_servers) - length servers)
                 (List.filter is_valid_ip lines).
Proof.
  revert servers providers current.
  induction lines as [|line rest IH]; intros servers providers current Hlen.
  - simpl. by rewrite firstn_nil, app_nil_r.
  - cbn [load_lines List.filter].
    destruct (String.eqb line "" || PyStr.startswith "//" line) eqn:Hskip.
    { rewrite (is_valid_ip_skipped line) by (by rewrite Hskip). by apply IH. }
    destruct (PyStr.startswith "#" line) eqn:Hhead.
    { rewrite (is_valid_ip_skipped line) by (by rewrite Hskip, Hhead). by apply IH. }
    destruct (is_valid_ip line) eqn:Hv; [|by apply IH].
    destruct (Z.to_nat (Z.max 1 max_servers) - length servers) as [|k] eqn:Hk; [lia|].
    cbn [firstn]. destruct (Z.geb_spec (Z.of_nat (length (servers ++ [line]))) max_servers)
      as [Hfull | Hmore]; rewrite length_app in *; cbn [length] in *.
    + cbn [fst]. assert (k = 0) as -> by lia. reflexivity.
    + rewrite IH by (rewrite length_app; cbn [length]; lia).
      rewrite length_app. cbn [length]. rewrite <- app_assoc. cbn [app].
      do 3 f_equal. lia.
Qed.

(** The keys of [self.providers] after the loop: those it had, and the
    servers collected. *)
Lemma load_lines_keys (max_servers : Z) (lines servers : list string)
    (providers : list (string * string)) (current : string) (before : list string) :
  (forall k, In k (dict_keys providers) <-> In k before \/ In k servers) ->
  forall k,
    In k (dict_keys (snd (load_lines max_servers lines servers providers current)))
    <-> In k before
        \/ In k (fst (load_lines max_servers lines servers providers current)).
Proof.
  revert servers providers current.
  induction lines as [|line rest IH]; intros servers providers current Hkeys.
  - exact Hkeys.
  - cbn [load_lines].
    destruct (String.eqb line "" || PyStr.startswith "//" line); [by apply IH|].
    destruct (PyStr.startswith "#" line); [by apply IH|].
    destruct (is_valid_ip line); [|by apply IH].
    assert (Hkeys' : forall k, In k (dict_keys (dict_set line current providers))
                               <-> In k before \/ In k (servers ++ [line])).
    { intros k. rewrite SchedFacts.dict_set_keys, Hkeys, in_app_iff. simpl. intuition. }
    destruct (Z.of_nat (length (servers ++ [line])) >=? max_servers)%Z; [exact Hkeys'|].
    by apply IH.
Qed.

Lemma dict_get_set_eq {V : Type} (k : string) (v : V) (d : list (string * V)) :
  dict_get k (dict_set k v d) = Some v.
Proof.
  induction d as [|[k' v'] d IH]; simpl.
  - by rewrite String.eqb_refl.
  - destruct (String.eqb_spec k k') as [-> | Hne]; simpl.
    + by rewrite String.eqb_refl.
    + by destruct (String.eqb_spec k k').
Qed.

Lemma dict_get_set_ne {V : Type} (k k' : string) (v : V) (d : list (string * V)) :
  k <> k' -> dict_get k' (dict_set k v d) = dict_get k' d.
Proof.
  intros Hne. induction d as [|[k0 v0] d IH]; simpl.
  - by destruct (String.eqb_spec k' k) as [-> | _].
  - destruct (String.eqb_spec k k0) as [-> | Hne0]; simpl.
    + destruct (String.eqb_spec k' k0) as [-> | _]; [done | reflexivity].
    + by rewrite IH.
Qed.

(** Lines other than [server] leave its entry alone. *)
Lemma load_lines_other (max_servers : Z) (lines servers : list string)
    (providers : list (string * string)) (current server : string) :
  Forall (fun line => line <> server) lines ->
  dict_get server (snd (load_lines max_servers lines servers providers current))
  = dict_get server providers.
Proof.
  revert servers providers current.
  induction lines as [|line rest IH]; intros servers providers current Hother;
    [reflexivity|].
  apply Forall_cons in Hother as [Hne Hother]. cbn [load_lines].
  destruct (String.eqb line "" || PyStr.startswith "//" line); [by apply IH|].
  destruct (PyStr.startswith "#" line); [by apply IH|].
  destruct (is_valid_ip line); [|by apply IH].
  destruct (Z.of_nat (length (servers ++ [line])) >=? max_servers)%Z; cbn [snd].
  - by apply dict_get_set_ne.
  - rewrite IH by done. by apply dict_get_set_ne.
Qed.

Lemma load_lines_provider (max_servers : Z) (before after servers : list string)
    (providers : list (string * string)) (current server : string) :
  length servers + length (List.filter is_valid_ip before)
  < Z.to_nat (Z.max 1 max_servers) ->
  is_valid_ip server = true ->
  Forall (fun line => line <> server) after ->
  dict_get server
    (snd (load_lines max_servers (before ++ server :: after) servers providers current))
  = Some (provider_after current before).
Proof.
  intros Hroom Hv Hafter. revert servers providers current Hroom.
  induction before as [|line rest IH]; intros servers providers current Hroom.
  - cbn [app load_lines provider_after fold_left].
    destruct (String.eqb server "" || PyStr.startswith "//" server) eqn:Hskip.
    { rewrite (is_valid_ip_skipped server) in Hv by (by rewrite Hskip). discriminate. }
    destruct (PyStr.startswith "#" server) eqn:Hhead.
    { rewrite (is_valid_ip_skipped server) in Hv by (by rewrite Hskip, Hhead). discriminate. }
    rewrite Hv.
    destruct (Z.of_nat (length (servers ++ [server])) >=? max_servers)%Z; cbn [snd].
    + apply dict_get_set_eq.
    + rewrite load_lines_other by done. apply dict_get_set_eq.
  - cbn [app load_lines provider_after fold_left List.filter] in *.
    destruct (String.eqb line "" || PyStr.startswith "//" line) eqn:Hskip.
    { rewrite (is_valid_ip_skipped line) in Hroom by (by rewrite Hskip).
      rewrite (skipped_not_header line Hskip). by apply IH. }
    destruct (PyStr.startswith "#" line) eqn:Hhead.
    { rewrite (is_valid_ip_skipped line) in Hroom by (by rewrite Hskip, Hhead).
      by apply IH. }
    destruct (is_valid_ip line) eqn:Hl; [|by apply IH].
    cbn [length] in Hroom.
    destruct (Z.geb_spec (Z.of_nat (length (servers ++ [line]))) max_servers)
      as [Hfull | Hmore]; rewrite length_app in *; cbn [length] in *; [lia|].
    apply IH. rewrite length_app. cbn [length]. lia.
Qed.

Lemma firstn_In {A : Type} (x : A) (n : nat) (l : list A) :
  In x (firstn n l) -> In x l.
Proof.
  revert n. induction l as [|y l IH]; intros [|n]; simpl; try tauto.
  intros [-> | H]; [by left | right; by apply (IH n)].
Qed.
End LoadFacts.

(** X8.  When the file can be read, [load_dns_servers] returns the stripped lines
    that [is_valid_ip] accepts, in the order of the file, up to the first
    [max_servers] of them, and one of them when [max_servers] is below 1:
    the loop tests the bound after it has appended. *)
Theorem load_dns_servers_first_addresses (config : ScanConfig) (dns_file_path : string)
    (providers : list (string * string)) (lines : list string) :
  exists providers',
    load_dns_servers config dns_file_path providers (ReadLines lines)
    = inr (firstn (server_cap config) (address_lines lines), providers').
Proof.
  unfold load_dns_servers, _async_file_reader.
  eexists. rewrite (surjective_pairing (load_lines _ _ _ _ _)).
  rewrite load_lines_servers by (cbn [length]; lia).
  cbn [length app]. rewrite Nat.sub_0_r. reflexivity.
Qed.

(** X9.  Every server that [load_dns_servers] returns is a dotted quad: four
    groups of one to three digits, each at most 255, separated by dots, with
    nothing after them. *)
Theorem loaded_servers_are_dotted_quads (config : ScanConfig) (dns_file_path : string)
    (providers providers' : list (string * string)) (w : read_outcome)
    (servers : list string) :
  load_dns_servers config dns_file_path providers w = inr (servers, providers') ->
  Forall dotted_quad servers.
Proof.
  destruct w as [lines | exc];
    [|cbv [load_dns_servers _async_file_reader exc_class]; discriminate].
  unfold load_dns_servers, _async_file_reader. intros [= Hload].
  apply (f_equal fst) in Hload. cbn [fst] in Hload.
  rewrite load_lines_servers in Hload by (cbn [length]; lia).
  cbn [app] in Hload. subst servers.
  apply List.Forall_forall. intros x Hx. apply firstn_In in Hx.
  apply filter_In in Hx as [Hin Hv]. apply in_map_iff in Hin as (raw & <- & _).
  by apply stripped_address_is_quad.
Qed.

Lemma loaded_servers_are_dotted_quads_witness :
  load_dns_servers default_config "dns_servers.txt" [] (ReadLines example_file)
  = inr (example_servers, example_providers)
  /\ Forall dotted_quad example_servers.
Proof.
  assert (H : load_dns_servers default_config "dns_servers.txt" [] (ReadLines example_file)
              = inr (example_servers, example_providers)) by (vm_compute; reflexivity).
  split; [exact H|].
  exact (loaded_servers_are_dotted_quads _ _ _ _ _ _ H).
Defined.

(** X10.  After [load_dns_servers], the keys of [self.providers] are the keys it
    had before and the servers returned: every returned server has a
    provider. *)
Theorem loaded_servers_have_providers (config : ScanConfig) (dns_file_path : string)
    (providers providers' : list (string * string)) (w : read_outcome)
    (servers : list string) :
  load_dns_servers config dns_file_path providers w = inr (servers, providers') ->
  forall server,
    In server (dict_keys providers')
    <-> In server (dict_keys providers) \/ In server servers.
Proof.
  destruct w as [lines | exc];
    [|cbv [load_dns_servers _async_file_reader exc_class]; discriminate].
  unfold load_dns_servers, _async_file_reader. intros [= Hload] server.
  pose proof (load_lines_keys (max_servers config) (map PyStr.strip lines) [] providers
                "Unknown Provider" (dict_keys providers)) as Hkeys.
  rewrite Hload in Hkeys. apply Hkeys. intros k. simpl. tauto.
Qed.

Lemma loaded_servers_have_providers_witness :
  load_dns_servers default_config "dns_servers.txt" [] (ReadLines example_file)
  = inr (example_servers, example_providers)
  /\ (In "1.0.0.1" (dict_keys example_providers)
      <-> In "1.0.0.1" (dict_keys (@nil (string * string))) \/ In "1.0.0.1" example_servers).
Proof.
  assert (H : load_dns_servers default_config "dns_servers.txt" [] (ReadLines example_file)
              = inr (example_servers, example_providers)) by (vm_compute; reflexivity).
  split; [exact H|].
  exact (loaded_servers_have_providers _ _ _ _ _ _ H "1.0.0.1").
Defined.

(** X11.  The provider of a loaded server is the text of the last [#] line above
    the last line that names it: [get_provider_name] returns that text,
    stripped, and "Unknown Provider" when no [#] line precedes. *)
Theorem provider_of_loaded_server (config : ScanConfig) (dns_file_path : string)
    (providers providers' : list (string * string))
    (before after : list string) (raw : string) (servers : list string) :
  is_valid_ip (PyStr.strip raw) = true ->
  (length (address_lines before) < server_cap config)%nat ->
  Forall (fun later => PyStr.strip later <> PyStr.strip raw) after ->
  load_dns_servers config dns_file_path providers (ReadLines (before ++ raw :: after))
  = inr (servers, providers') ->
  get_provider_name providers' (PyStr.strip raw) = header_in_force before.
Proof.
  intros Hv Hroom Hafter. unfold load_dns_servers, _async_file_reader.
  intros [= Hload]. unfold get_provider_name, header_in_force.
  pose proof (load_lines_provider (max_servers config) (map PyStr.strip before)
                (map PyStr.strip after) [] providers "Unknown Provider"
                (PyStr.strip raw)) as Hp.
  rewrite map_app in Hload. cbn [map] in Hload. rewrite Hload in Hp. cbn [snd] in Hp.
  rewrite Hp; [reflexivity | exact Hroom | exact Hv |].
  apply List.Forall_forall. intros x Hx. apply in_map_iff in Hx as (later & <- & Hin).
  rewrite List.Forall_forall in Hafter. by apply Hafter.
Qed.

Lemma provider_of_loaded_server_witness :
  get_provider_name example_providers "1.1.1.1" = "Cloudflare"
  /\ header_in_force (firstn 6 example_file) = "Cloudflare".
Proof.
  assert (H : get_provider_name example_providers (PyStr.strip ("1.1.1.1" ++ newline))
              = header_in_force (firstn 6 example_file)).
  { apply (provider_of_loaded_server default_config "dns_servers.txt" [] example_providers
             (firstn 6 example_file) (skipn 7 example_file) ("1.1.1.1" ++ newline)
             example_servers).
    - vm_compute. reflexivity.
    - vm_compute. lia.
    - repeat constructor; vm_compute; discriminate.
    - vm_compute. reflexivity. }
  split; [|vm_compute; reflexivity].
  transitivity (get_provider_name example_providers (PyStr.strip ("1.1.1.1" ++ newline)));
    [vm_compute; reflexivity|].
  rewrite H. vm_compute. reflexivity.
Defined.

(** When the file cannot be opened or read, [load_dns_servers] raises a
    [ConfigurationError] whose text is "Failed to load DNS servers: Error
    reading file <path>: <cause>", whatever the cause: the reader has turned
    a [FileNotFoundError] into a [ConfigurationError] before the handler for
    [FileNotFoundError] can see it. *)
Remark load_failure_is_wrapped_twice (config : ScanConfig) (dns_file_path : string)
    (providers : list (string * string)) (exc : exception) :
  load_dns_servers config dns_file_path providers (ReadRaised exc)
  = inl (mkException ConfigurationError
           ("Failed to load DNS servers: Error reading file " ++ dns_file_path
            ++ ": " ++ exc_text exc)).
Proof. reflexivity. Qed.

(** ** The arguments handed to the elevated process *)

Section ValidateArgumentsFacts.
#[local] Open Scope nat_scope.

Variable float_accepts : string -> bool.

Lemma contains_char (c : ascii) (s : string) :
  In c (list_ascii_of_string s) -> PyStr.contains (String c "") s = true.
Proof.
  induction s as [|b s IH]; simpl; [tauto|].
  intros [-> | Hin].
  - by rewrite Ascii.eqb_refl.
  - rewrite (IH Hin). apply orb_true_r.
Qed.

Lemma lower_chars (c : ascii) (s : string) :
  In c (list_ascii_of_string s) -> In (lower_char c) (list_ascii_of_string (lower s)).
Proof.
  induction s as [|b s IH]; simpl; [tauto|].
  intros [-> | Hin]; [by left | right; by apply IH].
Qed.

Lemma str_in_In (x : string) (l : list string) : str_in x l = true <-> In x l.
Proof.
  unfold str_in. rewrite existsb_exists. split.
  - intros (y & Hy & ->%String.eqb_eq). exact Hy.
  - intros H. exists x. split; [exact H | apply String.eqb_refl].
Qed.

(** [lower] leaves the characters that are looked for as they are. *)
Lemma dangerous_char_lower (c : ascii) :
  dangerous_char c = true -> lower_char c = c.
Proof.
  unfold dangerous_char. rewrite str_in_In. unfold DANGEROUS. simpl.
  intros H. repeat (destruct H as [[= <-] | H]; [reflexivity|]). destruct H.
Qed.

(** An argument that passes the test has none of the characters. *)
Lemma harmless_chars (arg : string) (c : ascii) :
  is_dangerous arg = false -> In c (list_ascii_of_string arg) ->
  dangerous_char c = false.
Proof.
  intros Hsafe Hin. destruct (dangerous_char c) eqn:Hc; [|reflexivity].
  assert (is_dangerous arg = true); [|congruence].
  unfold is_dangerous. apply existsb_exists. exists (String c "").
  split; [by apply str_in_In|].
  apply contains_char. rewrite <- (dangerous_char_lower c Hc). by apply lower_chars.
Qed.

(** The flag [skip_next] is never set: the loop keeps an argument on what it
    is and on the argument before it. *)
Lemma validate_loop_kept (args : list string) (prev : option string)
    (safe_args : list string) :
  validate_loop float_accepts args prev false safe_args
  = safe_args ++ kept_arguments float_accepts prev args.
Proof.
  revert prev safe_args. induction args as [|arg rest IH]; intros prev safe_args.
  - simpl. by rewrite app_nil_r.
  - cbn [validate_loop kept_arguments]. unfold kept.
    destruct (is_dangerous arg); cbn [negb andb]; [apply IH|].
    destruct (PyStr.startswith "-" arg || endswith ".py" arg || endswith ".txt" arg);
      cbn [orb].
    { rewrite IH, <- app_assoc. reflexivity. }
    destruct (match prev with Some before => str_in before NUMERIC_OPTIONS | None => false end);
      cbn [andb]; [|apply IH].
    destruct (float_accepts arg); [|apply IH].
    rewrite IH, <- app_assoc. reflexivity.
Qed.

Lemma kept_arguments_harmless (prev : option string) (args : list string) :
  Forall (fun arg => is_dangerous arg = false) (kept_arguments float_accepts prev args).
Proof.
  revert prev. induction args as [|arg rest IH]; intros prev; simpl; [constructor|].
  destruct (kept float_accepts prev arg) eqn:Hk; [|apply IH].
  constructor; [|apply IH].
  unfold kept in Hk. apply andb_true_iff in Hk as [Hk _].
  by destruct (is_dangerous arg).
Qed.

Lemma kept_arguments_sublist (prev : option string) (args : list string) :
  sublist (kept_arguments float_accepts prev args) args.
Proof.
  revert prev. induction args as [|arg rest IH]; intros prev; simpl; [constructor|].
  destruct (kept float_accepts prev arg).
  - apply sublist_skip, IH.
  - apply sublist_cons, IH.
Qed.

(** An option that takes a number is itself kept. *)
Lemma numeric_option_kept (prev : option string) (arg : string) :
  str_in arg NUMERIC_OPTIONS = true -> kept float_accepts prev arg = true.
Proof.
  rewrite str_in_In. unfold NUMERIC_OPTIONS. simpl.
  intros H. repeat (destruct H as [<- | H]; [reflexivity|]). destruct H.
Qed.

Lemma kept_arguments_again (args : list string) (prev prev' : option string) :
  (match prev with Some before => str_in before NUMERIC_OPTIONS | None => false end = true ->
   prev' = prev) ->
  kept_arguments float_accepts prev' (kept_arguments float_accepts prev args)
  = kept_arguments float_accepts prev args.
Proof.
  revert prev prev'. induction args as [|arg rest IH]; intros prev prev' Hprev;
    [reflexivity|].
  cbn [kept_arguments]. destruct (kept float_accepts prev arg) eqn:Hk.
  - cbn [kept_arguments].
    assert (Hk' : kept float_accepts prev' arg = true).
    { unfold kept in *. apply andb_true_iff in Hk as [Hd Hk]. rewrite Hd. cbn [andb].
      destruct (PyStr.startswith "-" arg || endswith ".py" arg || endswith ".txt" arg);
        [reflexivity|].
      cbn [orb] in *. apply andb_true_iff in Hk as [Hn Hf].
      by rewrite (Hprev Hn), Hn, Hf. }
    rewrite Hk'. f_equal. apply IH. done.
  - apply IH. intros Hn. cbn in Hn.
    rewrite (numeric_option_kept prev arg Hn) in Hk. discriminate.
Qed.

(** X12.  No argument that [_validate_arguments] returns contains one of the
    characters & | ; ` $ > < * ? [ ], whatever the command line. *)
Theorem validated_arguments_are_harmless (args : list string) :
  Forall (fun arg => forall c, In c (list_ascii_of_string arg) -> dangerous_char c = false)
         (_validate_arguments float_accepts args).
Proof.
  unfold _validate_arguments. rewrite validate_loop_kept. cbn [app].
  eapply Forall_impl; [apply kept_arguments_harmless|].
  intros arg Hsafe c Hc. exact (harmless_chars arg c Hsafe Hc).
Qed.

(** X13.  [_validate_arguments] only drops arguments: what it returns is a
    subsequence of the command line, in the same order. *)
Theorem validated_arguments_keep_order (args : list string) :
  sublist (_validate_arguments float_accepts args) args.
Proof.
  unfold _validate_arguments. rewrite validate_loop_kept. cbn [app].
  apply kept_arguments_sublist.
Qed.

(** X14.  Validating a second time changes nothing: a number that was kept still
    follows its option. *)
Theorem validation_is_idempotent (args : list string) :
  _validate_arguments float_accepts (_validate_arguments float_accepts args)
  = _validate_arguments float_accepts args.
Proof.
  unfold _validate_arguments. rewrite !validate_loop_kept. cbn [app].
  apply kept_arguments_again. discriminate.
Qed.

(** X15.  The command for [sudo] is exactly "sudo", the interpreter, the validated
    arguments in their order and then the marker "--elevated", which is
    added, once and at the end, exactly when the validated arguments do not
    have it; nothing else is added.  The validated arguments are a
    subsequence of the command line, and no argument after the interpreter
    contains a dangerous character. *)
Theorem elevated_command_unix_is_harmless (executable : string) (args : list string) :
  let validated := _validate_arguments float_accepts args in
  exists marker,
    _create_elevated_command_unix float_accepts executable args
    = "sudo" :: executable :: validated ++ marker
    /\ ((marker = [] /\ In "--elevated" validated)
        \/ (marker = ["--elevated"] /\ ~ In "--elevated" validated))
    /\ sublist validated args
    /\ Forall (fun arg => forall c, In c (list_ascii_of_string arg) ->
                                    dangerous_char c = false) (validated ++ marker).
Proof.
  intros validated.
  assert (Hh : Forall (fun arg => forall c, In c (list_ascii_of_string arg) ->
                                            dangerous_char c = false) validated).
  { unfold validated, _validate_arguments. rewrite validate_loop_kept. cbn [app].
    eapply Forall_impl; [apply (kept_arguments_harmless None args)|].
    intros arg Ha c Hc. exact (harmless_chars arg c Ha Hc). }
  assert (Hsub : sublist validated args).
  { unfold validated, _validate_arguments. rewrite validate_loop_kept. cbn [app].
    apply kept_arguments_sublist. }
  unfold _create_elevated_command_unix. fold validated. cbn [app].
  destruct (str_in "--elevated" validated) eqn:Hin; cbn [negb].
  - exists []. rewrite app_nil_r. split; [reflexivity|].
    split; [left; split; [reflexivity | by apply str_in_In]|].
    split; [exact Hsub | exact Hh].
  - exists ["--elevated"]. split; [reflexivity|].
    split; [right; split; [reflexivity|]|].
    { intros H%str_in_In. congruence. }
    split; [exact Hsub|].
    apply Forall_app. split; [exact Hh|].
    constructor; [|constructor].
    intros c Hc. simpl in Hc.
    repeat (destruct Hc as [<- | Hc]; [reflexivity|]). destruct Hc.
Qed.

End ValidateArgumentsFacts.

(** ** More on the comparisons of binary64 numbers *)

Module PyFloatOrder.

Lemma cmp_mag_eq e1 m1 e2 m2 : cmp_mag e1 m1 e2 m2 = Eq -> e1 = e2 /\ m1 = m2.
Proof.
  unfold cmp_mag. destruct (Z.compare_spec e1 e2) as [He | He | He]; try discriminate.
  intros Hm%Pos.compare_eq. auto.
Qed.

Lemma cmp_mag_refl e m : cmp_mag e m e m = Eq.
Proof. unfold cmp_mag. by rewrite Z.compare_refl, Pos.compare_refl. Qed.

Lemma cmp_mag_lt_trans e1 m1 e2 m2 e3 m3 :
  cmp_mag e1 m1 e2 m2 = Lt -> cmp_mag e2 m2 e3 m3 = Lt -> cmp_mag e1 m1 e3 m3 = Lt.
Proof.
  unfold cmp_mag.
  destruct (Z.compare_spec e1 e2), (Z.compare_spec e2 e3), (Z.compare_spec e1 e3);
    try lia; try congruence.
  rewrite !Pos.compare_lt_iff. lia.
Qed.

Lemma cmp_mag_gt_trans e1 m1 e2 m2 e3 m3 :
  cmp_mag e1 m1 e2 m2 = Gt -> cmp_mag e2 m2 e3 m3 = Gt -> cmp_mag e1 m1 e3 m3 = Gt.
Proof.
  intros H1 H2.
  rewrite (cmp_mag_opp e2 m2 e1 m1) in H1. rewrite (cmp_mag_opp e3 m3 e2 m2) in H2.
  rewrite (cmp_mag_opp e3 m3 e1 m1).
  rewrite (cmp_mag_lt_trans e3 m3 e2 m2 e1 m1); [reflexivity | |].
  - by destruct (cmp_mag e3 m3 e2 m2).
  - by destruct (cmp_mag e2 m2 e1 m1).
Qed.

(** Two numbers that compare equal compare alike with any third. *)
Lemma SFcompare_eq_l x y z :
  SFcompare x y = Some Eq -> SFcompare x z = SFcompare y z.
Proof.
  destruct x as [sx|sx| |sx mx ex], y as [sy|sy| |sy my ey];
    try (destruct sx); try (destruct sy); try (simpl; congruence);
    rewrite ?SFcompare_finite; try (simpl; congruence).
  all: destruct z as [sz|sz| |sz mz ez]; try (destruct sz); try reflexivity.
  all: rewrite ?SFcompare_finite; intros [= H].
  all: try (destruct (cmp_mag ex mx ey my) eqn:E; try discriminate;
            apply cmp_mag_eq in E as [-> ->]; reflexivity).
Qed.

Lemma SFcompare_lt_trans x y z :
  SFcompare x y = Some Lt -> SFcompare y z = Some Lt -> SFcompare x z = Some Lt.
Proof.
  destruct x as [sx|sx| |sx mx ex], y as [sy|sy| |sy my ey], z as [sz|sz| |sz mz ez];
    try (destruct sx); try (destruct sy); try (destruct sz);
    try (simpl; congruence);
    rewrite ?SFcompare_finite; simpl; try congruence.
  all: intros [= H1] [= H2]; f_equal.
  all: try (by apply (cmp_mag_lt_trans _ _ ey my)).
  all: destruct (cmp_mag ex mx ey my) eqn:E1; try discriminate.
  all: destruct (cmp_mag ey my ez mz) eqn:E2; try discriminate.
  all: by rewrite (cmp_mag_gt_trans _ _ _ _ _ _ E1 E2).
Qed.

#[local] Open Scope float_scope.

Lemma ltb_compare (x y : float) :
  (x <? y) = true <-> SFcompare (Prim2SF x) (Prim2SF y) = Some Lt.
Proof.
  rewrite FloatAxioms.ltb_spec. unfold SFltb.
  destruct (SFcompare _ _) as [[]|]; split; congruence.
Qed.

Lemma eqb_compare (x y : float) :
  (x =? y) = true <-> SFcompare (Prim2SF x) (Prim2SF y) = Some Eq.
Proof.
  rewrite FloatAxioms.eqb_spec. unfold SFeqb.
  destruct (SFcompare _ _) as [[]|]; split; congruence.
Qed.

Lemma ltb_trans (x y z : float) :
  (x <? y) = true -> (y <? z) = true -> (x <? z) = true.
Proof. rewrite !ltb_compare. apply SFcompare_lt_trans. Qed.

Lemma eqb_sym (x y : float) : (x =? y) = (y =? x).
Proof.
  rewrite !FloatAxioms.eqb_spec. unfold SFeqb.
  rewrite (SFcompare_antisym (Prim2SF x) (Prim2SF y)).
  by destruct (SFcompare (Prim2SF x) (Prim2SF y)) as [[]|].
Qed.

Lemma eqb_ltb_l (x y z : float) :
  (x =? y) = true -> (x <? z) = (y <? z).
Proof.
  rewrite eqb_compare, !FloatAxioms.ltb_spec. unfold SFltb.
  intros H. by rewrite (SFcompare_eq_l _ _ (Prim2SF z) H).
Qed.

Lemma eqb_eqb_l (x y z : float) :
  (x =? y) = true -> (x =? z) = (y =? z).
Proof.
  rewrite eqb_compare, !FloatAxioms.eqb_spec. unfold SFeqb.
  intros H. by rewrite (SFcompare_eq_l _ _ (Prim2SF z) H).
Qed.

Lemma eqb_ltb_r (x y z : float) :
  (x =? y) = true -> (z <? x) = (z <? y).
Proof.
  rewrite eqb_compare, !FloatAxioms.ltb_spec. unfold SFltb. intros H.
  rewrite (SFcompare_antisym (Prim2SF x) (Prim2SF z)),
          (SFcompare_antisym (Prim2SF y) (Prim2SF z)).
  by rewrite (SFcompare_eq_l _ _ (Prim2SF z) H).
Qed.

Lemma eqb_not_nan (x y : float) :
  (x =? y) = true -> PyFloat.not_nan x = true /\ PyFloat.not_nan y = true.
Proof.
  intros H. unfold PyFloat.not_nan. split.
  - by rewrite (eqb_eqb_l x y x H), eqb_sym.
  - by rewrite <- (eqb_eqb_l x y y H).
Qed.

(** Two numbers that are not NaN are equal, or one is below the other. *)
Lemma not_lt_not_eq_gt (x y : float) :
  PyFloat.not_nan x = true -> PyFloat.not_nan y = true ->
  (x <? y) = false -> (x =? y) = false -> (y <? x) = true.
Proof.
  intros Hx Hy. destruct (not_nan_compare x y Hx Hy) as [c Hc].
  rewrite !FloatAxioms.ltb_spec, FloatAxioms.eqb_spec. unfold SFltb, SFeqb.
  rewrite (SFcompare_antisym (Prim2SF x) (Prim2SF y)), Hc.
  destruct c; simpl; congruence.
Qed.

Lemma ltb_negb_leb (x c : float) :
  PyFloat.not_nan x = true -> PyFloat.not_nan c = true ->
  (x <? c) = negb (c <=? x).
Proof.
  intros Hx Hc. destruct (x <? c) eqn:E.
  - by rewrite (ltb_leb_false _ _ E).
  - by rewrite (ltb_false_leb _ _ Hx Hc E).
Qed.

Lemma leb_infinity_r (x : float) :
  PyFloat.not_nan x = true -> (x <=? infinity) = true.
Proof.
  unfold PyFloat.not_nan. rewrite FloatAxioms.leb_spec, FloatAxioms.eqb_spec.
  change (Prim2SF infinity) with (S754_infinity false).
  by destruct (Prim2SF x) as [s|s| |s m e]; try destruct s.
Qed.

Lemma leb_infinity (x : float) : (infinity <=? x) = (x =? infinity).
Proof.
  rewrite FloatAxioms.leb_spec, FloatAxioms.eqb_spec.
  change (Prim2SF infinity) with (S754_infinity false).
  by destruct (Prim2SF x) as [s|s| |s m e]; try destruct s.
Qed.
End PyFloatOrder.

Import PyFloatOrder.


(** ** The order of the final table *)

Section FinalTableFacts.
#[local] Open Scope nat_scope.

Lemma eqb_leb (x y : float) : (x =? y)%float = true -> (x <=? y)%float = true.
Proof.
  rewrite FloatAxioms.eqb_spec, FloatAxioms.leb_spec. unfold SFeqb, SFleb.
  by destruct (SFcompare _ _) as [[]|].
Qed.

Lemma ltb_not_eqb (x y : float) : (x <? y)%float = true -> (x =? y)%float = false.
Proof.
  rewrite FloatAxioms.eqb_spec, FloatAxioms.ltb_spec. unfold SFeqb, SFltb.
  by destruct (SFcompare _ _) as [[]|].
Qed.

Lemma tuple_le_trans (a b c : float * Z) :
  tuple_le a b -> tuple_le b c -> tuple_le a c.
Proof.
  unfold tuple_le. intros [Hab | [Hab Hn]] [Hbc | [Hbc Hm]].
  - left. by apply (ltb_trans _ (fst b)).
  - left. by rewrite <- (eqb_ltb_r _ _ (fst a) Hbc).
  - left. by rewrite (eqb_ltb_l _ _ (fst c) Hab).
  - right. split; [|lia]. by rewrite (eqb_eqb_l _ _ (fst c) Hab).
Qed.

Lemma tuple_lt_le (a b : float * Z) : tuple_lt a b = true -> tuple_le a b.
Proof.
  unfold tuple_lt, tuple_le. destruct (fst a =? fst b)%float.
  - intros H%Z.ltb_lt. right. split; [reflexivity | lia].
  - intros H. by left.
Qed.

Lemma tuple_not_lt_le (a b : float * Z) :
  PyFloat.not_nan (fst a) = true -> PyFloat.not_nan (fst b) = true ->
  tuple_lt a b = false -> tuple_le b a.
Proof.
  unfold tuple_lt, tuple_le. intros Ha Hb. destruct (fst a =? fst b)%float eqn:E.
  - intros H%Z.ltb_ge. right. split; [by rewrite eqb_sym | lia].
  - intros H. left. by apply not_lt_not_eq_gt.
Qed.

Lemma tuple_le_refl (a : float * Z) : PyFloat.not_nan (fst a) = true -> tuple_le a a.
Proof. intros H. right. split; [exact H | lia]. Qed.

Lemma tuple_le_leb (a b : float * Z) : tuple_le a b -> (fst a <=? fst b)%float = true.
Proof. intros [H | [H _]]; [by apply ltb_leb | by apply eqb_leb]. Qed.

Lemma final_sort_key_not_nan (x : DNSResult) :
  PyFloat.not_nan (avg_latency x) = true ->
  PyFloat.not_nan (fst (final_sort_key x)) = true.
Proof.
  unfold final_sort_key. cbn [fst]. by destruct (PyFloat.neqb (avg_latency x) infinity).
Qed.

Lemma final_sort_key_finite (x : DNSResult) :
  avg_latency x <> infinity -> fst (final_sort_key x) = avg_latency x.
Proof.
  unfold final_sort_key, PyFloat.neqb. cbn [fst]. intros H.
  destruct (avg_latency x =? infinity)%float eqn:E; [|done].
  by apply eqb_infinity_iff in E.
Qed.

Lemma final_sort_key_infinite (x : DNSResult) :
  avg_latency x = infinity -> fst (final_sort_key x) = 999999%float.
Proof. unfold final_sort_key. cbn [fst]. by intros ->. Qed.

(** Records whose averages are equal have equal keys. *)
Lemma final_sort_key_eq (a b : DNSResult) :
  (avg_latency a =? avg_latency b)%float = true ->
  (fst (final_sort_key a) =? fst (final_sort_key b))%float = true.
Proof.
  intros Heq. unfold final_sort_key, PyFloat.neqb. cbn [fst].
  rewrite (eqb_eqb_l _ _ infinity Heq).
  destruct (avg_latency b =? infinity)%float; [reflexivity | exact Heq].
Qed.

Lemma final_sorted_results_sorted (results : list (string * DNSResult)) :
  Forall (fun x => PyFloat.not_nan (avg_latency x) = true) (dict_values results) ->
  StronglySorted final_key_le (final_sorted_results results).
Proof.
  intros Hnan. unfold final_sorted_results.
  apply (py_sort_sorted _ final_key_le (fun x => PyFloat.not_nan (avg_latency x) = true)).
  - intros a b c. apply tuple_le_trans.
  - intros a b. apply tuple_lt_le.
  - intros a b Ha Hb. apply tuple_not_lt_le; by apply final_sort_key_not_nan.
  - done.
Qed.

(** [l[:n]] is the beginning of [l]. *)
Lemma slice_to_prefix {A : Type} (n : Z) (l : list A) :
  slice_to n l ++ skipn (rows_shown n (length l)) l = l
  /\ length (slice_to n l) = rows_shown n (length l).
Proof.
  unfold slice_to, rows_shown. destruct (0 <=? n)%Z.
  - rewrite length_firstn. split; [|reflexivity].
    destruct (Nat.le_ge_cases (Z.to_nat n) (length l)) as [Hle | Hge].
    + rewrite Nat.min_l by exact Hle. apply firstn_skipn.
    + rewrite Nat.min_r by exact Hge.
      rewrite firstn_all2 by exact Hge. rewrite skipn_all. apply app_nil_r.
  - rewrite length_firstn. split; [apply firstn_skipn | lia].
Qed.

(** X16.  The final table shows the beginning of the sorted records: as many rows
    as [max_servers] allows, none when it is 0, and all the records when
    there are no more than [max_servers] of them.  The rows followed by the
    records left out are the records of [results], each once; of two of
    them, the earlier one has the smaller average when both are finite, and
    when the averages are equal it has at least as many successful
    methods. *)
Theorem final_table_order (config : ScanConfig) (results : list (string * DNSResult)) :
  Forall (fun x => PyFloat.not_nan (avg_latency x) = true) (dict_values results) ->
  let rows := final_rows config results in
  exists left_out,
    Permutation (dict_values results) (rows ++ left_out)
    /\ length rows = rows_shown (max_servers config) (length results)
    /\ ((Z.of_nat (length results) <= max_servers config)%Z -> left_out = [])
    /\ forall (i j : nat) (a b : DNSResult),
         i < j ->
         nth_error (rows ++ left_out) i = Some a ->
         nth_error (rows ++ left_out) j = Some b ->
         (avg_latency a <> infinity -> avg_latency b <> infinity ->
          float_le (avg_latency a) (avg_latency b))
         /\ ((avg_latency a =? avg_latency b)%float = true ->
             size (successful_methods b) <= size (successful_methods a)).
Proof.
  intros Hnan rows.
  pose proof (py_sort_perm (fun a b => tuple_lt (final_sort_key a) (final_sort_key b))
                (dict_values results)) as Hperm.
  fold (final_sorted_results results) in Hperm.
  assert (Hlen : length (final_sorted_results results) = length results).
  { rewrite <- (Permutation_length Hperm). unfold dict_values. by rewrite length_map. }
  destruct (slice_to_prefix (max_servers config) (final_sorted_results results))
    as [Happ Hrows].
  rewrite Hlen in Happ, Hrows. fold (final_rows config results) in Happ, Hrows.
  fold rows in Happ, Hrows.
  exists (skipn (rows_shown (max_servers config) (length results))
                (final_sorted_results results)).
  rewrite Happ. split; [exact Hperm|]. split; [exact Hrows|]. split.
  - intros Hall. apply skipn_all2. rewrite Hlen. unfold rows_shown.
    destruct (Z.leb_spec 0 (max_servers config)); lia.
  - pose proof (final_sorted_results_sorted results Hnan) as Hs.
    intros i j a b Hij Ha Hb.
    pose proof (StronglySorted_nth_error final_key_le _ i j a b Hs Hij Ha Hb) as Hle.
    unfold final_key_le in Hle. split.
    + intros Hfa Hfb. apply tuple_le_leb in Hle.
      by rewrite (final_sort_key_finite a Hfa), (final_sort_key_finite b Hfb) in Hle.
    + intros Heq. apply final_sort_key_eq in Heq.
      destruct Hle as [Hlt | [_ Hn]].
      * rewrite (ltb_not_eqb _ _ Hlt) in Heq. discriminate.
      * unfold final_sort_key in Hn. cbn [snd] in Hn. lia.
Qed.

(** ** The summary *)

Lemma count_if_perm {A : Type} (p : A -> bool) (l l' : list A) :
  Permutation l l' -> count_if p l = count_if p l'.
Proof.
  unfold count_if. induction 1 as [|x l l' _ IH|x y l|l l' l'' _ IH1 _ IH2]; simpl.
  - reflexivity.
  - destruct (p x); simpl; congruence.
  - destruct (p x), (p y); reflexivity.
  - congruence.
Qed.

Lemma count_if_sum {A : Type} (p1 p2 p3 p4 q : A -> bool) (l : list A) :
  Forall (fun x => (if p1 x then 1 else 0) + (if p2 x then 1 else 0)
                   + (if p3 x then 1 else 0) + (if p4 x then 1 else 0)
                   = if q x then 1 else 0) l ->
  count_if p1 l + count_if p2 l + count_if p3 l + count_if p4 l = count_if q l.
Proof.
  unfold count_if. induction 1 as [|x l Hx _ IH]; simpl; [reflexivity|].
  destruct (p1 x), (p2 x), (p3 x), (p4 x), (q x); simpl in *; lia.
Qed.

(** A number that is not a NaN falls into one category, unless it is +inf. *)
Lemma one_category (x : float) :
  PyFloat.not_nan x = true ->
  (if (x <? LatencyLevel.EXCELLENT)%float then 1 else 0)
  + (if (LatencyLevel.EXCELLENT <=? x)%float && (x <? LatencyLevel.GOOD)%float then 1 else 0)
  + (if (LatencyLevel.GOOD <=? x)%float && (x <? LatencyLevel.FAIR)%float then 1 else 0)
  + (if (LatencyLevel.FAIR <=? x)%float && (x <? infinity)%float then 1 else 0)
  = if PyFloat.neqb x infinity then 1 else 0.
Proof.
  intros Hx. unfold PyFloat.neqb.
  rewrite !(ltb_negb_leb x) by (exact Hx || reflexivity).
  rewrite leb_infinity.
  assert (H1 : (LatencyLevel.GOOD <=? x)%float = true ->
               (LatencyLevel.EXCELLENT <=? x)%float = true).
  { apply leb_trans. reflexivity. }
  assert (H2 : (LatencyLevel.FAIR <=? x)%float = true ->
               (LatencyLevel.GOOD <=? x)%float = true).
  { apply leb_trans. reflexivity. }
  assert (H3 : (x =? infinity)%float = true -> (LatencyLevel.FAIR <=? x)%float = true).
  { rewrite <- leb_infinity. apply leb_trans. reflexivity. }
  destruct (LatencyLevel.EXCELLENT <=? x)%float, (LatencyLevel.GOOD <=? x)%float,
    (LatencyLevel.FAIR <=? x)%float, (x =? infinity)%float; simpl; try reflexivity;
    try (specialize (H1 eq_refl)); try (specialize (H2 eq_refl));
    try (specialize (H3 eq_refl)); discriminate.
Qed.

Lemma slice_to_all {A : Type} (n : Z) (l : list A) :
  (Z.of_nat (length l) <= n)%Z -> slice_to n l = l.
Proof.
  intros Hn. unfold slice_to. destruct (Z.leb_spec 0 n) as [_ | Hneg]; [|lia].
  apply firstn_all2. lia.
Qed.

(** X17.  When no average is a NaN, the four categories of the summary count each
    record with an average other than +inf once, and no failed record; the
    number of successful servers of the summary is their sum when the table
    shows every record. *)
Theorem categories_partition_successes (config : ScanConfig)
    (results : list (string * DNSResult)) :
  Forall (fun x => PyFloat.not_nan (avg_latency x) = true) (dict_values results) ->
  excellent results + good results + fair results + poor results
  = count_if (fun r => PyFloat.neqb (avg_latency r) infinity) (dict_values results)
  /\ ((Z.of_nat (length results) <= max_servers config)%Z ->
      successful_count config results
      = excellent results + good results + fair results + poor results).
Proof.
  intros Hnan.
  pose proof (py_sort_perm (fun a b => tuple_lt (final_sort_key a) (final_sort_key b))
                (dict_values results)) as Hperm.
  fold (final_sorted_results results) in Hperm.
  assert (Hsum : excellent results + good results + fair results + poor results
                 = count_if (fun r => PyFloat.neqb (avg_latency r) infinity)
                     (final_sorted_results results)).
  { unfold excellent, good, fair, poor. apply count_if_sum.
    eapply Permutation_Forall; [exact Hperm|].
    eapply Forall_impl; [exact Hnan|]. intros r Hr. by apply one_category. }
  split.
  - rewrite Hsum. symmetry. by apply count_if_perm.
  - intros Hall. rewrite Hsum. unfold successful_count, final_rows.
    rewrite slice_to_all; [reflexivity|].
    rewrite <- (Permutation_length Hperm). unfold dict_values. by rewrite length_map.
Qed.

(** X18.  When no average is a NaN and some record has an average below 999999,
    the best DNS of the summary, the first row, has a finite average that
    none of the other records beats. *)
Theorem best_result_is_fastest (results : list (string * DNSResult))
    (some : DNSResult) :
  Forall (fun x => PyFloat.not_nan (avg_latency x) = true) (dict_values results) ->
  In some (dict_values results) ->
  (avg_latency some <? 999999)%float = true ->
  exists best,
    best_result results = Some best
    /\ In best (dict_values results)
    /\ avg_latency best <> infinity
    /\ forall r, In r (dict_values results) ->
                 float_le (avg_latency best) (avg_latency r).
Proof.
  intros Hnan Hin Hsome.
  pose proof (py_sort_perm (fun a b => tuple_lt (final_sort_key a) (final_sort_key b))
                (dict_values results)) as Hperm.
  fold (final_sorted_results results) in Hperm.
  pose proof (final_sorted_results_sorted results Hnan) as Hs.
  unfold best_result.
  destruct (final_sorted_results results) as [|best rest] eqn:Hsorted.
  { apply Permutation_nil_r in Hperm. rewrite Hperm in Hin. destruct Hin. }
  exists best. split; [reflexivity|].
  assert (Hbest : In best (dict_values results)).
  { apply (Permutation_in best (Permutation_sym Hperm)). by left. }
  assert (Hnb : PyFloat.not_nan (avg_latency best) = true).
  { rewrite List.Forall_forall in Hnan. by apply Hnan. }
  assert (Hle : forall r, In r (dict_values results) ->
                          tuple_le (final_sort_key best) (final_sort_key r)).
  { intros r Hr. apply (Permutation_in r Hperm) in Hr as [<- | Hr].
    - apply tuple_le_refl. by apply final_sort_key_not_nan.
    - apply StronglySorted_inv in Hs as [_ Hall].
      rewrite List.Forall_forall in Hall. by apply Hall. }
  assert (Hsome_key : fst (final_sort_key some) = avg_latency some).
  { apply final_sort_key_finite. intros Heq. rewrite Heq in Hsome. discriminate. }
  assert (Hfin : avg_latency best <> infinity).
  { intros Heq. pose proof (tuple_le_leb _ _ (Hle some Hin)) as H.
    rewrite (final_sort_key_infinite best Heq), Hsome_key in H.
    rewrite (leb_ltb_false _ _ H) in Hsome. discriminate. }
  split; [exact Hbest|]. split; [exact Hfin|].
  intros r Hr. pose proof (tuple_le_leb _ _ (Hle r Hr)) as H.
  rewrite (final_sort_key_finite best Hfin) in H. unfold float_le.
  destruct (avg_latency r =? infinity)%float eqn:E.
  - apply eqb_infinity_iff in E. rewrite E. rewrite leb_infinity_r; [reflexivity | exact Hnb].
  - rewrite final_sort_key_finite in H; [exact H|].
    intros Heq. rewrite Heq in E. discriminate.
Qed.

Lemma example_results_not_nan :
  Forall (fun x => PyFloat.not_nan (avg_latency x) = true) (dict_values example_results).
Proof. repeat constructor. Qed.

Lemma final_table_order_witness :
  final_rows two_rows example_results = [two_methods; one_method]
  /\ length (final_rows two_rows example_results) = 2
  /\ final_rows no_rows example_results = [].
Proof.
  assert (Hs : final_rows two_rows example_results = [two_methods; one_method])
    by (vm_compute; reflexivity).
  split; [exact Hs|].
  destruct (final_table_order two_rows example_results example_results_not_nan)
    as (left_out & _ & Hlen & _).
  split; [exact Hlen|]. vm_compute. reflexivity.
Defined.

Lemma categories_partition_successes_witness :
  excellent example_results + good example_results + fair example_results
  + poor example_results = 2
  /\ successful_count default_config example_results = 2.
Proof.
  destruct (categories_partition_successes default_config example_results
              example_results_not_nan) as [Hsum Hcount].
  split.
  - rewrite Hsum. vm_compute. reflexivity.
  - rewrite Hcount by (vm_compute; discriminate). rewrite Hsum. vm_compute. reflexivity.
Defined.

Lemma best_result_is_fastest_witness :
  exists best,
    best_result example_results = Some best
    /\ In best (dict_values example_results)
    /\ avg_latency best <> infinity
    /\ forall r, In r (dict_values example_results) ->
                 float_le (avg_latency best) (avg_latency r).
Proof.
  apply (best_result_is_fastest example_results one_method example_results_not_nan).
  - right. left. reflexivity.
  - reflexivity.
Defined.
End FinalTableFacts.

(** ** One attempt *)

Section AttemptFacts.
#[local] Open Scope nat_scope.

Lemma collected_values_not_infinite (rs : list (option float * TestMethod)) (v : float) :
  In v (collected_values rs) -> PyFloat.neqb v infinity = true.
Proof.
  unfold collected_values. rewrite in_flat_map. intros ([[w|] m] & _ & Hin); [|destruct Hin].
  destruct (PyFloat.neqb w infinity) eqn:E; [|destruct Hin].
  destruct Hin as [<- | []]. exact E.
Qed.

Lemma collected_methods_source (rs : list (option float * TestMethod)) (m : TestMethod) :
  m ∈ collected_methods rs
  <-> exists v, In (Some v, m) rs /\ PyFloat.neqb v infinity = true.
Proof.
  unfold collected_methods. rewrite elem_of_list_to_set, list_elem_of_In, in_flat_map. split.
  - intros ([[w|] m'] & Hin & Hm); [|destruct Hm].
    destruct (PyFloat.neqb w infinity) eqn:E; [|destruct Hm].
    destruct Hm as [<- | []]. by exists w.
  - intros (v & Hin & Hv). exists (Some v, m). split; [exact Hin|].
    rewrite Hv. by left.
Qed.

Lemma collected_none (rs : list (option float * TestMethod)) :
  collected_values rs = [] -> collected_methods rs = ∅.
Proof.
  intros Hnil. apply set_eq. intros m. rewrite collected_methods_source. split.
  - intros (v & Hin & Hv). exfalso.
    assert (In v (collected_values rs)); [|by rewrite Hnil in *].
    unfold collected_values. apply in_flat_map. exists (Some v, m).
    split; [exact Hin|]. rewrite Hv. by left.
  - set_solver.
Qed.

Lemma collected_some (rs : list (option float * TestMethod)) :
  collected_values rs <> [] -> collected_methods rs <> ∅.
Proof.
  intros Hne. destruct (collected_values rs) as [|v vs] eqn:E; [done|].
  assert (Hin : In v (collected_values rs)) by (rewrite E; by left).
  pose proof (collected_values_not_infinite rs v Hin) as Hv.
  unfold collected_values in Hin. apply in_flat_map in Hin as ([[w|] m] & Hin & Hw);
    [|destruct Hw].
  destruct (PyFloat.neqb w infinity) eqn:Ew; [|destruct Hw].
  destruct Hw as [<- | []].
  intros Hempty.
  assert (m ∈ collected_methods rs) as Hm by (apply collected_methods_source; by exists w).
  rewrite Hempty in Hm. set_solver.
Qed.

Lemma median_In (ms : list float) : ms <> [] -> In (median ms) ms.
Proof.
  intros Hne. unfold median.
  apply (Permutation_in _ (Permutation_sym (py_sort_perm PrimFloat.ltb ms))).
  apply nth_In. rewrite py_sort_length.
  destruct ms as [|v vs]; [done|]. apply Nat.div_lt; simpl; lia.
Qed.

Lemma neqb_infinity_neq (v : float) : PyFloat.neqb v infinity = true -> v <> infinity.
Proof. intros H ->. vm_compute in H. discriminate. Qed.

(** X19.  The two tests that the worker applies to the result of an attempt agree:
    the latency is [+inf] exactly when the set of methods is empty.  A
    latency other than [+inf] is one of the values that the enabled probes
    returned, and each method of the set is an enabled probe that returned a
    number other than [+inf]. *)
Theorem attempt_latency_and_methods_agree (config : ScanConfig) (HAS_DNSPYTHON : bool)
    (dns sock ping : option float) :
  let tasks := gathered config HAS_DNSPYTHON dns sock ping in
  let r := _measure_server_latency config HAS_DNSPYTHON dns sock ping in
  (fst r = infinity <-> snd r = ∅)
  /\ (fst r = infinity <-> collected_values tasks = [])
  /\ (fst r <> infinity -> In (Some (fst r)) (map fst tasks))
  /\ (forall m, m ∈ snd r ->
        exists v, In (Some v, m) tasks /\ PyFloat.neqb v infinity = true).
Proof.
  intros tasks r. subst r. rewrite measure_server_latency_spec. fold tasks.
  destruct (collected_values tasks) as [|v vs] eqn:E.
  - cbn [fst snd]. split; [tauto|]. split; [tauto|]. split; [tauto|]. set_solver.
  - cbn [fst snd].
    assert (Hin : In (median (v :: vs)) (collected_values tasks)).
    { rewrite E. by apply median_In. }
    assert (Hne : median (v :: vs) <> infinity).
    { apply neqb_infinity_neq. by apply (collected_values_not_infinite tasks). }
    assert (Hms : collected_methods tasks <> ∅).
    { apply collected_some. by rewrite E. }
    split; [tauto|]. split; [split; [tauto | discriminate]|]. split.
    + intros _. unfold collected_values in Hin.
      apply in_flat_map in Hin as ([[w|] m] & Hw & Hm); [|destruct Hm].
      destruct (PyFloat.neqb w infinity); [|destruct Hm].
      destruct Hm as [<- | []]. apply in_map_iff. by exists (Some w, m).
    + intros m. apply collected_methods_source.
Qed.
End AttemptFacts.

(** ** The record of one server *)

Section RecordFacts.
#[local] Open Scope nat_scope.
Variable next_iter : gset TestMethod -> TestMethod.

Lemma succeeded_not_infinite (a : attempt) (lat : float) (methods : gset TestMethod) :
  succeeded a = Some (lat, methods) ->
  PyFloat.neqb lat infinity = true /\ methods <> ∅.
Proof.
  unfold succeeded. destruct (measured a) as [[l ms]|]; [|done].
  destruct (PyFloat.neqb l infinity) eqn:E; [|done]. simpl.
  destruct (bool_decide (ms = ∅)) eqn:B; [done|].
  intros [= <- <-]. split; [exact E|]. by apply bool_decide_eq_false in B.
Qed.

(** What the loop does to the record. *)
Lemma fold_attempts_record (attempts : list attempt) (st : worker_state) :
  ping_count (result (fold_left (attempt_step next_iter) attempts st))
  = ping_count (result st) + length (counted_successes (successes attempts))
  /\ successful_methods (result (fold_left (attempt_step next_iter) attempts st))
     = successful_methods (result st)
       ∪ list_to_set (map (fun w => next_iter (snd w))
                          (counted_successes (successes attempts))).
Proof.
  revert st. induction attempts as [|a rest IH]; intros st.
  - simpl. split; [lia|]. set_solver.
  - simpl fold_left. simpl successes.
    destruct (succeeded a) as [[lat methods]|] eqn:E.
    + rewrite (attempt_step_succeeded next_iter st a lat methods E).
      destruct (succeeded_not_infinite a lat methods E) as [Hfin _].
      destruct (IH {| result := update_latency (result st) lat (next_iter methods) (at_time a);
                      successful_tests := S (successful_tests st);
                      total_latency := (total_latency st + lat)%float;
                      all_methods := all_methods st ∪ methods |}) as [H1 H2].
      cbn [result] in H1, H2. rewrite H1, H2.
      unfold counted_successes. cbn [List.filter fst].
      destruct (PyFloat.gtb lat 0) eqn:Hpos.
      * assert (Hacc : accepted lat = true) by (unfold accepted; by rewrite Hfin, Hpos).
        destruct (update_latency_accepted (result st) lat (next_iter methods) (at_time a) Hacc)
          as (Hc & _ & _ & Hm & _).
        rewrite Hc, Hm. cbn [length map snd]. split; [lia|]. set_solver.
      * assert (Hacc : accepted lat = false) by (unfold accepted; by rewrite Hfin, Hpos).
        rewrite (update_latency_rejected (result st) lat (next_iter methods) (at_time a) Hacc).
        done.
    + rewrite (attempt_step_failed next_iter st a E). apply IH.
Qed.

(** X20.  The stored record counts the successful attempts whose latency is above
    zero, and holds one method of each of them, the one that
    [next(iter(methods))] yields; the successful attempts are at most
    [ping_count], and none when [ping_count] is not positive. *)
Theorem record_counts_positive_successes (config : ScanConfig) (srv prov : string)
    (created : Z) (world : nat -> attempt) :
  let r := fst (_scan_server_multiple next_iter config srv prov created world) in
  let won := successes (attempts_made config world) in
  ping_count r = length (counted_successes won)
  /\ successful_methods r
     = list_to_set (map (fun w => next_iter (snd w)) (counted_successes won))
  /\ length (counted_successes won) <= length won
  /\ length won <= Z.to_nat (cfg_ping_count config).
Proof.
  intros r won. subst r. unfold _scan_server_multiple. cbn [fst].
  destruct (finish_keeps config (run_attempts next_iter config srv prov created world))
    as (Hc & Hm & _).
  rewrite Hc, Hm. unfold run_attempts.
  destruct (fold_attempts_record (attempts_made config world)
              (initial_worker_state srv prov created)) as [H1 H2].
  fold won in H1, H2. rewrite H1, H2. cbn [initial_worker_state result new_DNSResult
    ping_count successful_methods].
  split; [lia|]. split; [set_solver|]. split.
  - unfold counted_successes. apply filter_length_le.
  - subst won. etransitivity; [apply successes_length|].
    unfold attempts_made. by rewrite length_map, length_seq.
Qed.

Lemma fold_attempts_none (attempts : list attempt) (st : worker_state) :
  successes attempts = [] -> fold_left (attempt_step next_iter) attempts st = st.
Proof.
  revert st. induction attempts as [|a rest IH]; intros st; [reflexivity|].
  simpl. destruct (succeeded a) as [w|] eqn:E; [discriminate|].
  intros Hrest. rewrite (attempt_step_failed next_iter st a E). by apply IH.
Qed.

(** X21.  A server is counted as failed exactly when none of its attempts
    succeeded, as is the case when [ping_count] is not positive; its record
    then is the fresh record with the status "Failed - 0/n". *)
Theorem failed_server_record (config : ScanConfig) (srv prov : string)
    (created : Z) (world : nat -> attempt) :
  (snd (_scan_server_multiple next_iter config srv prov created world) = false
   <-> successes (attempts_made config world) = [])
  /\ ((cfg_ping_count config <= 0)%Z ->
      snd (_scan_server_multiple next_iter config srv prov created world) = false)
  /\ (snd (_scan_server_multiple next_iter config srv prov created world) = false ->
      fst (_scan_server_multiple next_iter config srv prov created world)
      = failed_result config srv prov created).
Proof.
  unfold _scan_server_multiple. cbn [fst snd].
  destruct (scan_record_summary next_iter config srv prov created world) as (Hn & _ & _).
  cbv zeta in Hn.
  assert (Hiff : (0 <? successful_tests (run_attempts next_iter config srv prov created world))
                 = false
                 <-> successes (attempts_made config world) = []).
  { rewrite Hn, Nat.ltb_ge. split.
    - intros H. destruct (successes _); [reflexivity | simpl in H; lia].
    - intros ->. simpl. lia. }
  split; [exact Hiff|]. split.
  - intros Hz. apply Hiff. unfold attempts_made.
    replace (Z.to_nat (cfg_ping_count config)) with 0 by lia. reflexivity.
  - intros Hf. unfold finish. rewrite Hf.
    apply Hiff in Hf. unfold run_attempts. rewrite (fold_attempts_none _ _ Hf).
    reflexivity.
Qed.

(** X22.  When [next(iter(methods))] yields an element of the set, the methods of
    the stored record are among the methods that succeeded in some attempt. *)
Theorem stored_methods_succeeded (config : ScanConfig) (srv prov : string)
    (created : Z) (world : nat -> attempt) :
  (forall s : gset TestMethod, s <> ∅ -> next_iter s ∈ s) ->
  successful_methods (fst (_scan_server_multiple next_iter config srv prov created world))
  ⊆ all_methods (run_attempts next_iter config srv prov created world).
Proof.
  intros Hnext.
  destruct (scan_record_summary next_iter config srv prov created world) as (_ & _ & Ha).
  cbv zeta in Ha. rewrite Ha.
  unfold _scan_server_multiple. cbn [fst].
  destruct (finish_keeps config (run_attempts next_iter config srv prov created world))
    as (_ & Hm & _).
  rewrite Hm. unfold run_attempts.
  destruct (fold_attempts_record (attempts_made config world)
              (initial_worker_state srv prov created)) as [_ H2].
  rewrite H2. cbn [initial_worker_state result new_DNSResult successful_methods].
  intros m Hin. apply elem_of_union in Hin as [Hin | Hin]; [set_solver|].
  apply elem_of_list_to_set, list_elem_of_In, in_map_iff in Hin as ([lat ms] & <- & Hw).
  unfold counted_successes in Hw. apply filter_In in Hw as [Hw _].
  apply elem_of_union_list. exists ms. split.
  - apply list_elem_of_In, in_map_iff. by exists (lat, ms).
  - apply Hnext. cbn [snd].
    clear -Hw. induction (attempts_made config world) as [|a rest IH]; [destruct Hw|].
    simpl in Hw. destruct (succeeded a) as [[l s]|] eqn:E; [|by apply IH].
    destruct Hw as [[= -> ->] | Hw]; [|by apply IH].
    by destruct (succeeded_not_infinite a lat ms E).
Qed.
End RecordFacts.

Lemma failed_server_record_witness :
  fst (_scan_server_multiple first_element no_attempts "8.8.8.8" "Google" 0
         (fun _ => mkAttempt (Some (12%float, {[ PING ]})) 1))
  = failed_result no_attempts "8.8.8.8" "Google" 0.
Proof.
  destruct (failed_server_record first_element no_attempts "8.8.8.8" "Google" 0
              (fun _ => mkAttempt (Some (12%float, {[ PING ]})) 1)) as (_ & Hz & Hr).
  apply Hr, Hz. vm_compute. discriminate.
Defined.

Lemma first_element_elem (s : gset TestMethod) : s <> ∅ -> first_element s ∈ s.
Proof.
  intros Hne. unfold first_element.
  destruct (elements s) as [|x l] eqn:E.
  - apply elements_empty_inv in E. by apply leibniz_equiv in E.
  - simpl. apply elem_of_elements. rewrite E. by left.
Qed.

Lemma stored_methods_succeeded_witness :
  successful_methods
    (fst (_scan_server_multiple first_element three_pings "8.8.8.8" "Google" 0
            partial_success))
  ⊆ all_methods (run_attempts first_element three_pings "8.8.8.8" "Google" 0
                   partial_success).
Proof.
  apply (stored_methods_succeeded first_element three_pings "8.8.8.8" "Google" 0
           partial_success first_element_elem).
Defined.

(** ** Choosing the servers to configure *)


Section SelectionFacts.
#[local] Open Scope nat_scope.

(** In a table without NaN whose finite averages are below the sentinel, no
    failed record stands above a record with a finite average. *)
Lemma failed_rows_last (l : list DNSResult) :
  StronglySorted final_key_le l ->
  Forall below_sentinel l ->
  valid_results l = firstn (length (valid_results l)) l.
Proof.
  intros Hs Hb. induction Hs as [|a l Hs IH Ha]; [reflexivity|].
  apply Forall_cons in Hb as [Hba Hbl]. specialize (IH Hbl).
  unfold valid_results in *. cbn [List.filter].
  destruct (PyFloat.neqb (avg_latency a) infinity) eqn:Ea.
  - cbn [length firstn]. by rewrite <- IH.
  - assert (Hinf : avg_latency a = infinity).
    { unfold PyFloat.neqb in Ea. apply negb_false_iff in Ea.
      by apply eqb_infinity_iff in Ea. }
    assert (Hnone : List.filter (fun r => PyFloat.neqb (avg_latency r) infinity) l = []).
    { clear IH. induction l as [|b l IHl]; [reflexivity|].
      apply Forall_cons in Ha as [Hab Ha]. apply Forall_cons in Hbl as [Hbb Hbl].
      apply StronglySorted_inv in Hs as [Hs _].
      cbn [List.filter]. rewrite (IHl Hs Ha Hbl).
      destruct (PyFloat.neqb (avg_latency b) infinity) eqn:Eb; [|reflexivity].
      exfalso. destruct Hbb as [Hb | Hb]; [rewrite Hb in Eb; discriminate|].
      unfold final_key_le in Hab. apply tuple_le_leb in Hab.
      rewrite (final_sort_key_infinite a Hinf) in Hab.
      rewrite final_sort_key_finite in Hab by (by apply neqb_infinity_neq).
      rewrite (leb_ltb_false _ _ Hab) in Hb. discriminate. }
    rewrite Hnone. reflexivity.
Qed.

Lemma nth_error_firstn {A : Type} (l : list A) (n i : nat) :
  i < n -> nth_error (firstn n l) i = nth_error l i.
Proof.
  revert n i. induction l as [|x l IH]; intros [|n] [|i] Hi; simpl; try lia; try reflexivity.
  apply IH. lia.
Qed.

(** X23.  When no average is a NaN and every finite average is below 999999, the
    server that a valid rank selects is the server of the row with that
    rank in the final table, and its average is finite. *)
Theorem selected_rank_is_table_row (results : list (string * DNSResult)) (rank : Z) :
  Forall (fun x => PyFloat.not_nan (avg_latency x) = true) (dict_values results) ->
  Forall below_sentinel (dict_values results) ->
  (1 <= rank <= Z.of_nat (length (valid_results (final_sorted_results results))))%Z ->
  exists row,
    selected_result rank (final_sorted_results results) = Some row
    /\ nth_error (final_sorted_results results) (Z.to_nat (rank - 1)) = Some row
    /\ avg_latency row <> infinity.
Proof.
  intros Hnan Hbelow Hrank.
  pose proof (final_sorted_results_sorted results Hnan) as Hs.
  pose proof (py_sort_perm (fun a b => tuple_lt (final_sort_key a) (final_sort_key b))
                (dict_values results)) as Hperm.
  fold (final_sorted_results results) in Hperm.
  assert (Hb : Forall below_sentinel (final_sorted_results results)).
  { eapply Permutation_Forall; [exact Hperm | exact Hbelow]. }
  pose proof (failed_rows_last _ Hs Hb) as Hprefix.
  unfold selected_result.
  destruct (Z.leb_spec 1 rank) as [_|]; [|lia].
  destruct (Z.leb_spec rank (Z.of_nat (length (valid_results (final_sorted_results results)))))
    as [_|]; [|lia].
  cbn [andb].
  destruct (nth_error (valid_results (final_sorted_results results)) (Z.to_nat (rank - 1)))
    as [row|] eqn:Hrow.
  - exists row. split; [reflexivity|]. split.
    + rewrite Hprefix in Hrow. rewrite nth_error_firstn in Hrow by lia. exact Hrow.
    + apply nth_error_In in Hrow. unfold valid_results in Hrow.
      apply filter_In in Hrow as [_ Hrow]. by apply neqb_infinity_neq.
  - apply nth_error_None in Hrow. lia.
Qed.

Lemma find_first {A : Type} (p : A -> bool) (l : list A) (x : A) :
  List.find p l = Some x ->
  exists l1 l2, l = l1 ++ x :: l2 /\ p x = true.
Proof.
  induction l as [|y l IH]; simpl; [discriminate|].
  destruct (p y) eqn:E.
  - intros [= ->]. by exists [], l.
  - intros H. destruct (IH H) as (l1 & l2 & -> & Hx). by exists (y :: l1), l2.
Qed.

Lemma find_first_none {A : Type} (p : A -> bool) (l : list A) (x : A) :
  List.find p l = Some x ->
  forall y, In y l -> p y = true ->
  exists l1 l2, l = l1 ++ x :: l2 /\ (y = x \/ In y l2).
Proof.
  induction l as [|z l IH]; simpl; [discriminate|].
  destruct (p z) eqn:E.
  - intros [= ->] y [-> | Hy] _; exists [], l; auto.
  - intros H y [-> | Hy] Hp; [congruence|].
    destruct (IH H y Hy Hp) as (l1 & l2 & -> & Hcase). by exists (z :: l1), l2.
Qed.

Lemma StronglySorted_filter {A : Type} (le : A -> A -> Prop) (p : A -> bool) (l : list A) :
  StronglySorted le l -> StronglySorted le (List.filter p l).
Proof.
  induction 1 as [|a l Hs IH Ha]; simpl; [constructor|].
  destruct (p a); [|exact IH]. constructor; [exact IH|].
  rewrite List.Forall_forall in *. intros x Hx. apply filter_In in Hx as [Hx _]. by apply Ha.
Qed.

Lemma StronglySorted_app_r {A : Type} (le : A -> A -> Prop) (l1 l2 : list A) (x : A) :
  StronglySorted le (l1 ++ x :: l2) -> Forall (le x) l2.
Proof.
  induction l1 as [|y l1 IH]; simpl; intros H; apply StronglySorted_inv in H as [H Hall];
    [exact Hall | by apply IH].
Qed.

(** X24.  When no average is a NaN, the secondary server is another server of the
    provider of the selected one, with a finite average that no other such
    server beats; there is none exactly when no record qualifies. *)
Theorem secondary_is_fastest_of_provider (results : list (string * DNSResult))
    (selected : DNSResult) :
  Forall (fun x => PyFloat.not_nan (avg_latency x) = true) (dict_values results) ->
  match secondary_dns selected (valid_results (final_sorted_results results)) with
  | Some address =>
      exists r, In r (dict_values results)
                /\ server r = address
                /\ address <> server selected
                /\ provider r = provider selected
                /\ avg_latency r <> infinity
                /\ forall other, In other (dict_values results) ->
                                 secondary_candidate selected other = true ->
                                 float_le (avg_latency r) (avg_latency other)
  | None =>
      forall other, In other (dict_values results) ->
                    secondary_candidate selected other = false
  end.
Proof.
  intros Hnan.
  pose proof (final_sorted_results_sorted results Hnan) as Hs.
  pose proof (py_sort_perm (fun a b => tuple_lt (final_sort_key a) (final_sort_key b))
                (dict_values results)) as Hperm.
  fold (final_sorted_results results) in Hperm.
  assert (Hvalid : forall x, In x (dict_values results) ->
                             secondary_candidate selected x = true ->
                             In x (valid_results (final_sorted_results results))).
  { intros x Hx Hc. unfold valid_results. apply filter_In. split.
    - by apply (Permutation_in x Hperm).
    - unfold secondary_candidate in Hc. by apply andb_true_iff in Hc as [_ Hc]. }
  pose proof (StronglySorted_filter final_key_le
                (fun r => PyFloat.neqb (avg_latency r) infinity) _ Hs) as Hsv.
  fold (valid_results (final_sorted_results results)) in Hsv.
  unfold secondary_dns.
  destruct (List.find (secondary_candidate selected)
              (valid_results (final_sorted_results results))) as [r|] eqn:Hfind.
  - destruct (find_first _ _ _ Hfind) as (l1 & l2 & Hl & Hr).
    assert (Hin : In r (dict_values results)).
    { apply (Permutation_in r (Permutation_sym Hperm)).
      assert (In r (valid_results (final_sorted_results results))) as H
        by (rewrite Hl; apply in_app_iff; right; by left).
      unfold valid_results in H. by apply filter_In in H as [H _]. }
    assert (Hnr : PyFloat.not_nan (avg_latency r) = true).
    { rewrite List.Forall_forall in Hnan. by apply Hnan. }
    unfold secondary_candidate in Hr.
    apply andb_true_iff in Hr as [Hr Havg]. apply andb_true_iff in Hr as [Hsrv Hprov].
    exists r. split; [exact Hin|]. split; [reflexivity|]. split.
    { intros Heq. rewrite Heq, String.eqb_refl in Hsrv. discriminate. }
    split; [by apply String.eqb_eq|]. split; [by apply neqb_infinity_neq|].
    intros other Hother Hc.
    destruct (find_first_none _ _ _ Hfind other (Hvalid other Hother Hc) Hc)
      as (k1 & k2 & Hk & Hcase).
    unfold float_le. destruct Hcase as [-> | Hlater]; [by apply leb_refl|].
    rewrite Hk in Hsv. apply StronglySorted_app_r in Hsv.
    rewrite List.Forall_forall in Hsv. specialize (Hsv other Hlater).
    unfold final_key_le in Hsv. apply tuple_le_leb in Hsv.
    rewrite final_sort_key_finite in Hsv by (by apply neqb_infinity_neq).
    rewrite final_sort_key_finite in Hsv; [exact Hsv|].
    apply neqb_infinity_neq. unfold secondary_candidate in Hc.
    by apply andb_true_iff in Hc as [_ Hc].
  - intros other Hother. destruct (secondary_candidate selected other) eqn:Hc; [|reflexivity].
    exfalso. pose proof (find_none _ _ Hfind other (Hvalid other Hother Hc)). congruence.
Qed.

Lemma provider_results_not_nan :
  Forall (fun x => PyFloat.not_nan (avg_latency x) = true) (dict_values provider_results).
Proof. repeat constructor. Qed.

Lemma selected_rank_is_table_row_witness :
  exists row,
    selected_result 2 (final_sorted_results provider_results) = Some row
    /\ nth_error (final_sorted_results provider_results) (Z.to_nat (2 - 1)) = Some row
    /\ avg_latency row <> infinity.
Proof.
  apply (selected_rank_is_table_row provider_results 2 provider_results_not_nan).
  - repeat constructor; unfold below_sentinel; (by left) || (by right).
  - vm_compute. split; discriminate.
Defined.

Lemma secondary_is_fastest_of_provider_witness :
  secondary_dns (provider_record "8.8.4.4" "Google" 30)
    (valid_results (final_sorted_results provider_results)) = Some "8.8.8.8"
  /\ exists r, In r (dict_values provider_results) /\ server r = "8.8.8.8"
               /\ avg_latency r <> infinity.
Proof.
  pose proof (secondary_is_fastest_of_provider provider_results
                (provider_record "8.8.4.4" "Google" 30) provider_results_not_nan) as H.
  assert (Hs : secondary_dns (provider_record "8.8.4.4" "Google" 30)
                 (valid_results (final_sorted_results provider_results)) = Some "8.8.8.8")
    by (vm_compute; reflexivity).
  rewrite Hs in H. split; [exact Hs|].
  destruct H as (r & Hin & Hsrv & _ & _ & Havg & _). by exists r.
Defined.
End SelectionFacts.

(** ** The configuration of [main] *)


Section MainFacts.

(** X25.  A configuration that [main] accepts has at least one worker, between 8
    and 32 when the count is chosen automatically, and at least one probe
    method that [_measure_server_latency] will run. *)
Theorem main_config_is_usable (args : cli_args) (HAS_DNSPYTHON : bool)
    (cpu_count : option Z) (config : ScanConfig) :
  main_config args HAS_DNSPYTHON cpu_count = Some config ->
  (arg_workers args <= 0 -> 8 <= max_workers config <= 32)%Z
  /\ (0 < arg_workers args -> max_workers config = arg_workers args)%Z
  /\ (1 <= max_workers config)%Z
  /\ forall dns sock ping, gathered config HAS_DNSPYTHON dns sock ping <> [].
Proof.
  unfold main_config. cbn [enable_dns_query enable_socket enable_ping].
  destruct (negb _) eqn:Hany; [discriminate|]. intros [= <-].
  cbn [max_workers]. unfold worker_count.
  destruct (Z.leb_spec (arg_workers args) 0) as [Hauto | Hgiven].
  - split; [lia|]. split; [lia|]. split; [lia|].
    intros dns sock ping. unfold gathered. cbn [enable_dns_query enable_socket enable_ping].
    apply negb_false_iff in Hany.
    destruct (arg_no_dns args), HAS_DNSPYTHON, (arg_no_socket args), (arg_no_ping args);
      try discriminate; by cbn.
  - split; [lia|]. split; [lia|]. split; [lia|].
    intros dns sock ping. unfold gathered. cbn [enable_dns_query enable_socket enable_ping].
    apply negb_false_iff in Hany.
    destruct (arg_no_dns args), HAS_DNSPYTHON, (arg_no_socket args), (arg_no_ping args);
      try discriminate; by cbn.
Qed.

Lemma main_config_is_usable_witness :
  main_config example_cli true (Some 2%Z)
  = Some (mkScanConfig 50 4 1 8 0.5 true true false)
  /\ (8 <= max_workers (mkScanConfig 50 4 1 8 0.5 true true false) <= 32)%Z.
Proof.
  assert (H : main_config example_cli true (Some 2%Z)
              = Some (mkScanConfig 50 4 1 8 0.5 true true false))
    by (vm_compute; reflexivity).
  split; [exact H|].
  destruct (main_config_is_usable example_cli true (Some 2%Z) _ H) as (Hauto & _).
  apply Hauto. vm_compute. discriminate.
Defined.

(** ** The echo probe *)

Lemma first_parsed_source (marker : string) (parse : string -> option float)
    (lines : list string) (v : float) :
  first_parsed marker parse lines = Some v ->
  exists before line after,
    lines = before ++ line :: after
    /\ PyStr.contains marker line = true
    /\ parse line = Some v
    /\ Forall (fun l => PyStr.contains marker l = false \/ parse l = None) before.
Proof.
  induction lines as [|l rest IH]; simpl; [discriminate|].
  destruct (PyStr.contains marker l) eqn:Hc.
  - destruct (parse l) as [w|] eqn:Hp.
    + intros [= ->]. exists [], l, rest. repeat split; auto.
    + intros H. destruct (IH H) as (b & ln & a & -> & H1 & H2 & H3).
      exists (l :: b), ln, a. repeat split; auto.
  - intros H. destruct (IH H) as (b & ln & a & -> & H1 & H2 & H3).
    exists (l :: b), ln, a. repeat split; auto.
Qed.

(** X26.  The echo probe returns a latency only when the probe is enabled, the
    ping utility ran and exited with code 0, and its output has a line with
    the marker of the platform from which the number was read: the first
    such line that parses. *)
Theorem ping_latency_comes_from_output (config : ScanConfig) (nt : bool)
    (w : ping_world) (v : float) :
  _measure_ping_latency config nt w = Some v ->
  enable_ping config = true
  /\ ping_raised w = false
  /\ returncode w = 0%Z
  /\ exists marker parse before line after,
       PyStr.split newline (output w) = before ++ line :: after
       /\ PyStr.contains marker line = true
       /\ parse line = Some v
       /\ Forall (fun l => PyStr.contains marker l = false \/ parse l = None) before
       /\ ((nt = false /\ marker = "avg" /\ parse = parse_posix_avg)
           \/ (nt = true /\ marker = "Average =" /\ parse = parse_windows_average)
           \/ (nt = true /\ marker = "time=" /\ parse = parse_windows_time
               /\ PyStr.contains "Average =" (output w) = false)).
Proof.
  unfold _measure_ping_latency.
  destruct (enable_ping config); [|discriminate]. cbn [negb].
  destruct (ping_raised w); [discriminate|].
  destruct (Z.eqb_spec (returncode w) 0) as [Hrc | Hrc]; [|discriminate]. cbn [negb].
  intros H. split; [reflexivity|]. split; [reflexivity|]. split; [exact Hrc|].
  destruct nt.
  - destruct (PyStr.contains "Average =" (output w)) eqn:Havg.
    + destruct (first_parsed_source _ _ _ _ H) as (b & l & a & H0 & H1 & H2 & H3).
      exists "Average =", parse_windows_average, b, l, a. repeat split; auto.
    + destruct (PyStr.contains "time=" (output w)); [|discriminate].
      destruct (first_parsed_source _ _ _ _ H) as (b & l & a & H0 & H1 & H2 & H3).
      exists "time=", parse_windows_time, b, l, a. repeat split; auto 10.
  - destruct (PyStr.contains "avg" (output w)); [|discriminate].
    destruct (first_parsed_source _ _ _ _ H) as (b & l & a & H0 & H1 & H2 & H3).
    exists "avg", parse_posix_avg, b, l, a. repeat split; auto.
Qed.

Lemma ping_latency_comes_from_output_witness :
  _measure_ping_latency all_enabled false posix_ping_12 = Some 12.5%float
  /\ returncode posix_ping_12 = 0%Z.
Proof.
  assert (H : _measure_ping_latency all_enabled false posix_ping_12 = Some 12.5%float)
    by (vm_compute; reflexivity).
  split; [exact H|].
  by destruct (ping_latency_comes_from_output all_enabled false posix_ping_12 _ H)
    as (_ & _ & Hrc & _).
Defined.
End MainFacts.

(** ** Colours, icons and bars *)


Section DisplayFacts.
#[local] Open Scope nat_scope.

Lemma ltb_leb_trans (x y c : float) :
  (x <=? y)%float = true -> (y <? c)%float = true -> (x <? c)%float = true.
Proof.
  intros Hxy Hyc. destruct (leb_not_nan _ _ Hxy) as [Hx Hy].
  destruct (x <? c)%float eqn:E; [reflexivity|].
  assert (Hc : PyFloat.not_nan c = true).
  { apply ltb_leb in Hyc. by destruct (leb_not_nan _ _ Hyc). }
  pose proof (ltb_false_leb _ _ Hx Hc E) as Hcx.
  pose proof (leb_trans _ _ _ Hcx Hxy) as Hcy.
  rewrite (leb_ltb_false _ _ Hcy) in Hyc. discriminate.
Qed.

(** X27.  A lower latency never gets a worse colour, and the icon of a latency
    other than [+inf] shows the band of its colour; a failure has the icon
    of its own. *)
Theorem colors_follow_latency (l1 l2 : float) :
  ((l1 <=? l2)%float = true ->
   color_rank (_get_latency_color l1) <= color_rank (_get_latency_color l2))
  /\ (l1 <> infinity -> icon_color (_get_status_icon l1) = _get_latency_color l1)
  /\ (_get_status_icon l1 = ICON_FAIL <-> l1 = infinity).
Proof.
  split; [|split].
  - intros Hle. unfold _get_latency_color.
    pose proof (ltb_leb_trans l1 l2 LatencyLevel.EXCELLENT Hle) as H1.
    pose proof (ltb_leb_trans l1 l2 LatencyLevel.GOOD Hle) as H2.
    pose proof (ltb_leb_trans l1 l2 LatencyLevel.FAIR Hle) as H3.
    destruct (l2 <? LatencyLevel.EXCELLENT)%float;
      [rewrite (H1 eq_refl); simpl; lia|].
    destruct (l2 <? LatencyLevel.GOOD)%float.
    { rewrite (H2 eq_refl). destruct (l1 <? LatencyLevel.EXCELLENT)%float; simpl; lia. }
    destruct (l2 <? LatencyLevel.FAIR)%float.
    { rewrite (H3 eq_refl).
      destruct (l1 <? LatencyLevel.EXCELLENT)%float, (l1 <? LatencyLevel.GOOD)%float;
        simpl; lia. }
    destruct (l1 <? LatencyLevel.EXCELLENT)%float, (l1 <? LatencyLevel.GOOD)%float,
      (l1 <? LatencyLevel.FAIR)%float; simpl; lia.
  - intros Hne. unfold _get_status_icon, _get_latency_color.
    destruct (l1 =? infinity)%float eqn:E; [by apply eqb_infinity_iff in E|].
    by destruct (l1 <? LatencyLevel.EXCELLENT)%float, (l1 <? LatencyLevel.GOOD)%float,
      (l1 <? LatencyLevel.FAIR)%float.
  - unfold _get_status_icon. destruct (l1 =? infinity)%float eqn:E.
    + apply eqb_infinity_iff in E. tauto.
    + split.
      * by destruct (l1 <? LatencyLevel.EXCELLENT)%float, (l1 <? LatencyLevel.GOOD)%float,
          (l1 <? LatencyLevel.FAIR)%float.
      * intros ->. discriminate.
Qed.

(** X28.  A bar has at least one full cell and, for a width of at least one cell,
    exactly [width] cells, in the colour of the latency; [+inf] gives the
    icon of a failure and a [max_latency] of zero an exception. *)
Theorem latency_bar_width (latency max_latency : float) (width : nat) :
  (forall color filled blank,
     _create_latency_bar latency max_latency width = Bar color filled blank ->
     1 <= filled /\ filled + blank = Nat.max 1 width
     /\ color = _get_latency_color latency)
  /\ (_create_latency_bar latency max_latency width = BarFail <-> latency = infinity)
  /\ (latency <> infinity -> (max_latency =? 0)%float = true ->
      _create_latency_bar latency max_latency width = BarRaises).
Proof.
  unfold _create_latency_bar. split; [|split].
  - intros color filled blank.
    destruct (latency =? infinity)%float; [discriminate|].
    destruct (max_latency =? 0)%float; [discriminate|].
    destruct (py_int _) as [cells|]; [|discriminate].
    intros [= <- <- <-]. split; [lia|]. split; [lia | reflexivity].
  - destruct (latency =? infinity)%float eqn:E.
    + apply eqb_infinity_iff in E. tauto.
    + split.
      * destruct (max_latency =? 0)%float; [discriminate|].
        destruct (py_int _); discriminate.
      * intros ->. discriminate.
  - intros Hne Hz. destruct (latency =? infinity)%float eqn:E.
    + by apply eqb_infinity_iff in E.
    + by rewrite Hz.
Qed.
End DisplayFacts.

(** ** The progress that the live display shows *)

Module SchedProgressFacts.
Import Sched SchedProgress.
#[local] Open Scope nat_scope.

Lemma no_less_refl (a : snapshot) : no_less a a.
Proof. unfold no_less. lia. Qed.

Lemma no_less_trans (a b c : snapshot) : no_less a b -> no_less b c -> no_less a c.
Proof. unfold no_less. lia. Qed.

Lemma dict_set_length {V : Type} (k : string) (v : V) (d : list (string * V)) :
  length d <= length (dict_set k v d).
Proof.
  induction d as [|[k' v'] d IH]; simpl; [lia|].
  destruct (String.eqb k k'); simpl; lia.
Qed.

(** No statement takes a counter or the number of records down, and none
    but the reporter's read adds a report. *)
Lemma step_progress (jobs : list job) (s s' : state) (e : event) :
  step jobs s e = Some s' ->
  no_less (reading_of s') (reading_of s)
  /\ (observed s' = observed s \/ observed s' = reading_of s :: observed s).
Proof.
  unfold step, no_less, reading_of.
  cbn [seen_scanned seen_successful seen_failed seen_results].
  destruct e as [t | b], (current s) as [[|i]|] eqn:Hcur; try discriminate.
  - destruct (alive s t); [|discriminate]. intros [= <-].
    cbn [scanned successful failed results observed]. split; [lia | by left].
  - destruct (reporter s), b; cbn [reporter_step]; try destruct (lock s);
      intros [= <-];
      cbn [scanned successful failed results observed suspend set_reporter set_lock];
      (split; [lia | (by left) || (by right)]).
  - destruct (jobs !! i) as [j|]; [|discriminate].
    destruct (workers s !! i) as [pc|]; [|discriminate].
    pose proof (dict_set_length (job_server j) (job_result j) (results s)) as Hlen.
    destruct pc as [|[|awaits]| | | | | |]; cbn [worker_step];
      try destruct (slots s);
      try destruct (lock s); try discriminate; intros [= <-];
      cbn [scanned successful failed results observed suspend set_worker set_slots
           set_lock];
      (split; [destruct (job_ok j); lia | by left]).
Qed.

Lemma run_progress (jobs : list job) (es : list event) (s s' : state) :
  StronglySorted no_less (observed s) ->
  Forall (no_less (reading_of s)) (observed s) ->
  run jobs s es = Some s' ->
  StronglySorted no_less (observed s')
  /\ Forall (no_less (reading_of s')) (observed s').
Proof.
  revert s. induction es as [|e es IH]; intros s Hsorted Hall; simpl.
  - by intros [= <-].
  - destruct (step jobs s e) as [s1|] eqn:Hstep; [|discriminate].
    destruct (step_progress jobs s s1 e Hstep) as [Hmore Hobs].
    apply IH.
    + destruct Hobs as [-> | ->]; [exact Hsorted|]. by constructor.
    + assert (Hall1 : Forall (no_less (reading_of s1)) (observed s)).
      { eapply Forall_impl; [exact Hall|]. intros a Ha. by eapply no_less_trans. }
      destruct Hobs as [-> | ->]; [exact Hall1|]. by constructor.
Qed.

(** X29.  The progress that the live display shows never goes back: of two
    reports, the later one shows at least as many scanned, successful and
    failed servers and at least as many records as the earlier one. *)
Theorem live_progress_never_decreases (max_workers : nat) (jobs : list job)
    (s : state) (i j : nat) (later earlier : snapshot) :
  reachable max_workers jobs s ->
  i < j ->
  nth_error (observed s) i = Some later ->
  nth_error (observed s) j = Some earlier ->
  no_less later earlier.
Proof.
  intros [es Hrun] Hij Hi Hj.
  destruct (run_progress jobs es (init max_workers jobs) s) as [Hsorted _];
    [constructor | constructor | exact Hrun |].
  exact (StronglySorted_nth_error no_less _ i j later earlier Hsorted Hij Hi Hj).
Qed.


Lemma live_progress_never_decreases_witness :
  map seen_scanned two_reports = [2; 1]
  /\ no_less last_report first_report.
Proof.
  split; [vm_compute; reflexivity|].
  assert (Hreach : reachable 2 two_jobs after_scans).
  { exists scans_and_reports. vm_compute. reflexivity. }
  assert (H0 : nth_error (observed after_scans) 0 = Some last_report)
    by (vm_compute; reflexivity).
  assert (H1 : nth_error (observed after_scans) 1 = Some first_report)
    by (vm_compute; reflexivity).
  apply (live_progress_never_decreases 2 two_jobs after_scans 0 1 _ _ Hreach);
    [lia | exact H0 | exact H1].
Defined.
End SchedProgressFacts.
